(** * HelmPack: image discovery, bundling and relocation

    A shallow embedding of [helmpack.py] (the analyzer, the bundler and the
    importer) together with the properties its specification states about
    them.

    Python [str] values are modelled as lists of 8-bit characters; the
    string methods the program uses are written out in [PyStr] with
    Python's semantics.  Python exceptions are modelled by the error monad
    [Py.res].  External collaborators (helm, the container runtime, the
    YAML reader) are inputs of the model: their results are data, their
    behaviour is an oracle: what they return or raise is part of the
    input.  The log is modelled for packaging and import, where the
    properties speak of it.  The importer is modelled on a manifest of
    the shape the bundler writes. *)

From Stdlib Require Import List Ascii Bool Arith.
From Stdlib Require String.
Import String.StringSyntax.
Delimit Scope string_scope with string.
Import ListNotations.

Set Warnings "-register-all".

(* ===================================================================== *)
(** ** Python strings *)
(* ===================================================================== *)

Module PyStr.

Definition str := list ascii.

(** String literals of the source. *)
Definition lit (s : String.string) : str := String.list_ascii_of_string s.
Arguments lit s%_string.

Fixpoint eqb (a b : str) : bool :=
  match a, b with
  | [], [] => true
  | x :: a', y :: b' => Ascii.eqb x y && eqb a' b'
  | _, _ => false
  end.

(** [s.startswith(p)] *)
Fixpoint startswith (p s : str) : bool :=
  match p, s with
  | [], _ => true
  | _ :: _, [] => false
  | x :: p', y :: s' => Ascii.eqb x y && startswith p' s'
  end.

(** [sub in s] *)
Fixpoint contains (sub s : str) : bool :=
  startswith sub s ||
  match s with
  | [] => false
  | _ :: s' => contains sub s'
  end.

(** [c in chars] for a single character. *)
Definition mem (c : ascii) (chars : str) : bool :=
  existsb (Ascii.eqb c) chars.

(** [str.isspace] on one character (code points below 256). *)
Definition isspace (c : ascii) : bool :=
  let n := nat_of_ascii c in
  ((9 <=? n) && (n <=? 13)) || ((28 <=? n) && (n <=? 32))
  || (n =? 133) || (n =? 160).

Fixpoint lstrip_by (p : ascii -> bool) (s : str) : str :=
  match s with
  | [] => []
  | c :: s' => if p c then lstrip_by p s' else s
  end.

Definition rstrip_by (p : ascii -> bool) (s : str) : str :=
  rev (lstrip_by p (rev s)).

Definition strip_by (p : ascii -> bool) (s : str) : str :=
  rstrip_by p (lstrip_by p s).

(** [s.strip()] *)
Definition strip (s : str) : str := strip_by isspace s.

(** [s.strip(chars)] *)
Definition strip_chars (chars s : str) : str :=
  strip_by (fun c => mem c chars) s.

(** [s.rstrip(chars)] *)
Definition rstrip_chars (chars s : str) : str :=
  rstrip_by (fun c => mem c chars) s.

(** The scan of [s.split(sep)] for a non-empty [sep]: occurrences of
    [sep] are found from left to right and do not overlap.  [skip]
    counts the characters of a matched separator still to be dropped;
    the head of the result is the segment being read. *)
Fixpoint split_go (sep : str) (skip : nat) (s : str) : list str :=
  match s with
  | [] => [[]]
  | c :: s' =>
      match skip with
      | S k => split_go sep k s'
      | O =>
          if startswith sep s
          then [] :: split_go sep (List.length sep - 1) s'
          else match split_go sep 0 s' with
               | seg :: rest => (c :: seg) :: rest
               | [] => [[c]]
               end
      end
  end.

(** [s.split(sep)]; every call of the source passes a non-empty literal. *)
Definition split (sep s : str) : list str := split_go sep 0 s.

(** The cut of [s] at the last occurrence of [c], when there is one. *)
Fixpoint rpartition (c : ascii) (s : str) : option (str * str) :=
  match s with
  | [] => None
  | x :: s' =>
      match rpartition c s' with
      | Some (a, b) => Some (x :: a, b)
      | None => if Ascii.eqb x c then Some ([], s') else None
      end
  end.

(** [s.rsplit(c, 1)] for a one-character separator: a list of one
    element when [c] does not occur, of two otherwise. *)
Definition rsplit1 (c : ascii) (s : str) : list str :=
  match rpartition c s with
  | Some (a, b) => [a; b]
  | None => [s]
  end.

(** [sep.join(l)] *)
Fixpoint join (sep : str) (l : list str) : str :=
  match l with
  | [] => []
  | [a] => a
  | a :: l' => a ++ sep ++ join sep l'
  end.

(** The scan of [s.replace(old, new)] for a non-empty [old]. *)
Fixpoint replace_go (old new : str) (skip : nat) (s : str) : str :=
  match s with
  | [] => []
  | c :: s' =>
      match skip with
      | S k => replace_go old new k s'
      | O =>
          if startswith old s
          then new ++ replace_go old new (List.length old - 1) s'
          else c :: replace_go old new 0 s'
      end
  end.

(** [s.replace(old, new)]; an empty [old] matches before every
    character and at the end. *)
Definition replace (old new s : str) : str :=
  match old with
  | [] => new ++ flat_map (fun c => c :: new) s
  | _ :: _ => replace_go old new 0 s
  end.

(** [s.lower()] on one character (ASCII and Latin-1 capitals). *)
Definition lower_char (c : ascii) : ascii :=
  let n := nat_of_ascii c in
  if ((65 <=? n) && (n <=? 90))
     || ((192 <=? n) && (n <=? 222) && negb (n =? 215))
  then ascii_of_nat (n + 32) else c.

Definition lower (s : str) : str := map lower_char s.

End PyStr.

Import PyStr.

Declare Scope pystr_scope.
Delimit Scope pystr_scope with py.
Notation "$ s" := (lit s) (at level 1, format "$ s") : pystr_scope.
Open Scope pystr_scope.

(* ===================================================================== *)
(** ** Python control flow: exceptions, indexing *)
(* ===================================================================== *)

Module Py.

Inductive exn : Type :=
| IndexError
| ValueError (msg : str)
| AttributeError
| TypeError
| YAMLError
| FileNotFoundError
| CalledProcessError
| ImageNotFound
| APIError
| OtherError.

Inductive res (A : Type) : Type :=
| Ok (a : A)
| Raise (e : exn).

Arguments Ok {A} a.
Arguments Raise {A} e.

Definition bind {A B : Type} (m : res A) (k : A -> res B) : res B :=
  match m with
  | Ok a => k a
  | Raise e => Raise e
  end.

(** [l[0]] *)
Definition first {A : Type} (l : list A) : res A :=
  match l with
  | [] => Raise IndexError
  | a :: _ => Ok a
  end.

(** [l[-1]] *)
Fixpoint last {A : Type} (l : list A) : res A :=
  match l with
  | [] => Raise IndexError
  | [a] => Ok a
  | _ :: l' => last l'
  end.

(** [l[-1] = v] *)
Fixpoint set_last {A : Type} (l : list A) (v : A) : res (list A) :=
  match l with
  | [] => Raise IndexError
  | [_] => Ok [v]
  | a :: l' => bind (set_last l' v) (fun r => Ok (a :: r))
  end.

(** [a, b = l] *)
Definition unpack2 {A : Type} (l : list A) : res (A * A) :=
  match l with
  | [a; b] => Ok (a, b)
  | _ => Raise (ValueError (lit "unpack"))
  end.

(** [for x in xs: images.extend(f(x))] with a local list [images]:
    an exception raised by [f] leaves the loop and the function. *)
Fixpoint extend_each {A B : Type} (f : A -> res (list B)) (xs : list A)
  : res (list B) :=
  match xs with
  | [] => Ok []
  | x :: xs' =>
      bind (f x) (fun r => bind (extend_each f xs') (fun rs => Ok (r ++ rs)))
  end.

(** [try: for x in xs: r = f(x); if r: images.append(r)
     except Exception: log]
    on the list [images] of the enclosing function: what was appended
    before an exception stays, the exception is swallowed. *)
Fixpoint try_append_each {A B : Type} (f : A -> res (option B))
  (xs : list A) (images : list B) : list B :=
  match xs with
  | [] => images
  | x :: xs' =>
      match f x with
      | Ok (Some b) => try_append_each f xs' (images ++ [b])
      | Ok None => try_append_each f xs' images
      | Raise _ => images
      end
  end.

End Py.

Import Py.

Notation "x <- m ;; k" := (bind m (fun x => k))
  (at level 61, m at next level, right associativity).
Notation "' p <- m ;; k" := (bind m (fun x => match x with p => k end))
  (at level 61, p pattern, m at next level, right associativity).

(* ===================================================================== *)
(** ** Data model *)
(* ===================================================================== *)

(** [class ImageInfo] *)
Record ImageInfo : Type := mkImageInfo {
  name : str;
  tag : str;
  registry : str;
  repository : str;
  full_reference : str;
  chart_source : str;
  digest : option str;
  size : option nat
}.

(* ===================================================================== *)
(** ** HelmChartAnalyzer: the reference parser *)
(* ===================================================================== *)

(** [not l] for a string or a list. *)
Definition is_empty {A : Type} (l : list A) : bool :=
  match l with [] => true | _ => false end.

(** The two quote characters, code points 34 and 39. *)
Definition quote_chars : str := [ascii_of_nat 34; ascii_of_nat 39].

(** The cleaning step of the parser: [image_ref.strip()] and then
    [.strip(...)] of the two quote characters. *)
Definition clean_reference (image_ref : str) : str :=
  strip_chars quote_chars (strip image_ref).

(** The split of a cleaned reference into registry and repository parts. *)
Definition registry_and_parts (image_ref : str) : res (str * list str) :=
  let parts := split $"/" image_ref in
  p0 <- first parts ;;
  if contains $"." p0 || contains $":" p0
  then Ok (p0, tl parts)
  else Ok ($"docker.io", parts).

(** [HelmChartAnalyzer._parse_image_reference]; [Ok None] is the
    source's [return None]. *)
Definition _parse_image_reference (image_ref chart_source : str)
  : res (option ImageInfo) :=
  if is_empty image_ref || startswith $"{{" image_ref then Ok None else
  let image_ref := clean_reference image_ref in
  if is_empty image_ref || contains $"{{" image_ref || contains $"}}" image_ref
  then Ok None else
  ' (registry, repo_parts) <- registry_and_parts image_ref ;;
  if is_empty repo_parts then Ok None else
  last_part <- last repo_parts ;;
  ' (repo_parts, tag) <-
     (if contains $":" last_part
      then ' (head, tag) <- unpack2 (rsplit1 ":" last_part) ;;
           repo_parts' <- set_last repo_parts head ;;
           Ok (repo_parts', tag)
      else Ok (repo_parts, $"latest")) ;;
  let repository := join $"/" repo_parts in
  name <- last repo_parts ;;
  Ok (Some {| name := name;
              tag := tag;
              registry := registry;
              repository := repository;
              full_reference := image_ref;
              chart_source := chart_source;
              digest := None;
              size := None |}).


(* ===================================================================== *)
(** ** HelmChartAnalyzer: the scanners *)
(* ===================================================================== *)

(** A key of a mapping as [yaml.safe_load] returns it: a string; a
    binary key, which has a [lower()] and is never equal to a string;
    or a key that is null, a boolean, a number or a date, which has no
    [lower()]. *)
Inductive ykey : Type :=
| KStr (s : str)
| KBytes
| KOther.

(** A parsed YAML document, as [yaml.safe_load] returns it: a string;
    null, a boolean, a number or a date ([YScalar], with its truth
    value), which has no length and cannot be iterated; a binary or a
    set, and the pairs that are the items of an ordered mapping
    ([YOpaque]), which have a length, can be iterated and are no
    string, list or mapping; a list; a mapping, in document order. *)
Inductive yaml : Type :=
| YStr (s : str)
| YScalar (truth : bool)
| YOpaque (truth : bool)
| YList (items : list yaml)
| YDict (entries : list (ykey * yaml)).

(** [if yaml_doc:] *)
Definition truthy (y : yaml) : bool :=
  match y with
  | YStr s => negb (is_empty s)
  | YScalar b => b
  | YOpaque b => b
  | YList l => negb (is_empty l)
  | YDict l => negb (is_empty l)
  end.

Definition option_list {A : Type} (o : option A) : list A :=
  match o with Some a => [a] | None => [] end.

(** [key.lower()]: the lowered string of a string key, a binary that
    equals no string for a binary key, [AttributeError] for a key of
    another type. *)
Definition key_lower (key : ykey) : res (option str) :=
  match key with
  | KStr s => Ok (Some (lower s))
  | KBytes => Ok None
  | KOther => Raise AttributeError
  end.

(** [lowered == 'image'] *)
Definition is_image_key (lowered : option str) : bool :=
  match lowered with
  | Some k => eqb k $"image"
  | None => false
  end.

(** [HelmChartAnalyzer._extract_images_from_yaml] *)
Fixpoint _extract_images_from_yaml (yaml_obj : yaml) (chart_name : str)
  : res (list ImageInfo) :=
  match yaml_obj with
  | YDict entries =>
      (fix items (es : list (ykey * yaml)) : res (list ImageInfo) :=
         match es with
         | [] => Ok []
         | (key, value) :: es' =>
             found <-
               (lowered <- key_lower key ;;
                match value with
                | YStr s =>
                    if is_image_key lowered
                    then img_info <- _parse_image_reference s chart_name ;;
                         Ok (option_list img_info)
                    else Ok []
                | YDict _ | YList _ => _extract_images_from_yaml value chart_name
                | YScalar _ | YOpaque _ => Ok []
                end) ;;
             rest <- items es' ;;
             Ok (found ++ rest)
         end) entries
  | YList l =>
      (fix items (l : list yaml) : res (list ImageInfo) :=
         match l with
         | [] => Ok []
         | item :: l' =>
             found <-
               match item with
               | YDict _ | YList _ => _extract_images_from_yaml item chart_name
               | _ => Ok []
               end ;;
             rest <- items l' ;;
             Ok (found ++ rest)
         end) l
  | _ => Ok []
  end.

(** [d.get(key)], [key in d] and [d[key]] on the entries of a mapping,
    for a string [key]. *)
Fixpoint ylookup (entries : list (ykey * yaml)) (key : str) : option yaml :=
  match entries with
  | [] => None
  | (KStr k, v) :: rest => if eqb k key then Some v else ylookup rest key
  | _ :: rest => ylookup rest key
  end.

(** What the analyzer reads of a [Chart.yaml] that is a mapping: name
    and version when present (strings, as [ChartInfo] declares them),
    and the values under [dependencies] and [annotations] when
    present. *)
Record ChartYaml : Type := mkChartYaml {
  cy_name : option str;
  cy_version : option str;
  cy_dependencies : option yaml;
  cy_annotations : option yaml
}.

(** A chart directory as the analyzer sees it, the collaborators'
    answers included.  [cd_chart_yaml] is absent without a
    [Chart.yaml]; otherwise it is what [yaml.safe_load] makes of the
    file: an exception, a mapping, or ([None]) a document that is no
    mapping, an empty file for one.  [cd_load_images] and
    [cd_load_artifacthub] are the answers of [yaml.safe_load] on the
    two annotations.  [cd_dependency_update] is the answer of
    [helm dependency update].  [helm template] gives the documents of
    its output that are not blank and that load, or raises.
    [cd_values] holds, for each of [values.yaml] and [values.yml] that
    exists, what opening and loading it gives.  [cd_templates] holds,
    per template file named [.yaml] or [.yml], the tokens the four
    image patterns capture, or the exception of reading the file (it
    is absent without a templates directory).  [cd_charts] are the
    dependency archives under [charts/], each unpacked. *)
Inductive ChartDir : Type := mkChartDir {
  cd_path : str;
  cd_chart_yaml : option (res (option ChartYaml));
  cd_load_images : res yaml;
  cd_load_artifacthub : res yaml;
  cd_dependency_update : res unit;
  cd_helm_template : res (list yaml);
  cd_values : list (res yaml);
  cd_templates : option (list (res (list str)));
  cd_charts : list ChartDir
}.

(** The values [item['image']] of the items of [for item in image_list]
    that are mappings holding the key [image].  Iterating a string, a
    mapping, a binary or a set gives characters, keys, numbers or
    members, none of them a mapping; a value that cannot be iterated
    raises. *)
Definition image_values (image_list : yaml) : res (list yaml) :=
  match image_list with
  | YList items =>
      Ok (flat_map (fun item =>
                      match item with
                      | YDict entries => option_list (ylookup entries $"image")
                      | _ => []
                      end) items)
  | YStr _ | YDict _ | YOpaque _ => Ok []
  | YScalar _ => Raise TypeError
  end.

(** [_parse_image_reference] on a value of any type: its first test,
    [not image_ref or image_ref.startswith(...)], returns on a false
    value and raises on a true value that is not a string (an
    [AttributeError], a [TypeError] for a binary: the handlers that
    catch it do not tell them apart). *)
Definition parse_image_value (image_ref : yaml) (chart_source : str)
  : res (option ImageInfo) :=
  match image_ref with
  | YStr s => _parse_image_reference s chart_source
  | _ => if truthy image_ref then Raise AttributeError else Ok None
  end.

(** The [try] block of one annotation, [loaded] being its
    [image_list] or the exception raised on the way to it: what was
    appended before an exception stays, the handler logs. *)
Definition scan_annotation (loaded : res yaml) (chart_name : str)
  (images : list ImageInfo) : list ImageInfo :=
  match loaded with
  | Raise _ => images
  | Ok image_list =>
      match image_values image_list with
      | Raise _ => images
      | Ok values =>
          try_append_each (fun image_ref => parse_image_value image_ref chart_name)
                          values images
      end
  end.

(** [HelmChartAnalyzer._parse_chart_annotations] *)
Definition _parse_chart_annotations (chart_path : ChartDir) (chart_name : str)
  : res (list ImageInfo) :=
  loaded <- match cd_chart_yaml chart_path with
            | None => Raise FileNotFoundError
            | Some loaded => loaded
            end ;;
  chart_yaml <- match loaded with
                | None => Raise AttributeError
                | Some chart_yaml => Ok chart_yaml
                end ;;
  let images := [] in
  annotations <- match cy_annotations chart_yaml with
                 | None => Ok []
                 | Some (YDict entries) => Ok entries
                 | Some _ => Raise AttributeError
                 end ;;
  let images :=
    match ylookup annotations $"images" with
    | Some images_annotation =>
        if truthy images_annotation
        then scan_annotation
               (match images_annotation with
                | YStr _ => cd_load_images chart_path
                | _ => Ok images_annotation
                end) chart_name images
        else images
    | None => images
    end in
  let images :=
    match ylookup annotations $"artifacthub.io/images" with
    | Some artifacthub_images =>
        if truthy artifacthub_images
        then scan_annotation
               (match artifacthub_images with
                | YStr _ | YOpaque _ => cd_load_artifacthub chart_path
                | _ => Raise AttributeError
                end) chart_name images
        else images
    | None => images
    end in
  Ok images.

(** [HelmChartAnalyzer._parse_templates_manually]: the textual
    fallback; a file that cannot be read is logged and left out. *)
Definition _parse_templates_manually (chart_path : ChartDir) (chart_name : str)
  : list ImageInfo :=
  match cd_templates chart_path with
  | None => []
  | Some files =>
      fold_left
        (fun images file =>
           match file with
           | Raise _ => images
           | Ok matches =>
               try_append_each
                 (fun image_ref =>
                    if negb (contains $"{{" image_ref || contains $"}}" image_ref)
                    then _parse_image_reference image_ref chart_name
                    else Ok None)
                 matches images
           end)
        files []
  end.

(** The loop of [_extract_images_from_templates] over the documents
    of the rendered output. *)
Definition scan_rendered (documents : list yaml) (chart_name : str)
  : res (list ImageInfo) :=
  extend_each
    (fun yaml_doc =>
       if truthy yaml_doc
       then _extract_images_from_yaml yaml_doc chart_name
       else Ok [])
    documents.

(** [HelmChartAnalyzer._extract_images_from_templates] *)
Definition _extract_images_from_templates (chart_path : ChartDir)
  (chart_name : str) : res (list ImageInfo) :=
  match cd_helm_template chart_path with
  | Ok documents => scan_rendered documents chart_name
  | Raise CalledProcessError =>
      Ok (_parse_templates_manually chart_path chart_name)
  | Raise e => Raise e
  end.

(** [HelmChartAnalyzer._parse_values_for_images]: a file that does not
    load as YAML is logged and left out, any other exception leaves
    the function. *)
Definition _parse_values_for_images (chart_path : ChartDir) (chart_name : str)
  : res (list ImageInfo) :=
  extend_each
    (fun loaded =>
       match loaded with
       | Ok values => _extract_images_from_yaml values chart_name
       | Raise YAMLError => Ok []
       | Raise e => Raise e
       end)
    (cd_values chart_path).

(* ===================================================================== *)
(** ** HelmChartAnalyzer: aggregation *)
(* ===================================================================== *)

(** A Python [dict] with string keys: entries in order of first
    insertion. *)
Definition dict (V : Type) : Type := list (str * V).

(** [d[k] = v] *)
Fixpoint dict_set {V : Type} (d : dict V) (k : str) (v : V) : dict V :=
  match d with
  | [] => [(k, v)]
  | (k', v') :: d' =>
      if eqb k' k then (k', v) :: d' else (k', v') :: dict_set d' k v
  end.

(** [d.get(k)] *)
Fixpoint dict_get {V : Type} (d : dict V) (k : str) : option V :=
  match d with
  | [] => None
  | (k', v') :: d' => if eqb k' k then Some v' else dict_get d' k
  end.

(** [list(d.values())] *)
Definition dict_values {V : Type} (d : dict V) : list V := map snd d.

(** The first half of [_discover_images]: the scanners' results, put on
    [images] in the order of the calls. *)
Definition candidate_images (chart_path : ChartDir) (chart_name : str)
  : res (list ImageInfo) :=
  let images := [] in
  declared <- _parse_chart_annotations chart_path chart_name ;;
  let images := images ++ declared in
  from_templates <- _extract_images_from_templates chart_path chart_name ;;
  let images := images ++ from_templates in
  from_values <- _parse_values_for_images chart_path chart_name ;;
  let images := images ++ from_values in
  Ok images.

(** The second half of [_discover_images]: [unique_images] and its
    values. *)
Definition unique_images (images : list ImageInfo) : list ImageInfo :=
  dict_values
    (fold_left (fun unique img => dict_set unique (full_reference img) img)
               images []).

(** [HelmChartAnalyzer._discover_images] *)
Definition _discover_images (chart_path : ChartDir) (chart_name : str)
  : res (list ImageInfo) :=
  images <- candidate_images chart_path chart_name ;;
  Ok (unique_images images).

(** [class ChartInfo] *)
Inductive ChartInfo : Type := mkChartInfo {
  ci_name : str;
  ci_version : str;
  ci_path : str;
  ci_dependencies : list ChartInfo;
  ci_images : list ImageInfo
}.

(** [dict.get(key, default)] on an optional field. *)
Definition get_default {A : Type} (o : option A) (default : A) : A :=
  match o with Some a => a | None => default end.

(** The loop of [_discover_dependencies] over the archives of [charts/]:
    a dependency whose analysis raises is logged and left out. *)
Fixpoint analyze_each (analyze : ChartDir -> res ChartInfo)
  (dep_files : list ChartDir) : list ChartInfo :=
  match dep_files with
  | [] => []
  | dep_path :: rest =>
      match analyze dep_path with
      | Ok dep_chart => dep_chart :: analyze_each analyze rest
      | Raise _ => analyze_each analyze rest
      end
  end.

(** [len(deps)] *)
Definition py_len (y : yaml) : res unit :=
  match y with
  | YScalar _ => Raise TypeError
  | _ => Ok tt
  end.

(** [HelmChartAnalyzer._discover_dependencies], [analyze_chart] being
    the method it calls on each archive. *)
Definition _discover_dependencies (analyze_chart : ChartDir -> res ChartInfo)
  (chart_path : ChartDir) (chart_yaml : ChartYaml) : res (list ChartInfo) :=
  let dependencies := [] in
  match cy_dependencies chart_yaml with
  | None => Ok dependencies
  | Some deps =>
      if negb (truthy deps) then Ok dependencies else
      _ <- py_len deps ;;
      _ <- match cd_dependency_update chart_path with
           | Raise CalledProcessError => Ok tt
           | updated => updated
           end ;;
      Ok (analyze_each analyze_chart (cd_charts chart_path))
  end.

(** [HelmChartAnalyzer.analyze_chart] on the directory its call of
    [_prepare_chart] returned; when that call raises (it is modelled
    with the chart sources below), so does the analysis.  The archives
    under [charts/] are given by the directories their own preparation
    returns. *)
Fixpoint analyze_chart (chart_path : ChartDir) : res ChartInfo :=
  match cd_chart_yaml chart_path with
  | None => Raise (ValueError ($"Chart.yaml not found in " ++ cd_path chart_path))
  | Some loaded =>
      loaded <- loaded ;;
      match loaded with
      | None => Raise AttributeError
      | Some chart_yaml =>
          let chart_name := get_default (cy_name chart_yaml) $"unknown" in
          let chart_version := get_default (cy_version chart_yaml) $"0.0.0" in
          dependencies <-
            _discover_dependencies analyze_chart chart_path chart_yaml ;;
          images <- _discover_images chart_path chart_name ;;
          let all_images := images ++ flat_map ci_images dependencies in
          Ok {| ci_name := chart_name;
                ci_version := chart_version;
                ci_path := cd_path chart_path;
                ci_dependencies := dependencies;
                ci_images := all_images |}
      end
  end.

(* ===================================================================== *)
(** ** Collaborators and on-disk data *)
(* ===================================================================== *)

(** An image handle of the container runtime: its id, and what
    streaming [save()] to the archive file yields, the chunks written
    and the exception that ended the stream if there was one. *)
Record DockerImage : Type := mkDockerImage {
  image_id : str;
  save_chunks : list str;
  save_error : option exn
}.

(** The container runtime, [docker_client]; each call answers or
    raises. *)
Record DockerClient : Type := mkDockerClient {
  images_pull : str -> res DockerImage;
  login : str -> str -> str -> res unit;
  images_load : str -> res (list DockerImage);
  image_tag : DockerImage -> str -> res unit;
  images_push : str -> res unit;
  images_remove : str -> res unit
}.

(** The files of a chart that relocation looks at, and the others. *)
Record ChartTree : Type := mkChartTree {
  values_yaml : option str;
  values_yml : option str;
  templates : option (list (str * str));
  other_files : list (str * str)
}.

(** Lines of the log the modelled functions write. *)
Inductive LogRecord : Type :=
| InfoCreatingBundle (chart_name version : str)
| WarnDockerNotAvailable
| InfoPullingImages (count : nat)
| InfoPulling (ref : str)
| ErrorFailedToPull (ref : str)
| ErrorUnexpectedPulling (ref : str)
| InfoNoImagesDirectory
| InfoImporting (count : nat)
| ErrorFailedToLogin
| InfoPushing (ref : str)
| ErrorFailedToImport (ref : str)
| ErrorNoChartDirectory
| InfoImportingChart (chart_name version : str)
| InfoRelocating
| InfoUpdated (file : str)
| InfoChartPushed (url : str)
| ErrorFailedToPushChart
| ErrorUnexpectedPushingChart
| InfoBundleCreated (path : str)
| InfoImportingBundle
| InfoBundleImported.

(** The [metadata] entry of [bundle.yaml]. *)
Record BundleMetadata : Type := mkBundleMetadata {
  md_name : str;
  md_version : str;
  generatedAt : str;
  generatedBy : str;
  bundlePath : str;
  totalImages : nat;
  totalDependencies : nat
}.

(** [bundle.yaml] as [create_bundle] writes it: a mapping that holds
    [chart] and [images], the chart with its name and version, every
    image with its [full_reference].  The importer is modelled on such
    a manifest; on a [bundle.yaml] of another shape the lookups of
    [import_bundle], [_import_images] and [_import_chart] raise. *)
Record Manifest : Type := mkManifest {
  apiVersion : str;
  kind : str;
  metadata : BundleMetadata;
  manifest_chart : ChartInfo;
  manifest_images : list ImageInfo
}.

(** The bundle directory, which the tarball holds: the manifest, the
    chart copy and the image archives by file name, each present or
    not. *)
Record BundleDir : Type := mkBundleDir {
  bundle_dir_name : str;
  bundle_yaml : option Manifest;
  chart_dir : option ChartTree;
  images_dir : option (dict str)
}.

(* ===================================================================== *)
(** ** HelmPackBundler *)
(* ===================================================================== *)

(** The archive file name of an image: every slash and every colon of
    the reference becomes an underscore. *)
Definition image_filename (full_ref : str) : str :=
  replace $":" $"_" (replace $"/" $"_" full_ref) ++ $".tar".

(** [os.path.join(a, b)] *)
Definition path_join (a b : str) : str :=
  if startswith $"/" b then b
  else if is_empty a || startswith $"/" (rev a) then a ++ b
  else a ++ $"/" ++ b.

(** What [_pull_and_save_images] has done so far: the files of
    [images/], the images in memory (their [digest] set after a pull)
    and the log. *)
Record PullState : Type := mkPullState {
  ps_files : dict str;
  ps_images : list ImageInfo;
  ps_log : list LogRecord
}.

Definition set_digest (image : ImageInfo) (d : str) : ImageInfo :=
  {| name := name image; tag := tag image; registry := registry image;
     repository := repository image; full_reference := full_reference image;
     chart_source := chart_source image; digest := Some d;
     size := size image |}.

(** The line either [except] clause of the loop writes. *)
Definition pull_error (e : exn) (ref : str) : LogRecord :=
  match e with
  | ImageNotFound | APIError => ErrorFailedToPull ref
  | _ => ErrorUnexpectedPulling ref
  end.

(** One turn of the loop of [_pull_and_save_images]. *)
Definition pull_and_save_one (docker_client : DockerClient) (st : PullState)
  (image : ImageInfo) : PullState :=
  let log := ps_log st ++ [InfoPulling (full_reference image)] in
  match images_pull docker_client (full_reference image) with
  | Ok pulled_image =>
      let files :=
        dict_set (ps_files st) (image_filename (full_reference image))
                 (concat (save_chunks pulled_image)) in
      match save_error pulled_image with
      | None =>
          mkPullState files
            (ps_images st ++ [set_digest image (image_id pulled_image)]) log
      | Some e =>
          mkPullState files (ps_images st ++ [image])
            (log ++ [pull_error e (full_reference image)])
      end
  | Raise e =>
      mkPullState (ps_files st) (ps_images st ++ [image])
        (log ++ [pull_error e (full_reference image)])
  end.

(** [HelmPackBundler._pull_and_save_images]: the [images/] directory it
    leaves (none without a runtime), the images in memory and the log. *)
Definition _pull_and_save_images (docker_client : option DockerClient)
  (images : list ImageInfo) : option (dict str) * list ImageInfo * list LogRecord :=
  match docker_client with
  | None => (None, images, [WarnDockerNotAvailable])
  | Some client =>
      let st :=
        fold_left (pull_and_save_one client) images
                  (mkPullState [] [] [InfoPullingImages (List.length images)]) in
      (Some (ps_files st), ps_images st, ps_log st)
  end.

(** The result of [create_bundle]: the path it returns, the directory
    archived at that path, the image list in memory and the log. *)
Record Bundled : Type := mkBundled {
  bundle_path : str;
  bundle : BundleDir;
  images_in_memory : list ImageInfo;
  bundle_log : list LogRecord
}.

(** [HelmPackBundler.create_bundle]; [date] is the output of the [date]
    command and [chart_files] the tree found at the chart's path. *)
Definition create_bundle (docker_client : option DockerClient)
  (date : str) (chart_files : ChartTree)
  (chart_info : ChartInfo) (output_path : str) (pull_images : bool)
  : Bundled :=
  let bundle_name :=
    ci_name chart_info ++ $"-" ++ ci_version chart_info ++ $".helmpack.tgz" in
  let bundle_path :=
    if negb (is_empty output_path) then path_join output_path bundle_name
    else bundle_name in
  let bundle_dir := ci_name chart_info ++ $"-" ++ ci_version chart_info in
  let metadata :=
    {| apiVersion := $"v1";
       kind := $"HelmPackBundle";
       metadata :=
         {| md_name := ci_name chart_info;
            md_version := ci_version chart_info;
            generatedAt := strip date;
            generatedBy := $"HelmPack Universal Bundler";
            bundlePath := bundle_path;
            totalImages := List.length (ci_images chart_info);
            totalDependencies := List.length (ci_dependencies chart_info) |};
       manifest_chart := chart_info;
       manifest_images := ci_images chart_info |} in
  let '(images_dir, images, log) :=
    if pull_images && negb (is_empty (ci_images chart_info))
    then _pull_and_save_images docker_client (ci_images chart_info)
    else (None, ci_images chart_info, []) in
  {| bundle_path := bundle_path;
     bundle := {| bundle_dir_name := bundle_dir;
                  bundle_yaml := Some metadata;
                  chart_dir := Some chart_files;
                  images_dir := images_dir |};
     images_in_memory := images;
     bundle_log :=
       [InfoCreatingBundle (ci_name chart_info) (ci_version chart_info)]
       ++ log ++ [InfoBundleCreated bundle_path] |}.

(* ===================================================================== *)
(** ** HelmPackImporter *)
(* ===================================================================== *)

(** The chart-management collaborator at import: [helm package] leaves
    the archives found in the working directory or raises, [helm push]
    answers or raises. *)
Record Helm : Type := mkHelm {
  helm_package : ChartTree -> res (list str);
  helm_push : str -> str -> res unit
}.

Record HelmPackImporter : Type := mkImporter {
  harbor_url : str;
  harbor_username : str;
  harbor_password : str;
  insecure : bool;
  docker_client : option DockerClient;
  helm : Helm
}.

(** [HelmPackImporter.__init__] and [__enter__]. *)
Definition new_importer (harbor_url harbor_username harbor_password : str)
  (insecure : bool) (docker : option DockerClient) (helm : Helm)
  : HelmPackImporter :=
  {| harbor_url := rstrip_chars $"/" harbor_url;
     harbor_username := harbor_username;
     harbor_password := harbor_password;
     insecure := insecure;
     docker_client := docker;
     helm := helm |}.

(** [self.harbor_url.split('://')[-1]]; [split] never returns an empty
    list, the default is not reached. *)
Definition harbor_host (self : HelmPackImporter) : str :=
  List.last (split $"://" (harbor_url self)) [].

(** [HelmPackImporter._generate_harbor_reference] *)
Definition _generate_harbor_reference (self : HelmPackImporter)
  (original_ref target_project : str) : res str :=
  let harbor_host := harbor_host self in
  let parts := split $"/" original_ref in
  last_part <- last parts ;;
  ' (repo, tag) <-
     (if contains $":" last_part
      then match rsplit1 ":" last_part with
           | repo :: tag :: _ => Ok (repo, tag)
           | _ => Raise IndexError
           end
      else Ok (last_part, $"latest")) ;;
  Ok (harbor_host ++ $"/" ++ target_project ++ $"/" ++ repo ++ $":" ++ tag).

(** What the runtime and the registry were asked to do. *)
Inductive Action : Type :=
| DockerLogin (registry : str)
| DockerLoad (file : str)
| DockerTag (id ref : str)
| DockerPush (ref : str)
| DockerRemove (id : str)
| HelmPackage (chart : ChartTree)
| HelmPush (package url : str).

(** The state an import runs in. *)
Record World : Type := mkWorld {
  actions : list Action;
  log : list LogRecord;
  chart : option ChartTree
}.

Definition act (a : Action) (w : World) : World :=
  mkWorld (actions w ++ [a]) (log w) (chart w).

Definition logging (r : LogRecord) (w : World) : World :=
  mkWorld (actions w) (log w ++ [r]) (chart w).

(** The body of the [try] of the loop of [_import_images]: the world it
    reached and whether it raised. *)
Definition import_one_try (self : HelmPackImporter) (client : DockerClient)
  (files : dict str) (target_project : str) (original_ref : str) (w : World)
  : World * option exn :=
  match _generate_harbor_reference self original_ref target_project with
  | Raise e => (w, Some e)
  | Ok harbor_ref =>
      let image_filename := image_filename original_ref in
      match dict_get files image_filename with
      | None => (w, None)
      | Some content =>
          let w := act (DockerLoad image_filename) w in
          match images_load client content with
          | Raise e => (w, Some e)
          | Ok [] => (w, None)
          | Ok (loaded_image :: _) =>
              let w := act (DockerTag (image_id loaded_image) harbor_ref) w in
              match image_tag client loaded_image harbor_ref with
              | Raise e => (w, Some e)
              | Ok _ =>
                  let w := logging (InfoPushing harbor_ref) w in
                  let w := act (DockerPush harbor_ref) w in
                  match images_push client harbor_ref with
                  | Raise e => (w, Some e)
                  | Ok _ =>
                      let w := act (DockerRemove (image_id loaded_image)) w in
                      match images_remove client (image_id loaded_image) with
                      | Raise e => (w, Some e)
                      | Ok _ => (w, None)
                      end
                  end
              end
          end
      end
  end.

(** One turn of the loop of [_import_images], its [except] included. *)
Definition import_one (self : HelmPackImporter) (client : DockerClient)
  (files : dict str) (target_project : str) (w : World) (image_info : ImageInfo)
  : World :=
  let original_ref := full_reference image_info in
  match import_one_try self client files target_project original_ref w with
  | (w, None) => w
  | (w, Some _) => logging (ErrorFailedToImport original_ref) w
  end.

(** [HelmPackImporter._import_images] *)
Definition _import_images (self : HelmPackImporter) (bundle_dir : BundleDir)
  (images_info : list ImageInfo) (target_project : str) (w : World)
  : res World :=
  match docker_client self with
  | None => Ok (logging WarnDockerNotAvailable w)
  | Some client =>
      match images_dir bundle_dir with
      | None => Ok (logging InfoNoImagesDirectory w)
      | Some files =>
          let w := logging (InfoImporting (List.length images_info)) w in
          let w := act (DockerLogin (harbor_host self)) w in
          match login client (harbor_username self) (harbor_password self)
                      (harbor_host self) with
          | Raise _ => Ok (logging ErrorFailedToLogin w)
          | Ok _ =>
              Ok (fold_left (import_one self client files target_project)
                            images_info w)
          end
      end
  end.

(** [HelmPackImporter._relocate_images_in_file] on the content read:
    the content after the loop and the flag [modified]. *)
Definition relocate_content (image_mapping : dict str) (content : str)
  : str * bool :=
  fold_left
    (fun '(content, modified) '(original_ref, harbor_ref) =>
       if contains original_ref content
       then (replace original_ref harbor_ref content, true)
       else (content, modified))
    image_mapping (content, false).

(** [HelmPackImporter._relocate_images_in_file]: the content the file has
    afterwards and the log line when it was written. *)
Definition _relocate_images_in_file (file_path : str) (content : str)
  (image_mapping : dict str) : str * list LogRecord :=
  let '(new_content, modified) := relocate_content image_mapping content in
  if modified then (new_content, [InfoUpdated file_path])
  else (content, []).

Definition endswith (suffix s : str) : bool :=
  startswith (rev suffix) (rev s).

(** [HelmPackImporter._relocate_chart_images] *)
Definition _relocate_chart_images (chart_dir : ChartTree)
  (image_mapping : dict str) : ChartTree * list LogRecord :=
  let relocate_opt (file_path : str) (file : option str) :=
    match file with
    | None => (None, [])
    | Some content =>
        let '(c, l) := _relocate_images_in_file file_path content image_mapping in
        (Some c, l)
    end in
  let '(v1, l1) := relocate_opt $"values.yaml" (values_yaml chart_dir) in
  let '(v2, l2) := relocate_opt $"values.yml" (values_yml chart_dir) in
  let '(t, l3) :=
    match templates chart_dir with
    | None => (None, [])
    | Some files =>
        let r :=
          map (fun '(file_path, content) =>
                 if endswith $".yaml" file_path || endswith $".yml" file_path
                 then let '(c, l) :=
                        _relocate_images_in_file file_path content image_mapping in
                      ((file_path, c), l)
                 else ((file_path, content), []))
              files in
        (Some (map fst r), concat (map snd r))
    end in
  (mkChartTree v1 v2 t (other_files chart_dir),
   [InfoRelocating] ++ l1 ++ l2 ++ l3).

(** [HelmPackImporter._push_chart_to_harbor] *)
Definition _push_chart_to_harbor (self : HelmPackImporter)
  (chart_dir : ChartTree) (target_project : str) (w : World) : World :=
  let w := act (HelmPackage chart_dir) w in
  match helm_package (helm self) chart_dir with
  | Raise CalledProcessError => logging ErrorFailedToPushChart w
  | Raise _ => logging ErrorUnexpectedPushingChart w
  | Ok [] => logging ErrorUnexpectedPushingChart w
  | Ok (f :: chart_files) =>
      let chart_package := List.last chart_files f in
      let harbor_chart_url :=
        $"oci://" ++ harbor_host self ++ $"/" ++ target_project in
      let w := act (HelmPush chart_package harbor_chart_url) w in
      match helm_push (helm self) chart_package harbor_chart_url with
      | Raise CalledProcessError => logging ErrorFailedToPushChart w
      | Raise _ => logging ErrorUnexpectedPushingChart w
      | Ok _ => logging (InfoChartPushed harbor_chart_url) w
      end
  end.

(** The relocation mapping built by [_import_chart]. *)
Definition build_image_mapping (self : HelmPackImporter)
  (images_info : list ImageInfo) (target_project : str) : res (dict str) :=
  fold_left
    (fun acc image_info =>
       image_mapping <- acc ;;
       let original_ref := full_reference image_info in
       harbor_ref <- _generate_harbor_reference self original_ref target_project ;;
       Ok (dict_set image_mapping original_ref harbor_ref))
    images_info (Ok []).

(** [HelmPackImporter._import_chart] *)
Definition _import_chart (self : HelmPackImporter) (bundle_dir : BundleDir)
  (chart_info : ChartInfo) (target_project : str)
  (images_info : list ImageInfo) (w : World) : res World :=
  match chart_dir bundle_dir with
  | None => Ok (logging ErrorNoChartDirectory w)
  | Some chart_dir =>
      let w := logging (InfoImportingChart (ci_name chart_info)
                                           (ci_version chart_info)) w in
      image_mapping <- build_image_mapping self images_info target_project ;;
      let '(relocated, l) := _relocate_chart_images chart_dir image_mapping in
      let w := mkWorld (actions w) (log w ++ l) (Some relocated) in
      Ok (_push_chart_to_harbor self relocated target_project w)
  end.

(** [HelmPackImporter.import_bundle] on the directories the archive
    unpacks to, the manifest of the first, when it has one, being of
    the shape the bundler writes. *)
Definition import_bundle (self : HelmPackImporter)
  (bundle_dirs : list BundleDir) (target_project : str) : res World :=
  match bundle_dirs with
  | [] => Raise (ValueError $"No bundle directory found in archive")
  | bundle_dir :: _ =>
      match bundle_yaml bundle_dir with
      | None => Raise FileNotFoundError
      | Some metadata =>
          let chart_info := manifest_chart metadata in
          let images_info := manifest_images metadata in
          let w := mkWorld [] [InfoImportingBundle] (chart_dir bundle_dir) in
          w <- _import_images self bundle_dir images_info target_project w ;;
          w <- _import_chart self bundle_dir chart_info target_project
                             images_info w ;;
          Ok (logging InfoBundleImported w)
      end
  end.

(* ===================================================================== *)
(** ** Definitions of the statements, and sample data *)
(* ===================================================================== *)

(** The state the loop of [_pull_and_save_images] ends in, from an
    empty [images/] and a log. *)
Definition pull_run (client : DockerClient) (log : list LogRecord)
  (images : list ImageInfo) : PullState :=
  fold_left (pull_and_save_one client) images (mkPullState [] [] log).

(** The parsed reference of a cleaned string whose repository part list
    is [init ++ [last_part]]. *)
Definition parsed (image_ref chart_source registry : str) (init : list str)
  (last_part : str) : ImageInfo :=
  match rpartition ":" last_part with
  | Some (head, tag) =>
      mkImageInfo head tag registry (join $"/" (init ++ [head]))
                  image_ref chart_source None None
  | None =>
      mkImageInfo last_part $"latest" registry (join $"/" (init ++ [last_part]))
                  image_ref chart_source None None
  end.

(** [registry + "/" + repository + ":" + tag] *)
Definition reconstruct (img : ImageInfo) : str :=
  registry img ++ $"/" ++ repository img ++ $":" ++ tag img.

(** The first segment of a reference reads as a registry. *)
Definition has_registry (ref : str) : bool :=
  match split $"/" ref with
  | p0 :: _ => contains $"." p0 || contains $":" p0
  | [] => false
  end.

(** The final segment of a reference carries a tag. *)
Definition has_tag (ref : str) : bool :=
  match last (split $"/" ref) with
  | Ok last_part => contains $":" last_part
  | Raise _ => false
  end.

Definition has_placeholder (s : str) : bool :=
  contains $"{{" s || contains $"}}" s.

(** Following the specification: the final path segment of a
    reference is what follows its last slash. *)
Definition final_path_segment (ref : str) : str :=
  match rpartition "/" ref with
  | Some (_, segment) => segment
  | None => ref
  end.

(** Following the specification: the tag of a segment is what follows
    its last colon, or the default. *)
Definition segment_tag (segment : str) : str :=
  match rpartition ":" segment with
  | Some (_, tag) => tag
  | None => $"latest"
  end.

(** Following the specification: the segment with its tag stripped. *)
Definition segment_name (segment : str) : str :=
  match rpartition ":" segment with
  | Some (name, _) => name
  | None => segment
  end.

(** Following the specification: target host, target project, final
    segment and tag of the original reference. *)
Definition relocation_target (host project original_ref : str) : str :=
  host ++ $"/" ++ project ++ $"/"
  ++ segment_name (final_path_segment original_ref) ++ $":"
  ++ segment_tag (final_path_segment original_ref).

(** The last image of a list that has a given fullReference. *)
Definition last_with_ref (ref : str) (images : list ImageInfo)
  : option ImageInfo :=
  find (fun img => eqb (full_reference img) ref) (rev images).

(** A dictionary of images keyed by their own fullReference, no key
    twice. *)
Definition keyed_by_ref (d : dict ImageInfo) : Prop :=
  NoDup (map fst d) /\ Forall (fun kv => full_reference (snd kv) = fst kv) d.

Definition add_image (unique : dict ImageInfo) (img : ImageInfo) :=
  dict_set unique (full_reference img) img.

(** A [Chart.yaml] with a name, a version, the declared dependencies
    and an [images] annotation, a string when there are images. *)
Definition sample_chart_yaml (chart_name : String.string) (deps images : list str)
  : ChartYaml :=
  mkChartYaml (Some (lit chart_name)) (Some $"1.0.0")
              (Some (YList (map (fun d => YDict [(KStr $"name", YStr d)]) deps)))
              (Some (YDict [(KStr $"images",
                             YStr (flat_map (fun ref => $"- image: " ++ ref) images))])).
Arguments sample_chart_yaml chart_name%_string deps images.

Definition image_entry (ref : String.string) : yaml :=
  YDict [(KStr $"image", YStr (lit ref))].
Arguments image_entry ref%_string.

(** A chart directory whose files load: the [images] annotation loads
    to one entry per declared image, helm updates the dependencies. *)
Definition sample_dir (path : str) (chart_name : String.string)
  (deps images : list str) (rendered : res (list yaml)) (values : list yaml)
  (templates : option (list (list str))) (charts : list ChartDir) : ChartDir :=
  mkChartDir path
             (Some (Ok (Some (sample_chart_yaml chart_name deps images))))
             (Ok (YList (map (fun ref => YDict [(KStr $"image", YStr ref)]) images)))
             (Raise YAMLError)
             (Ok tt)
             rendered
             (map Ok values)
             (option_map (map Ok) templates)
             charts.
Arguments sample_dir path chart_name%_string deps images rendered values
  templates charts.

(** A chart that does not render: one template line, one value. *)
Definition unrendered_chart : ChartDir :=
  sample_dir $"/charts/app" "app" [] []
             (Raise CalledProcessError)
             [image_entry "b/values:1"]
             (Some [[$"a/fallback:1"]])
             [].

(** A root with two dependencies; each node names two images, one of
    them shared with a neighbour. *)
Definition dependency_one : ChartDir :=
  sample_dir $"/tmp/one" "one" [] []
             (Ok [YDict [(KStr $"spec",
                          YList [image_entry "a/x:1"; image_entry "b/y:2"])]])
             [] None [].

Definition dependency_two : ChartDir :=
  sample_dir $"/tmp/two" "two" [] []
             (Raise CalledProcessError)
             [YDict [(KStr $"server", image_entry "b/y:2");
                     (KStr $"sidecar", YDict [(KStr $"Image", YStr $"c/z:3")])]]
             None [].

(** An archive that unpacks to a directory without [Chart.yaml]. *)
Definition broken_dependency : ChartDir :=
  mkChartDir $"/tmp/broken" None (Raise YAMLError) (Raise YAMLError) (Ok tt)
             (Ok []) [] None [].

Definition root_chart : ChartDir :=
  sample_dir $"/charts/root" "root" [$"one"; $"two"; $"broken"]
             [$"a/x:1"; $"r.io/w:4"; $"a/x:1"]
             (Ok [])
             [image_entry "a/x:1"]
             None
             [dependency_one; broken_dependency; dependency_two].

(** Following the specification: declared metadata, rendered
    manifests, raw configuration and then the textual fallback, which
    runs when rendering fails. *)
Definition claimed_candidate_images (chart_path : ChartDir)
  (chart_name : str) : res (list ImageInfo) :=
  declared <- _parse_chart_annotations chart_path chart_name ;;
  rendered <- match cd_helm_template chart_path with
              | Ok documents => scan_rendered documents chart_name
              | Raise CalledProcessError => Ok []
              | Raise e => Raise e
              end ;;
  raw <- _parse_values_for_images chart_path chart_name ;;
  let fallback := match cd_helm_template chart_path with
                  | Raise CalledProcessError =>
                      _parse_templates_manually chart_path chart_name
                  | _ => []
                  end in
  Ok (declared ++ rendered ++ raw ++ fallback).

Definition refs_of (r : res (list ImageInfo)) : res (list String.string) :=
  match r with
  | Ok images =>
      Ok (map (fun img => String.string_of_list_ascii (full_reference img)) images)
  | Raise e => Raise e
  end.

Definition root_yaml : ChartYaml :=
  sample_chart_yaml "root" [$"one"; $"two"; $"broken"]
                    [$"a/x:1"; $"r.io/w:4"; $"a/x:1"].

Definition root_candidates : list ImageInfo :=
  match candidate_images root_chart $"root" with
  | Ok images => images
  | Raise _ => []
  end.

Definition root_info : ChartInfo :=
  match analyze_chart root_chart with
  | Ok info => info
  | Raise _ => mkChartInfo [] [] [] [] []
  end.

(** A runtime that finds every image but [r.io/w:4], and whose login
    answers as told. *)
Definition sample_client (login_ok : bool) : DockerClient :=
  {| images_pull := fun ref =>
       if eqb ref $"r.io/w:4" then Raise ImageNotFound
       else Ok (mkDockerImage ($"sha256:" ++ ref) [$"layers of "; ref] None);
     login := fun _ _ _ => if login_ok then Ok tt else Raise APIError;
     images_load := fun content => Ok [mkDockerImage content [] None];
     image_tag := fun _ _ => Ok tt;
     images_push := fun _ => Ok tt;
     images_remove := fun _ => Ok tt |}.

Definition sample_helm : Helm :=
  {| helm_package := fun _ => Ok [$"root-1.0.0.tgz"];
     helm_push := fun _ _ => Ok tt |}.

Definition sample_tree : ChartTree :=
  mkChartTree (Some $"image: a/x:1") None
              (Some [($"templates/deployment.yaml", $"image: r.io/w:4 # r.io/w:4");
                     ($"templates/NOTES.txt", $"uses a/x:1")])
              [($"Chart.yaml", $"name: root")].

Definition unpullable_image : ImageInfo :=
  mkImageInfo $"w" $"4" $"r.io" $"w" $"r.io/w:4" $"root" None None.

Definition sample_bundled : Bundled :=
  create_bundle (Some (sample_client true)) $"2024-01-01T00:00:00+00:00"
                sample_tree root_info $"out" true.

(** Two references with one archive name, and a runtime that does not
    find the first. *)
Definition collision_failed : ImageInfo :=
  mkImageInfo $"c" $"1" $"docker.io" $"a/b/c" $"a/b/c:1" $"app" None None.

Definition collision_pulled : ImageInfo :=
  mkImageInfo $"b_c" $"1" $"docker.io" $"a/b_c" $"a/b_c:1" $"app" None None.

Definition collision_chart : ChartInfo :=
  mkChartInfo $"app" $"1.0.0" $"/charts/app" []
              [collision_failed; collision_pulled].

Definition collision_client : DockerClient :=
  {| images_pull := fun ref =>
       if eqb ref $"a/b/c:1" then Raise ImageNotFound
       else Ok (mkDockerImage ($"sha256:" ++ ref) [$"layers of "; ref] None);
     login := fun _ _ _ => Ok tt;
     images_load := fun content => Ok [mkDockerImage content [] None];
     image_tag := fun _ _ => Ok tt;
     images_push := fun _ => Ok tt;
     images_remove := fun _ => Ok tt |}.

Definition add_mapping (self : HelmPackImporter) (target_project : str)
  (image_mapping : dict str) (image_info : ImageInfo) : dict str :=
  dict_set image_mapping (full_reference image_info)
           (relocation_target (harbor_host self) target_project
                              (full_reference image_info)).

Definition sample_importer (login_ok : bool) : HelmPackImporter :=
  new_importer $"https://harbor.example.com/" $"admin" $"secret" false
               (Some (sample_client login_ok)) sample_helm.

Definition sample_manifest : Manifest :=
  match bundle_yaml (bundle sample_bundled) with
  | Some manifest => manifest
  | None => mkManifest [] [] (mkBundleMetadata [] [] [] [] [] 0 0) root_info []
  end.

Definition sample_files : dict str :=
  match images_dir (bundle sample_bundled) with
  | Some files => files
  | None => []
  end.

Definition parsed_images (chart_name : String.string) (refs : list str)
  : list ImageInfo :=
  flat_map (fun ref =>
              match _parse_image_reference ref (lit chart_name) with
              | Ok (Some img) => [img]
              | _ => []
              end) refs.
Arguments parsed_images chart_name%_string refs.

(* ===================================================================== *)
(** ** HelmChartAnalyzer: chart sources and temporary directories *)
(* ===================================================================== *)

(** What the analyzer asks of the file system and of helm when it
    prepares a chart: whether a path is a directory, the name of the
    n-th temporary directory, and the directories found in the
    destination after [helm pull --untar] or after the extraction of an
    archive, each of which may raise. *)
Record Materializer : Type := mkMaterializer {
  isdir : str -> bool;
  mkdtemp : nat -> str;
  helm_pull : str -> str -> res (list str);
  extractall : str -> str -> res (list str)
}.

(** The analyzer's [temp_dirs], with the number of temporary
    directories made so far. *)
Record AnalyzerState : Type := mkAnalyzerState {
  temp_dirs : list str;
  made : nat
}.

(** [tempfile.mkdtemp] followed by [self.temp_dirs.append(temp_dir)]. *)
Definition track_temp_dir (env : Materializer) (st : AnalyzerState)
  : str * AnalyzerState :=
  let temp_dir := mkdtemp env (made st) in
  (temp_dir, mkAnalyzerState (temp_dirs st ++ [temp_dir]) (S (made st))).

(** The end of [_download_chart] and of [_extract_chart_archive]: the
    first directory found, or [ValueError] when there is none. *)
Definition first_chart_dir (temp_dir : str) (chart_dirs : list str)
  (msg : str) : res str :=
  match chart_dirs with
  | [] => Raise (ValueError msg)
  | d :: _ => Ok (path_join temp_dir d)
  end.

(** [HelmChartAnalyzer._download_chart] *)
Definition _download_chart (env : Materializer) (st : AnalyzerState)
  (chart_url : str) : AnalyzerState * res str :=
  let '(temp_dir, st) := track_temp_dir env st in
  (st,
   chart_dirs <- helm_pull env chart_url temp_dir ;;
   first_chart_dir temp_dir chart_dirs
                   $"No chart directory found after extraction").

(** [HelmChartAnalyzer._extract_chart_archive] *)
Definition _extract_chart_archive (env : Materializer) (st : AnalyzerState)
  (archive_path : str) : AnalyzerState * res str :=
  let '(temp_dir, st) := track_temp_dir env st in
  (st,
   chart_dirs <- extractall env archive_path temp_dir ;;
   first_chart_dir temp_dir chart_dirs $"No chart directory found in archive").

(** [HelmChartAnalyzer._prepare_chart] *)
Definition _prepare_chart (env : Materializer) (st : AnalyzerState)
  (chart_path_or_url : str) : AnalyzerState * res str :=
  if startswith $"http://" chart_path_or_url
     || startswith $"https://" chart_path_or_url
     || startswith $"oci://" chart_path_or_url
  then _download_chart env st chart_path_or_url
  else if isdir env chart_path_or_url then (st, Ok chart_path_or_url)
  else if endswith $".tgz" chart_path_or_url
  then _extract_chart_archive env st chart_path_or_url
  else (st, Raise (ValueError ($"Unsupported chart source: "
                               ++ chart_path_or_url))).

(** [path] is the directory [d] or lies below it. *)
Definition under (d path : str) : bool :=
  eqb path d || startswith (d ++ $"/") path.

(** [os.path.exists(d)] for a directory, the file system being given
    by the paths of its entries: a directory exists when an entry is
    it or lies below it. *)
Definition path_exists (d : str) (entries : list str) : bool :=
  existsb (under d) entries.

(** [shutil.rmtree(d)] when it returns: the directory goes, with
    everything below it. *)
Definition rmtree (d : str) (entries : list str) : list str :=
  filter (fun path => negb (under d path)) entries.

(** The loop of [__exit__]; [removal] is the answer of
    [shutil.rmtree], whose exception leaves the method. *)
Fixpoint exit_loop (removal : str -> res unit) (dirs entries : list str)
  : res (list str) :=
  match dirs with
  | [] => Ok entries
  | temp_dir :: rest =>
      if path_exists temp_dir entries
      then _ <- removal temp_dir ;;
           exit_loop removal rest (rmtree temp_dir entries)
      else exit_loop removal rest entries
  end.

(** [HelmChartAnalyzer.__exit__]: the entries that exist when it has
    returned. *)
Definition __exit__ (removal : str -> res unit) (st : AnalyzerState)
  (entries : list str) : res (list str) :=
  exit_loop removal (temp_dirs st) entries.

(* ===================================================================== *)
(** ** The analyze command: images by chart *)
(* ===================================================================== *)

(** [d.setdefault]-like step of the loop of [analyze]:
    [if src not in by_chart: by_chart[src] = []] and then
    [by_chart[src].append(img)]. *)
Definition group_one (by_chart : dict (list ImageInfo)) (img : ImageInfo)
  : dict (list ImageInfo) :=
  match dict_get by_chart (chart_source img) with
  | None => dict_set by_chart (chart_source img) [img]
  | Some images => dict_set by_chart (chart_source img) (images ++ [img])
  end.

(** The grouping the [analyze] command prints: [by_chart] after its
    loop over [chart_info.images]. *)
Definition group_by_chart (images : list ImageInfo)
  : dict (list ImageInfo) :=
  fold_left group_one images [].

(* ===================================================================== *)
(** ** Definitions of the further statements *)
(* ===================================================================== *)

(** The images a scanner keeps of a list of raw strings: those the
    parser accepts, in order. *)
Definition accepted (chart_name : str) (refs : list str) : list ImageInfo :=
  flat_map (fun ref =>
              match _parse_image_reference ref chart_name with
              | Ok (Some img) => [img]
              | _ => []
              end) refs.

(** The strings the loop of an annotation reads: those before the
    first value that is true and not a string, on which
    [_parse_image_reference] raises. *)
Fixpoint strings_before_raise (values : list yaml) : list str :=
  match values with
  | [] => []
  | YStr s :: rest => s :: strings_before_raise rest
  | v :: rest => if truthy v then [] else strings_before_raise rest
  end.

(** The image strings read of one annotation. *)
Definition annotation_strings (loaded : res yaml) : list str :=
  match loaded with
  | Ok image_list =>
      match image_values image_list with
      | Ok values => strings_before_raise values
      | Raise _ => []
      end
  | Raise _ => []
  end.

(** The image strings read of the two annotations, in the order of
    the scanner. *)
Definition declared_strings (chart_path : ChartDir)
  (annotations : list (ykey * yaml)) : list str :=
  match ylookup annotations $"images" with
  | Some images_annotation =>
      if truthy images_annotation
      then annotation_strings
             (match images_annotation with
              | YStr _ => cd_load_images chart_path
              | _ => Ok images_annotation
              end)
      else []
  | None => []
  end
  ++ match ylookup annotations $"artifacthub.io/images" with
     | Some artifacthub_images =>
         if truthy artifacthub_images
         then annotation_strings
                (match artifacthub_images with
                 | YStr _ | YOpaque _ => cd_load_artifacthub chart_path
                 | _ => Raise AttributeError
                 end)
         else []
     | None => []
     end.

(** The tokens of the template files that could be read. *)
Definition template_strings (chart_path : ChartDir) : list str :=
  match cd_templates chart_path with
  | Some files =>
      flat_map (fun file => match file with
                            | Ok matches => matches
                            | Raise _ => []
                            end) files
  | None => []
  end.

(** A chart directory with other archives under [charts/]. *)
Definition with_charts (chart_path : ChartDir) (charts : list ChartDir)
  : ChartDir :=
  mkChartDir (cd_path chart_path) (cd_chart_yaml chart_path)
             (cd_load_images chart_path) (cd_load_artifacthub chart_path)
             (cd_dependency_update chart_path) (cd_helm_template chart_path)
             (cd_values chart_path) (cd_templates chart_path) charts.

(** A mapping or a sequence. *)
Definition is_container (y : yaml) : bool :=
  match y with
  | YDict _ | YList _ => true
  | _ => false
  end.

(** No key of a mapping of the document is one without [lower()]. *)
Fixpoint keys_have_lower (y : yaml) : bool :=
  match y with
  | YDict entries =>
      (fix all (es : list (ykey * yaml)) : bool :=
         match es with
         | [] => true
         | (key, value) :: es' =>
             match key with KOther => false | _ => true end
             && keys_have_lower value && all es'
         end) entries
  | YList items =>
      (fix all (l : list yaml) : bool :=
         match l with
         | [] => true
         | item :: l' => keys_have_lower item && all l'
         end) items
  | _ => true
  end.

(** The strings a document holds under a key that reads [image] in any
    letter case, at any depth of mappings and sequences; strings that
    are items of a sequence are not among them. *)
Inductive image_string : yaml -> str -> Prop :=
| image_here entries key s :
    In (KStr key, YStr s) entries -> lower key = $"image" ->
    image_string (YDict entries) s
| image_below_key entries key value s :
    In (key, value) entries -> is_container value = true ->
    image_string value s ->
    image_string (YDict entries) s
| image_below_item items item s :
    In item items -> is_container item = true ->
    image_string item s ->
    image_string (YList items) s.

(** The keys in the order of their first occurrence; [seen] holds the
    keys met so far. *)
Fixpoint new_keys (seen l : list str) : list str :=
  match l with
  | [] => []
  | x :: l' =>
      if existsb (eqb x) seen then new_keys seen l'
      else x :: new_keys (x :: seen) l'
  end.

Definition first_occurrences (l : list str) : list str := new_keys [] l.

(** The nodes below a node of the tree, in depth-first order. *)
Fixpoint descendants (info : ChartInfo) : list ChartInfo :=
  match info with
  | mkChartInfo _ _ _ deps _ =>
      (fix below (l : list ChartInfo) : list ChartInfo :=
         match l with
         | [] => []
         | d :: l' => d :: descendants d ++ below l'
         end) deps
  end.

(** [a] occurs in [b] as a run of consecutive elements. *)
Definition infix_of {A : Type} (a b : list A) : Prop :=
  exists pre post, b = pre ++ a ++ post.

(** The character an archive name has for a character of the
    reference. *)
Definition sanitize (c : ascii) : ascii :=
  if Ascii.eqb c "/" || Ascii.eqb c ":" then "_"%char else c.

Definition is_docker_action (a : Action) : bool :=
  match a with
  | HelmPackage _ | HelmPush _ _ => false
  | _ => true
  end.

(* ===================================================================== *)
(** ** Further definitions of the statements, and sample data *)
(* ===================================================================== *)

(** The images found below the items of a sequence and below the
    entries of a mapping, as the two inner loops of the walk find
    them. *)
Definition found_in_items (chart_name : str) (items : list yaml)
  (img : ImageInfo) : Prop :=
  exists s item,
    In item items /\ is_container item = true /\ image_string item s
    /\ _parse_image_reference s chart_name = Ok (Some img).

Definition found_in_entries (chart_name : str) (entries : list (ykey * yaml))
  (img : ImageInfo) : Prop :=
  (exists key s,
     In (KStr key, YStr s) entries /\ lower key = $"image"
     /\ _parse_image_reference s chart_name = Ok (Some img))
  \/ (exists key value s,
        In (key, value) entries /\ is_container value = true
        /\ image_string value s
        /\ _parse_image_reference s chart_name = Ok (Some img)).

(** A chart with a dependency that has a dependency of its own. *)
Definition middle_chart : ChartDir :=
  sample_dir $"/tmp/middle" "middle" [$"two"] []
             (Ok [image_entry "m/mid:1"]) [] None [dependency_two].

(** A chart whose only dependency is [middle_chart]. *)
Definition top_chart : ChartDir :=
  sample_dir $"/charts/top" "top" [$"middle"] []
             (Ok [image_entry "t/top:1"]) [] None [middle_chart].

(** The analysis of a chart that can be analysed. *)
Definition info_of (chart_path : ChartDir) : ChartInfo :=
  match analyze_chart chart_path with
  | Ok info => info
  | Raise _ => mkChartInfo [] [] [] [] []
  end.

(** An image in memory after its turn of the loop. *)
Definition after_pull (client : DockerClient) (image : ImageInfo) : ImageInfo :=
  match images_pull client (full_reference image) with
  | Ok pulled =>
      match save_error pulled with
      | None => set_digest image (image_id pulled)
      | Some _ => image
      end
  | Raise _ => image
  end.

(** An image the sample runtime pulls. *)
Definition pullable_image : ImageInfo :=
  mkImageInfo $"x" $"1" $"docker.io" $"a/x" $"a/x:1" $"root" None None.

(** What one turn of the image loop may ask of the runtime for an
    image of the manifest. *)
Definition image_action (self : HelmPackImporter) (target_project : str)
  (files : dict str) (original_ref : str) (a : Action) : Prop :=
  dict_get files (image_filename original_ref) <> None
  /\ match a with
     | DockerLoad f => f = image_filename original_ref
     | DockerTag _ r | DockerPush r =>
         r = relocation_target (harbor_host self) target_project original_ref
     | DockerRemove _ => True
     | _ => False
     end.

(** The import of the sample bundle into project library. *)
Definition sample_import : World :=
  match import_bundle (sample_importer true) [bundle sample_bundled]
                      $"library" with
  | Ok w => w
  | Raise _ => mkWorld [] [] None
  end.

(** An image of the sample manifest with an archive file. *)
Definition pushed_image : ImageInfo :=
  mkImageInfo $"z" $"3" $"docker.io" $"c/z" $"c/z:3" $"two" None None.

(** [file.endswith(('.yaml', '.yml'))] *)
Definition is_yaml_path (file_path : str) : bool :=
  endswith $".yaml" file_path || endswith $".yml" file_path.

(** The files relocation reads: the two values files and the templates
    whose name ends in .yaml or .yml, with their content. *)
Definition relocated_files (chart_dir : ChartTree) : list (str * str) :=
  match values_yaml chart_dir with
  | Some content => [($"values.yaml", content)]
  | None => []
  end
  ++ match values_yml chart_dir with
     | Some content => [($"values.yml", content)]
     | None => []
     end
  ++ match templates chart_dir with
     | Some files => filter (fun '(file_path, _) => is_yaml_path file_path) files
     | None => []
     end.

(** [chart_path_or_url.startswith(('http://', 'https://', 'oci://'))] *)
Definition is_url (chart_path_or_url : str) : bool :=
  startswith $"http://" chart_path_or_url
  || startswith $"https://" chart_path_or_url
  || startswith $"oci://" chart_path_or_url.

(** The images of a list that name a chart as their source. *)
Definition from_chart (chart_name : str) (images : list ImageInfo)
  : list ImageInfo :=
  filter (fun img => eqb (chart_source img) chart_name) images.

(** The outcome of a part of the walk: it returns the images that
    satisfy [found] when [returns] holds, and raises otherwise. *)
Definition outcome (returns : bool) (r : res (list ImageInfo))
  (found : ImageInfo -> Prop) : Prop :=
  if returns
  then exists l, r = Ok l /\ forall img, In img l <-> found img
  else r = Raise AttributeError.

(* ===================================================================== *)
(** * Properties *)
(* ===================================================================== *)

(** ** Strings *)

Section StringFacts.

Implicit Types (s t sub : str) (c x : ascii).

Lemma eqb_spec s t : reflect (s = t) (eqb s t).
Proof.
  revert t; induction s as [|x s IH]; intros [|y t]; simpl;
    try (constructor; congruence).
  destruct (Ascii.eqb_spec x y) as [->|Hxy]; simpl.
  - destruct (IH t) as [->|Hst]; constructor; congruence.
  - constructor; congruence.
Qed.

Lemma eqb_refl s : eqb s s = true.
Proof. destruct (eqb_spec s s); congruence. Qed.

Lemma eqb_eq s t : eqb s t = true <-> s = t.
Proof. destruct (eqb_spec s t); split; congruence. Qed.

Lemma eqb_neq s t : eqb s t = false <-> s <> t.
Proof. destruct (eqb_spec s t); split; congruence. Qed.

Lemma startswith_iff sub s :
  startswith sub s = true <-> exists b, s = sub ++ b.
Proof.
  revert s; induction sub as [|x sub IH]; intros s; simpl.
  - split; eauto.
  - destruct s as [|y s].
    + split; [discriminate | intros [b Hb]; discriminate].
    + rewrite andb_true_iff, IH. split.
      * intros [Hxy [b ->]]. apply Ascii.eqb_eq in Hxy. subst. now exists b.
      * intros [b Hb]. injection Hb as -> ->. split; [apply Ascii.eqb_refl | eauto].
Qed.

Lemma contains_iff sub s :
  contains sub s = true <-> exists a b, s = a ++ sub ++ b.
Proof.
  induction s as [|y s IH]; simpl.
  - rewrite orb_false_r, startswith_iff. split.
    + intros [b Hb]. now exists [], b.
    + intros [a [b Hab]]. destruct a; [now exists b | discriminate].
  - rewrite orb_true_iff, startswith_iff, IH. split.
    + intros [[b Hb] | [a [b Hab]]].
      * now exists [], b.
      * exists (y :: a), b. now rewrite Hab.
    + intros [[|z a] [b Hab]].
      * left. now exists b.
      * right. injection Hab as _ ->. now exists a, b.
Qed.

Lemma contains_rev sub s : contains (rev sub) (rev s) = contains sub s.
Proof.
  apply eq_iff_eq_true. rewrite !contains_iff. split.
  - intros [a [b H]]. exists (rev b), (rev a).
    apply (f_equal (@rev ascii)) in H.
    rewrite rev_involutive, !rev_app_distr, rev_involutive in H.
    now rewrite H, app_assoc.
  - intros [a [b ->]]. exists (rev b), (rev a).
    now rewrite !rev_app_distr, app_assoc.
Qed.

(** Membership of one character. *)
Lemma contains_char c s : contains [c] s = true <-> In c s.
Proof.
  rewrite contains_iff. split.
  - intros [a [b ->]]. apply in_or_app. right. now left.
  - intros H. apply in_split in H as [a [b ->]]. now exists a, b.
Qed.

Lemma contains_char_false c s : contains [c] s = false <-> ~ In c s.
Proof. rewrite <- contains_char. destruct (contains [c] s); split; congruence. Qed.

(** *** strip *)

Lemma lstrip_by_suffix p s :
  exists t, s = t ++ lstrip_by p s /\ forallb p t = true.
Proof.
  induction s as [|x s [t [Ht Hp]]]; simpl.
  - now exists [].
  - destruct (p x) eqn:Hx.
    + exists (x :: t). simpl. now rewrite Hx, <- Ht.
    + now exists [].
Qed.

Lemma rstrip_by_prefix p s :
  exists t, s = rstrip_by p s ++ t /\ forallb p t = true.
Proof.
  unfold rstrip_by. destruct (lstrip_by_suffix p (rev s)) as [t [Ht Hp]].
  exists (rev t). split.
  - rewrite <- rev_app_distr, <- Ht. now rewrite rev_involutive.
  - rewrite forallb_forall in *. intros y Hy. apply Hp. now apply in_rev.
Qed.

(** What [strip] keeps is a contiguous piece of the string. *)
Lemma strip_by_infix p s :
  exists a b, s = a ++ strip_by p s ++ b
              /\ forallb p a = true /\ forallb p b = true.
Proof.
  unfold strip_by.
  destruct (lstrip_by_suffix p s) as [a [Ha Hpa]].
  destruct (rstrip_by_prefix p (lstrip_by p s)) as [b [Hb Hpb]].
  exists a, b. now rewrite <- Hb.
Qed.

Lemma lstrip_by_contains p x sub s :
  p x = false ->
  contains (x :: sub) (lstrip_by p s) = contains (x :: sub) s.
Proof.
  intros Hx. induction s as [|y s IH]; [reflexivity|].
  cbn [lstrip_by]. destruct (p y) eqn:Hy; [|reflexivity].
  rewrite IH. cbn [contains startswith].
  destruct (Ascii.eqb_spec x y) as [->|_]; [congruence | reflexivity].
Qed.

Lemma rstrip_by_contains p x sub s :
  p x = false ->
  contains (sub ++ [x]) (rstrip_by p s) = contains (sub ++ [x]) s.
Proof.
  intros Hx. unfold rstrip_by.
  rewrite <- (contains_rev (sub ++ [x]) s).
  rewrite <- (rev_involutive (sub ++ [x])) at 1.
  rewrite contains_rev, rev_app_distr. simpl.
  now apply lstrip_by_contains.
Qed.

(** A substring whose first and last characters are not stripped
    survives [strip]. *)
Lemma strip_by_contains p x sub y s :
  p x = false -> p y = false ->
  contains (x :: sub ++ [y]) (strip_by p s) = contains (x :: sub ++ [y]) s.
Proof.
  intros Hx Hy. unfold strip_by. rewrite app_comm_cons.
  rewrite (rstrip_by_contains p y (x :: sub) (lstrip_by p s) Hy).
  now apply lstrip_by_contains.
Qed.

Lemma strip_by_contains_char p x s :
  p x = false -> contains [x] (strip_by p s) = contains [x] s.
Proof.
  intros Hx. unfold strip_by.
  rewrite (rstrip_by_contains p x [] (lstrip_by p s) Hx : contains [x] _ = _).
  now apply lstrip_by_contains.
Qed.

Lemma strip_by_In p x s : In x (strip_by p s) -> In x s.
Proof.
  destruct (strip_by_infix p s) as [a [b [H _]]]. intros Hin.
  rewrite H. apply in_or_app. right. apply in_or_app. now left.
Qed.

(** *** split, join *)

Lemma split_go_nonempty sep k s : split_go sep k s <> [].
Proof.
  revert k; induction s as [|x s IH]; intros k; simpl; [discriminate|].
  destruct k; [|apply IH].
  destruct (startswith sep (x :: s)); [discriminate|].
  destruct (split_go sep 0 s); discriminate.
Qed.

Lemma split_nonempty sep s : exists p0 rest, split sep s = p0 :: rest.
Proof.
  unfold split. destruct (split_go sep 0 s) eqn:E.
  - now apply split_go_nonempty in E.
  - eauto.
Qed.

(** The equations of [split] for a one-character separator. *)
Lemma split_char_nil c : split [c] [] = [[]].
Proof. reflexivity. Qed.

Lemma split_char_cons c x s :
  split [c] (x :: s) =
  if Ascii.eqb c x then [] :: split [c] s
  else match split [c] s with
       | seg :: rest => (x :: seg) :: rest
       | [] => [[x]]
       end.
Proof.
  unfold split. cbn [split_go startswith List.length Nat.sub].
  now rewrite andb_true_r.
Qed.

Lemma join_cons sep a l : l <> [] -> join sep (a :: l) = a ++ sep ++ join sep l.
Proof. destruct l; [congruence | reflexivity]. Qed.

Lemma join_split_char c s : join [c] (split [c] s) = s.
Proof.
  induction s as [|x s IH]; [reflexivity|].
  rewrite split_char_cons.
  destruct (split_nonempty [c] s) as [p0 [rest E]]. rewrite E in *.
  destruct (Ascii.eqb_spec c x) as [->|_].
  - rewrite join_cons by discriminate. now rewrite IH.
  - destruct rest as [|r rest].
    + simpl in *. now rewrite IH.
    + rewrite join_cons by discriminate.
      rewrite join_cons in IH by discriminate.
      now rewrite <- IH.
Qed.

Lemma split_char_no_sep c s seg : In seg (split [c] s) -> ~ In c seg.
Proof.
  revert seg; induction s as [|x s IH]; intros seg.
  - simpl. intros [<-|[]]. tauto.
  - rewrite split_char_cons.
    destruct (split_nonempty [c] s) as [p0 [rest E]]. rewrite E in *.
    destruct (Ascii.eqb_spec c x) as [->|Hcx].
    + intros [<-|H]; [tauto | now apply IH].
    + intros [<-|H].
      * intros [Heq|Hin]; [congruence|]. apply (IH p0); [now left | exact Hin].
      * apply IH. now right.
Qed.

Lemma split_char_single c s : ~ In c s -> split [c] s = [s].
Proof.
  induction s as [|x s IH]; intros Hc; [reflexivity|].
  rewrite split_char_cons.
  destruct (Ascii.eqb_spec c x) as [->|_]; [exfalso; apply Hc; now left|].
  rewrite IH; [reflexivity|]. intros H. apply Hc. now right.
Qed.

Lemma join_snoc_app sep init a b :
  join sep (init ++ [a]) ++ b = join sep (init ++ [a ++ b]).
Proof.
  induction init as [|i init IH]; [reflexivity|].
  rewrite <- !app_comm_cons.
  rewrite !join_cons by (destruct init; discriminate).
  now rewrite <- IH, <- !app_assoc.
Qed.

(** *** rsplit *)

Lemma rpartition_sound c s a b :
  rpartition c s = Some (a, b) -> s = a ++ c :: b /\ ~ In c b.
Proof.
  revert a; induction s as [|x s IH]; intros a; simpl; [discriminate|].
  destruct (rpartition c s) as [[a' b']|] eqn:E.
  - intros [= <- <-]. destruct (IH a' eq_refl) as [-> Hb]. now split.
  - destruct (Ascii.eqb_spec x c) as [->|_]; [|discriminate].
    intros [= <- <-]. split; [reflexivity|].
    clear IH. revert E. induction s as [|y s IHs]; simpl; [tauto|].
    destruct (rpartition c s) as [[? ?]|]; [discriminate|].
    destruct (Ascii.eqb_spec y c) as [->|Hyc]; [discriminate|].
    intros _ [H|H]; [congruence | now apply IHs].
Qed.

Lemma rpartition_None c s : rpartition c s = None <-> ~ In c s.
Proof.
  induction s as [|y s IH]; simpl; [tauto|].
  destruct (rpartition c s) as [[a b]|] eqn:E.
  - split; [discriminate|]. intros H. exfalso. apply H. right.
    apply rpartition_sound in E as [-> _]. apply in_or_app. right. now left.
  - destruct (Ascii.eqb_spec y c) as [->|Hyc].
    + split; [discriminate|]. intros H. exfalso. apply H. now left.
    + split; [|reflexivity]. intros _ [H|H]; [congruence|].
      now apply (proj1 IH).
Qed.

Lemma rpartition_complete c a b :
  ~ In c b -> rpartition c (a ++ c :: b) = Some (a, b).
Proof.
  intros Hb. induction a as [|y a IH]; simpl.
  - rewrite (proj2 (rpartition_None c b) Hb). now rewrite Ascii.eqb_refl.
  - now rewrite IH.
Qed.

Lemma rsplit1_contains c s :
  contains [c] s = true ->
  exists a b, rsplit1 c s = [a; b] /\ s = a ++ c :: b /\ ~ In c b.
Proof.
  intros H. unfold rsplit1. destruct (rpartition c s) as [[a b]|] eqn:E.
  - exists a, b. split; [reflexivity|]. now apply rpartition_sound.
  - apply rpartition_None in E. now apply contains_char in H.
Qed.

(** The last element of [s.split(c)] is what follows the last [c]. *)
Lemma split_char_last c s :
  match rpartition c s with
  | Some (_, b) => exists init, init <> [] /\ split [c] s = init ++ [b]
  | None => split [c] s = [s]
  end.
Proof.
  induction s as [|x s IH]; [reflexivity|].
  rewrite split_char_cons. simpl.
  destruct (rpartition c s) as [[a b]|] eqn:E.
  - destruct IH as [init [Hne Hs]]. rewrite Hs.
    destruct (Ascii.eqb c x).
    + exists ([] :: init). split; [discriminate | reflexivity].
    + destruct init as [|i init]; [congruence|].
      exists ((x :: i) :: init). split; [discriminate | reflexivity].
  - rewrite IH. rewrite Ascii.eqb_sym. destruct (Ascii.eqb c x).
    + exists [[]]. split; [discriminate | reflexivity].
    + reflexivity.
Qed.

End StringFacts.

(** ** Indexing *)

Lemma last_snoc {A : Type} (init : list A) (a : A) : last (init ++ [a]) = Ok a.
Proof.
  induction init as [|i init IH]; [reflexivity|].
  simpl. destruct (init ++ [a]) eqn:E; [destruct init; discriminate | exact IH].
Qed.

Lemma set_last_snoc {A : Type} (init : list A) (a v : A) :
  set_last (init ++ [a]) v = Ok (init ++ [v]).
Proof.
  induction init as [|i init IH]; [reflexivity|].
  simpl. destruct (init ++ [a]) eqn:E; [destruct init; discriminate|].
  now rewrite IH.
Qed.

Lemma snoc_cases {A : Type} (l : list A) :
  l = [] \/ exists init a, l = init ++ [a].
Proof.
  destruct l as [|x l]; [now left | right].
  destruct (@exists_last _ (x :: l)) as [init [a E]]; [discriminate | eauto].
Qed.

(** ** The reference parser *)

Lemma isspace_brace_l : isspace "{" = false.
Proof. reflexivity. Qed.

Lemma isspace_brace_r : isspace "}" = false.
Proof. reflexivity. Qed.

(** Cleaning neither removes nor creates a placeholder marker. *)
Lemma clean_reference_open image_ref :
  contains $"{{" (clean_reference image_ref) = contains $"{{" image_ref.
Proof.
  unfold clean_reference, strip_chars, strip.
  rewrite (strip_by_contains _ "{" [] "{" _ eq_refl eq_refl : contains $"{{" _ = _).
  exact (strip_by_contains _ "{" [] "{" _ eq_refl eq_refl).
Qed.

Lemma clean_reference_close image_ref :
  contains $"}}" (clean_reference image_ref) = contains $"}}" image_ref.
Proof.
  unfold clean_reference, strip_chars, strip.
  rewrite (strip_by_contains _ "}" [] "}" _ eq_refl eq_refl : contains $"}}" _ = _).
  exact (strip_by_contains _ "}" [] "}" _ eq_refl eq_refl).
Qed.

(** A character that is neither white space nor a quote is kept. *)
Lemma clean_reference_char c image_ref :
  isspace c = false -> mem c quote_chars = false ->
  contains [c] (clean_reference image_ref) = contains [c] image_ref.
Proof.
  intros Hs Hq. unfold clean_reference, strip_chars, strip.
  rewrite (strip_by_contains_char (fun c => mem c quote_chars) c _ Hq).
  now apply strip_by_contains_char.
Qed.

Lemma clean_reference_In c image_ref :
  In c (clean_reference image_ref) -> In c image_ref.
Proof.
  unfold clean_reference, strip_chars, strip. intros H.
  now apply strip_by_In, strip_by_In in H.
Qed.

Lemma registry_and_parts_total image_ref :
  exists registry repo_parts,
    registry_and_parts image_ref = Ok (registry, repo_parts).
Proof.
  unfold registry_and_parts.
  destruct (split_nonempty $"/" image_ref) as [p0 [rest ->]]. cbn [first bind].
  destruct (contains $"." p0 || contains $":" p0); do 2 eexists; reflexivity.
Qed.

(** The two early returns are one: whatever the first test stops, the
    second would. *)
Lemma parse_first_test image_ref :
  is_empty image_ref || startswith $"{{" image_ref = true ->
  is_empty (clean_reference image_ref)
  || contains $"{{" (clean_reference image_ref)
  || contains $"}}" (clean_reference image_ref) = true.
Proof.
  intros H. apply orb_true_iff in H as [H|H].
  - destruct image_ref; [reflexivity | discriminate].
  - rewrite clean_reference_open.
    assert (Hc : contains $"{{" image_ref = true).
    { destruct image_ref; simpl in *; rewrite H; reflexivity. }
    rewrite Hc. now rewrite orb_true_r.
Qed.

Lemma parse_rejected image_ref chart_source :
  is_empty (clean_reference image_ref)
  || contains $"{{" (clean_reference image_ref)
  || contains $"}}" (clean_reference image_ref) = true ->
  _parse_image_reference image_ref chart_source = Ok None.
Proof.
  intros H. unfold _parse_image_reference.
  destruct (is_empty image_ref || startswith $"{{" image_ref); [reflexivity|].
  now rewrite H.
Qed.

Lemma parse_no_repository image_ref chart_source registry :
  registry_and_parts (clean_reference image_ref) = Ok (registry, []) ->
  _parse_image_reference image_ref chart_source = Ok None.
Proof.
  intros H. unfold _parse_image_reference.
  destruct (is_empty image_ref || startswith $"{{" image_ref); [reflexivity|].
  destruct (_ || _ || _); [reflexivity|].
  now rewrite H.
Qed.

Lemma parse_accepted image_ref chart_source registry init last_part :
  is_empty (clean_reference image_ref)
  || contains $"{{" (clean_reference image_ref)
  || contains $"}}" (clean_reference image_ref) = false ->
  registry_and_parts (clean_reference image_ref)
  = Ok (registry, init ++ [last_part]) ->
  _parse_image_reference image_ref chart_source
  = Ok (Some (parsed (clean_reference image_ref) chart_source registry
                     init last_part)).
Proof.
  intros Hc Hr. unfold _parse_image_reference.
  destruct (is_empty image_ref || startswith $"{{" image_ref) eqn:H1.
  { apply parse_first_test in H1. congruence. }
  rewrite Hc, Hr. cbn [bind].
  assert (Hne : is_empty (init ++ [last_part]) = false)
    by (destruct init; reflexivity).
  rewrite Hne, last_snoc. cbn [bind]. unfold parsed, rsplit1.
  destruct (contains $":" last_part) eqn:Hcolon.
  - destruct (rsplit1_contains ":" last_part Hcolon) as [a [b [_ [E Hb]]]].
    rewrite E, (rpartition_complete ":" a b Hb). cbn [unpack2 bind].
    rewrite set_last_snoc. cbn [bind]. now rewrite last_snoc.
  - assert (Hn : rpartition ":" last_part = None).
    { apply rpartition_None. now apply contains_char_false. }
    rewrite Hn. cbn [bind]. now rewrite last_snoc.
Qed.

(** The repository part list is empty exactly for a single segment that
    reads as a registry. *)
Lemma registry_and_parts_empty image_ref registry :
  registry_and_parts image_ref = Ok (registry, []) <->
  registry = image_ref /\ ~ In "/"%char image_ref
  /\ contains $"." image_ref || contains $":" image_ref = true.
Proof.
  unfold registry_and_parts. split.
  - destruct (split_nonempty $"/" image_ref) as [p0 [rest E]]. rewrite E.
    cbn [first bind tl].
    destruct (contains $"." p0 || contains $":" p0) eqn:Hreg; [|discriminate].
    intros [= <- ->].
    assert (Hj := join_split_char "/" image_ref).
    change [("/")%char] with $"/" in Hj. rewrite E in Hj. simpl in Hj. subst p0.
    repeat split; [|exact Hreg].
    apply (split_char_no_sep "/" image_ref). change [("/")%char] with $"/".
    rewrite E. now left.
  - intros [-> [Hs Hreg]].
    change $"/" with [("/")%char]. rewrite (split_char_single _ _ Hs).
    cbn [first bind tl]. now rewrite Hreg.
Qed.

Lemma clean_reference_placeholder image_ref :
  has_placeholder (clean_reference image_ref) = has_placeholder image_ref.
Proof.
  unfold has_placeholder.
  now rewrite clean_reference_open, clean_reference_close.
Qed.

Lemma parsed_full_reference image_ref chart_name registry init last_part :
  full_reference (parsed image_ref chart_name registry init last_part)
  = image_ref
  /\ chart_source (parsed image_ref chart_name registry init last_part)
     = chart_name.
Proof. unfold parsed. destruct (rpartition ":" last_part) as [[? ?]|]; now split. Qed.

(** Every outcome of the parser, by the tests it makes. *)
Lemma parse_outcome image_ref chart_source :
  let ref := clean_reference image_ref in
  let stopped := is_empty ref || contains $"{{" ref || contains $"}}" ref in
  (stopped = true
   /\ _parse_image_reference image_ref chart_source = Ok None)
  \/ (stopped = false
      /\ exists registry,
           registry_and_parts ref = Ok (registry, [])
           /\ _parse_image_reference image_ref chart_source = Ok None)
  \/ (stopped = false
      /\ exists registry init last_part,
           registry_and_parts ref = Ok (registry, init ++ [last_part])
           /\ _parse_image_reference image_ref chart_source
              = Ok (Some (parsed ref chart_source registry init last_part))).
Proof.
  intros ref stopped. destruct stopped eqn:Hc; unfold stopped in Hc.
  - left. split; [reflexivity | now apply parse_rejected].
  - right. destruct (registry_and_parts_total ref) as [reg [parts Hr]].
    destruct (snoc_cases parts) as [->|[init [lp ->]]].
    + left. split; [reflexivity|]. exists reg. split; [exact Hr|].
      now apply (parse_no_repository _ _ _ Hr).
    + right. split; [reflexivity|]. exists reg, init, lp. split; [exact Hr|].
      now apply parse_accepted.
Qed.

(** C9.  The Reference Parser never raises: on every input it returns,
    and it returns reject exactly when the input is empty after
    trimming, contains one of the two placeholder markers anywhere, or
    leaves an empty list of repository parts once the registry segment
    is taken off; otherwise it returns a parsed reference, whose
    fullReference is the trimmed input. *)
Theorem parse_image_reference_never_raises (image_ref chart_name : str) :
  exists r : option ImageInfo,
    _parse_image_reference image_ref chart_name = Ok r
    /\ (r = None <->
        clean_reference image_ref = []
        \/ contains $"{{" image_ref = true
        \/ contains $"}}" image_ref = true
        \/ exists registry,
             registry_and_parts (clean_reference image_ref) = Ok (registry, []))
    /\ (forall img, r = Some img ->
          full_reference img = clean_reference image_ref
          /\ chart_source img = chart_name).
Proof.
  destruct (parse_outcome image_ref chart_name)
    as [[Hc Hp]|[[Hc [reg [Hr Hp]]]|[Hc [reg [init [lp [Hr Hp]]]]]]];
    rewrite Hp; eexists; (split; [reflexivity|]).
  - split; [|discriminate]. split; [intros _|reflexivity].
    rewrite clean_reference_open, clean_reference_close in Hc.
    apply orb_true_iff in Hc as [Hc|Hc]; [|tauto].
    apply orb_true_iff in Hc as [Hc|Hc]; [|tauto].
    left. destruct (clean_reference image_ref); [reflexivity | discriminate].
  - split; [|discriminate]. split; [intros _|reflexivity].
    right; right; right. now exists reg.
  - split.
    + split; [discriminate|]. intros H. exfalso.
      rewrite clean_reference_open, clean_reference_close in Hc.
      apply orb_false_iff in Hc as [Hc Hc3].
      apply orb_false_iff in Hc as [Hc1 Hc2].
      destruct H as [H|[H|[H|[reg' H]]]]; try congruence.
      * rewrite H in Hc1. discriminate.
      * rewrite Hr in H. injection H as _ H. destruct init; discriminate.
    + intros img [= <-]. apply parsed_full_reference.
Qed.

(** C10.  A non-empty input of a single path segment (no slash) that
    contains a dot or a colon, such as nginx:1.25, is rejected: the
    whole trimmed string is taken as the registry host and the list of
    repository parts is empty. *)
Theorem single_segment_with_dot_or_colon_rejected
  (image_ref chart_source : str) :
  image_ref <> [] ->
  contains $"/" image_ref = false ->
  contains $"." image_ref || contains $":" image_ref = true ->
  _parse_image_reference image_ref chart_source = Ok None
  /\ registry_and_parts (clean_reference image_ref)
     = Ok (clean_reference image_ref, []).
Proof.
  intros _ Hslash Hreg.
  assert (Hr : registry_and_parts (clean_reference image_ref)
               = Ok (clean_reference image_ref, [])).
  { apply registry_and_parts_empty. split; [reflexivity|]. split.
    - intros H. apply clean_reference_In in H.
      apply (contains_char_false "/" image_ref); assumption.
    - change $"." with [("."%char)]. change $":" with [(":"%char)].
      rewrite !clean_reference_char by reflexivity. exact Hreg. }
  split; [|exact Hr]. now apply (parse_no_repository _ _ _ Hr).
Qed.

Lemma single_segment_with_dot_or_colon_rejected_witness :
  ($"nginx:1.25" <> []
   /\ contains $"/" $"nginx:1.25" = false
   /\ contains $"." $"nginx:1.25" || contains $":" $"nginx:1.25" = true)
  /\ (_parse_image_reference $"nginx:1.25" $"web" = Ok None
      /\ registry_and_parts (clean_reference $"nginx:1.25")
         = Ok (clean_reference $"nginx:1.25", [])).
Proof.
  split.
  - split; [discriminate | split; reflexivity].
  - apply (single_segment_with_dot_or_colon_rejected $"nginx:1.25" $"web");
      [discriminate | reflexivity | reflexivity].
Defined.

(** C8, as amended.  For every input without placeholder markers whose
    trimmed form has at least two segments, a first segment that reads
    as a registry and a final segment with a tag, the parser returns a
    reference, and registry + "/" + repository + ":" + tag reproduces
    the trimmed input, which is the reference's fullReference, byte for
    byte; it reproduces the input itself when trimming leaves the input
    as it is. *)
Theorem reconstruct_reproduces_clean_reference
  (image_ref chart_source : str) :
  has_placeholder image_ref = false ->
  contains $"/" (clean_reference image_ref) = true ->
  has_registry (clean_reference image_ref) = true ->
  has_tag (clean_reference image_ref) = true ->
  exists img,
    _parse_image_reference image_ref chart_source = Ok (Some img)
    /\ reconstruct img = clean_reference image_ref
    /\ full_reference img = clean_reference image_ref
    /\ (clean_reference image_ref = image_ref -> reconstruct img = image_ref).
Proof.
  intros Hp Hslash Hreg Htag.
  set (r := clean_reference image_ref) in *.
  assert (Hc : is_empty r || contains $"{{" r || contains $"}}" r = false).
  { rewrite <- clean_reference_placeholder in Hp. fold r in Hp.
    unfold has_placeholder in Hp. rewrite <- orb_assoc, Hp, orb_false_r.
    destruct r; [discriminate | reflexivity]. }
  destruct (split_nonempty $"/" r) as [p0 [rest Hsplit]].
  assert (Hjoin := join_split_char "/" r).
  change [("/")%char] with $"/" in Hjoin. rewrite Hsplit in Hjoin.
  unfold has_registry in Hreg. rewrite Hsplit in Hreg.
  destruct (snoc_cases rest) as [->|[init [lp ->]]].
  { exfalso. simpl in Hjoin. subst p0.
    apply (contains_char "/" r) in Hslash.
    apply (split_char_no_sep "/" r r); [|exact Hslash].
    change [("/")%char] with $"/". rewrite Hsplit. now left. }
  assert (Hr : registry_and_parts r = Ok (p0, init ++ [lp])).
  { unfold registry_and_parts. rewrite Hsplit. cbn [first bind tl].
    now rewrite Hreg. }
  unfold has_tag in Htag. rewrite Hsplit in Htag.
  change (p0 :: init ++ [lp]) with ((p0 :: init) ++ [lp]) in Htag.
  rewrite last_snoc in Htag.
  destruct (rsplit1_contains ":" lp Htag) as [a [b [_ [E Hb]]]].
  exists (parsed r chart_source p0 init lp).
  split; [exact (parse_accepted image_ref chart_source _ _ _ Hc Hr)|].
  assert (Hrec : reconstruct (parsed r chart_source p0 init lp) = r).
  { unfold parsed, reconstruct. rewrite E in *.
    rewrite (rpartition_complete ":" a b Hb). cbn [registry repository tag].
    rewrite <- Hjoin.
    rewrite join_cons by (destruct init; discriminate).
    do 2 f_equal.
    exact (join_snoc_app $"/" init a (":"%char :: b)). }
  split; [exact Hrec|]. split; [apply parsed_full_reference|].
  intros H. rewrite Hrec. exact H.
Qed.

(** The input the textual scanner captures from a template line that
    quotes its image is accepted, and the reconstruction differs from
    it; an input with a templated tag is of the same form and has no
    parse at all. *)
Lemma reconstruct_differs_from_input :
  (has_registry $"r.io/team/app:1.0'" = true
   /\ has_tag $"r.io/team/app:1.0'" = true
   /\ exists img,
        _parse_image_reference $"r.io/team/app:1.0'" $"web" = Ok (Some img)
        /\ reconstruct img = $"r.io/team/app:1.0"
        /\ reconstruct img <> $"r.io/team/app:1.0'")
  /\ (has_registry $"r.io/team/app:{{tag}}" = true
      /\ has_tag $"r.io/team/app:{{tag}}" = true
      /\ _parse_image_reference $"r.io/team/app:{{tag}}" $"web" = Ok None).
Proof.
  split.
  - split; [reflexivity|]. split; [reflexivity|].
    eexists. split; [reflexivity|]. split; [reflexivity | discriminate].
  - split; [reflexivity|]. split; reflexivity.
Qed.

Lemma reconstruct_reproduces_clean_reference_witness :
  (has_placeholder $" r.io:5000/team/app:1.0 " = false
   /\ contains $"/" (clean_reference $" r.io:5000/team/app:1.0 ") = true
   /\ has_registry (clean_reference $" r.io:5000/team/app:1.0 ") = true
   /\ has_tag (clean_reference $" r.io:5000/team/app:1.0 ") = true)
  /\ exists img,
       _parse_image_reference $" r.io:5000/team/app:1.0 " $"web" = Ok (Some img)
       /\ reconstruct img = clean_reference $" r.io:5000/team/app:1.0 "
       /\ full_reference img = clean_reference $" r.io:5000/team/app:1.0 "
       /\ (clean_reference $" r.io:5000/team/app:1.0 "
           = $" r.io:5000/team/app:1.0 " ->
           reconstruct img = $" r.io:5000/team/app:1.0 ").
Proof.
  split.
  - repeat split; reflexivity.
  - apply (reconstruct_reproduces_clean_reference
             $" r.io:5000/team/app:1.0 " $"web"); reflexivity.
Defined.

(** ** The relocation target *)

Lemma last_split_final_segment ref :
  last (split $"/" ref) = Ok (final_path_segment ref).
Proof.
  unfold final_path_segment. pose proof (split_char_last "/" ref) as H.
  change [("/")%char] with $"/" in H.
  destruct (rpartition "/" ref) as [[a b]|].
  - destruct H as [init [_ ->]]. apply last_snoc.
  - now rewrite H.
Qed.

Lemma final_path_segment_app pre segment :
  ~ In "/"%char segment ->
  final_path_segment (pre ++ "/"%char :: segment) = segment.
Proof.
  intros H. unfold final_path_segment.
  now rewrite (rpartition_complete "/" pre segment H).
Qed.

Lemma generate_harbor_reference_eq self original_ref target_project :
  _generate_harbor_reference self original_ref target_project
  = Ok (relocation_target (harbor_host self) target_project original_ref).
Proof.
  unfold _generate_harbor_reference, relocation_target.
  rewrite last_split_final_segment. cbn [bind].
  set (seg := final_path_segment original_ref).
  unfold segment_name, segment_tag, rsplit1.
  destruct (contains $":" seg) eqn:Hc.
  - destruct (rsplit1_contains ":" seg Hc) as [a [b [_ [E Hb]]]].
    rewrite E, (rpartition_complete ":" a b Hb). reflexivity.
  - assert (Hn : rpartition ":" seg = None).
    { apply rpartition_None. now apply contains_char_false. }
    now rewrite Hn.
Qed.

(** The name and the tag the parser gives are those of the final
    segment of the fullReference. *)
Lemma parsed_name_and_tag image_ref chart_source img :
  _parse_image_reference image_ref chart_source = Ok (Some img) ->
  name img = segment_name (final_path_segment (full_reference img))
  /\ tag img = segment_tag (final_path_segment (full_reference img)).
Proof.
  intros Hparse.
  destruct (parse_outcome image_ref chart_source)
    as [[_ Hp]|[[_ [reg [_ Hp]]]|[_ [reg [init [lp [Hparts Hp]]]]]]];
    rewrite Hp in Hparse; try discriminate.
  injection Hparse as <-.
  set (ref := clean_reference image_ref) in *.
  rewrite (proj1 (parsed_full_reference ref chart_source reg init lp)).
  assert (Hlast : last (split $"/" ref) = Ok lp).
  { unfold registry_and_parts in Hparts.
    destruct (split $"/" ref) as [|p0 rest] eqn:Hs; [discriminate|].
    cbn [first bind tl] in Hparts.
    destruct (contains $"." p0 || contains $":" p0).
    - injection Hparts as _ ->.
      change (p0 :: init ++ [lp]) with ((p0 :: init) ++ [lp]). apply last_snoc.
    - injection Hparts as _ ->. apply last_snoc. }
  rewrite last_split_final_segment in Hlast. injection Hlast as ->.
  unfold parsed, segment_name, segment_tag.
  destruct (rpartition ":" lp) as [[a b]|]; now split.
Qed.

(** C4.  The relocation target of a reference is the target host, the
    target project, the final path segment of the reference with its
    tag stripped, and its tag (latest when the final segment has none),
    joined as host/project/name:tag; what precedes the final segment is
    dropped; for a parsed reference the name and the tag are the
    parser's; and myorg/app:2.1 goes to harbor.example.com/library/app:2.1. *)
Theorem generate_harbor_reference_flattens
  (self : HelmPackImporter) (original_ref target_project : str) :
  _generate_harbor_reference self original_ref target_project
  = Ok (relocation_target (harbor_host self) target_project original_ref)
  /\ (forall pre segment,
        contains $"/" segment = false ->
        _generate_harbor_reference self (pre ++ $"/" ++ segment) target_project
        = _generate_harbor_reference self segment target_project)
  /\ (forall image_ref chart_source img,
        _parse_image_reference image_ref chart_source = Ok (Some img) ->
        _generate_harbor_reference self (full_reference img) target_project
        = Ok (harbor_host self ++ $"/" ++ target_project ++ $"/"
              ++ name img ++ $":" ++ tag img))
  /\ (harbor_host self = $"harbor.example.com" ->
      _generate_harbor_reference self $"myorg/app:2.1" $"library"
      = Ok $"harbor.example.com/library/app:2.1").
Proof.
  split; [apply generate_harbor_reference_eq|]. split; [|split].
  - intros pre segment Hs. rewrite !generate_harbor_reference_eq.
    unfold relocation_target.
    assert (Hseg : ~ In "/"%char segment) by now apply contains_char_false.
    change (pre ++ $"/" ++ segment) with (pre ++ "/"%char :: segment).
    rewrite (final_path_segment_app pre segment Hseg).
    unfold final_path_segment.
    now rewrite (proj2 (rpartition_None "/" segment) Hseg).
  - intros image_ref chart_source img Hparse.
    rewrite generate_harbor_reference_eq. unfold relocation_target.
    destruct (parsed_name_and_tag image_ref chart_source img Hparse) as [<- <-].
    reflexivity.
  - intros Hhost. rewrite generate_harbor_reference_eq, Hhost. reflexivity.
Qed.

Lemma generate_harbor_reference_flattens_witness :
  harbor_host (sample_importer true) = $"harbor.example.com"
  /\ contains $"/" $"app" = false
  /\ _generate_harbor_reference (sample_importer true) $"myorg/app:2.1"
                                $"library"
     = Ok $"harbor.example.com/library/app:2.1"
  /\ _generate_harbor_reference (sample_importer true)
                                $"registry.example.com/team/sub/app" $"library"
     = _generate_harbor_reference (sample_importer true) $"app" $"library".
Proof.
  destruct (generate_harbor_reference_flattens
              (sample_importer true) $"myorg/app:2.1" $"library")
    as [_ [Hdrop [_ Hexample]]].
  split; [reflexivity|]. split; [reflexivity|].
  split; [apply Hexample; reflexivity|].
  apply (Hdrop $"registry.example.com/team/sub" $"app"). reflexivity.
Defined.

(** ** The dictionary of the aggregator *)

Section DictFacts.

Context {V : Type}.
Implicit Types (d : dict V) (k : str) (v : V).

Lemma dict_get_set d k v k' :
  dict_get (dict_set d k v) k' = if eqb k k' then Some v else dict_get d k'.
Proof.
  induction d as [|[k0 v0] d IH]; simpl; [reflexivity|].
  destruct (eqb_spec k0 k) as [->|Hk0]; simpl.
  - now destruct (eqb k k').
  - rewrite IH. destruct (eqb_spec k k') as [E|_]; [|reflexivity].
    rewrite <- E. now rewrite (proj2 (eqb_neq k0 k) Hk0).
Qed.

Lemma dict_set_keys d k v k' :
  In k' (map fst (dict_set d k v)) <-> k' = k \/ In k' (map fst d).
Proof.
  induction d as [|[k0 v0] d IH]; simpl; [intuition congruence|].
  destruct (eqb_spec k0 k) as [->|_]; simpl; [intuition congruence|].
  rewrite IH. intuition congruence.
Qed.

Lemma dict_set_NoDup d k v :
  NoDup (map fst d) -> NoDup (map fst (dict_set d k v)).
Proof.
  induction d as [|[k0 v0] d IH]; simpl; intros H.
  - constructor; [intros [] | constructor].
  - inversion H as [|? ? Hk0 Hd]; subst.
    destruct (eqb_spec k0 k) as [->|Hne]; simpl.
    + now constructor.
    + constructor; [|now apply IH].
      rewrite dict_set_keys. intros [->|Hin]; [congruence | contradiction].
Qed.

Lemma dict_get_None d k : ~ In k (map fst d) -> dict_get d k = None.
Proof.
  induction d as [|[k0 v0] d IH]; simpl; [reflexivity|]. intros H.
  destruct (eqb_spec k0 k) as [->|_]; [exfalso; apply H; now left|].
  apply IH. intros Hin. apply H. now right.
Qed.

Lemma dict_set_Forall (P : str * V -> Prop) d k v :
  P (k, v) -> (forall k0 v0, P (k0, v0) -> k0 = k -> P (k0, v)) ->
  Forall P d -> Forall P (dict_set d k v).
Proof.
  intros Hkv Hrepl. induction d as [|[k0 v0] d IH]; simpl; intros H.
  - now constructor.
  - inversion H as [|? ? H0 Hd]; subst.
    destruct (eqb_spec k0 k) as [->|_]; constructor; auto.
Qed.

End DictFacts.

(** ** Aggregation *)

Lemma add_image_keyed d img : keyed_by_ref d -> keyed_by_ref (add_image d img).
Proof.
  intros [Hnd Hall]. split; [now apply dict_set_NoDup|].
  apply dict_set_Forall; [reflexivity | | exact Hall].
  simpl. now intros k0 v0 _ ->.
Qed.

Lemma fold_add_image_keyed images d :
  keyed_by_ref d -> keyed_by_ref (fold_left add_image images d).
Proof.
  revert d; induction images as [|img images IH]; intros d H; [exact H|].
  simpl. now apply IH, add_image_keyed.
Qed.

Lemma find_app {A : Type} (p : A -> bool) (l1 l2 : list A) :
  find p (l1 ++ l2)
  = match find p l1 with Some a => Some a | None => find p l2 end.
Proof.
  induction l1 as [|a l1 IH]; simpl; [reflexivity|]. now destruct (p a).
Qed.

Lemma fold_add_image_get images d ref :
  dict_get (fold_left add_image images d) ref
  = match last_with_ref ref images with
    | Some img => Some img
    | None => dict_get d ref
    end.
Proof.
  revert d; induction images as [|img images IH]; intros d; [reflexivity|].
  simpl. rewrite IH. unfold last_with_ref. simpl. rewrite find_app.
  destruct (find _ (rev images)); [reflexivity|].
  unfold add_image. rewrite dict_get_set. simpl.
  now destruct (eqb (full_reference img) ref).
Qed.

Lemma keyed_values_with_ref d ref :
  keyed_by_ref d ->
  filter (fun img => eqb (full_reference img) ref) (dict_values d)
  = option_list (dict_get d ref).
Proof.
  intros [Hnd Hall]. induction d as [|[k0 v0] d IH]; [reflexivity|].
  inversion Hnd as [|? ? Hk0 Hd]; inversion Hall as [|? ? Hv0 Hrest]; subst.
  simpl in *. subst k0.
  destruct (eqb_spec (full_reference v0) ref) as [<-|_]; [|now apply IH].
  simpl. f_equal. rewrite (IH Hd Hrest).
  now rewrite (dict_get_None d (full_reference v0) Hk0).
Qed.

Lemma keyed_values_refs d :
  keyed_by_ref d -> map full_reference (dict_values d) = map fst d.
Proof.
  intros [_ Hall]. induction Hall as [|[k v] d Hkv _ IH]; [reflexivity|].
  simpl in *. now rewrite Hkv, IH.
Qed.

Lemma unique_images_keyed images :
  keyed_by_ref (fold_left add_image images []).
Proof. apply fold_add_image_keyed. split; constructor. Qed.

(** What deduplication keeps of each fullReference, and that it keeps
    no fullReference twice. *)
Lemma unique_images_last_wins images :
  NoDup (map full_reference (unique_images images))
  /\ forall ref,
       filter (fun img => eqb (full_reference img) ref) (unique_images images)
       = option_list (last_with_ref ref images).
Proof.
  unfold unique_images. fold add_image.
  pose proof (unique_images_keyed images) as Hk. split.
  - rewrite (keyed_values_refs _ Hk). apply Hk.
  - intros ref. rewrite (keyed_values_with_ref _ ref Hk), fold_add_image_get.
    now destruct (last_with_ref ref images).
Qed.

(** A fullReference is kept exactly when it occurs. *)
Lemma unique_images_refs images ref :
  In ref (map full_reference (unique_images images))
  <-> In ref (map full_reference images).
Proof.
  destruct (unique_images_last_wins images) as [_ H]. specialize (H ref).
  rewrite !in_map_iff. split.
  - intros [img [Href Hin]].
    assert (Hf : In img (filter (fun img => eqb (full_reference img) ref)
                                (unique_images images))).
    { apply filter_In. split; [exact Hin | now apply eqb_eq]. }
    rewrite H in Hf. unfold last_with_ref in Hf.
    destruct (find _ (rev images)) as [i|] eqn:E; [|destruct Hf].
    destruct Hf as [<-|[]]. apply find_some in E as [E _].
    exists i. split; [exact Href | now apply in_rev].
  - intros [img [Href Hin]]. unfold last_with_ref in H.
    destruct (find (fun img => eqb (full_reference img) ref) (rev images))
      as [i|] eqn:E.
    + assert (Hf : In i (filter (fun img => eqb (full_reference img) ref)
                                (unique_images images)))
        by (rewrite H; now left).
      apply filter_In in Hf as [Hi Hr]. exists i. split; [now apply eqb_eq | exact Hi].
    + pose proof (find_none _ _ E img (proj1 (in_rev images img) Hin)) as Hf.
      simpl in Hf. rewrite (proj2 (eqb_eq _ _) Href) in Hf. discriminate.
Qed.

(** ** The parser returns *)

Lemma parse_image_reference_total image_ref chart_source :
  exists r, _parse_image_reference image_ref chart_source = Ok r.
Proof.
  destruct (parse_outcome image_ref chart_source)
    as [[_ Hp]|[[_ [reg [_ Hp]]]|[_ [reg [init [lp [_ Hp]]]]]]];
    rewrite Hp; eauto.
Qed.

Lemma extend_each_total {A B : Type} (f : A -> res (list B)) (xs : list A) :
  (forall x, exists l, f x = Ok l) -> exists l, extend_each f xs = Ok l.
Proof.
  intros Hf. induction xs as [|x xs [rs IH]]; simpl.
  - now exists [].
  - destruct (Hf x) as [r ->]. rewrite IH. now exists (r ++ rs).
Qed.

(** ** The order of the scanners *)

(** On a chart that does not render, the fallback's images come before
    those of the values, not after them. *)
Lemma fallback_precedes_values :
  cd_helm_template unrendered_chart = Raise CalledProcessError
  /\ refs_of (candidate_images unrendered_chart $"app")
     = Ok ["a/fallback:1"; "b/values:1"]%string
  /\ refs_of (claimed_candidate_images unrendered_chart $"app")
     = Ok ["b/values:1"; "a/fallback:1"]%string
  /\ refs_of (_discover_images unrendered_chart $"app")
     = Ok ["a/fallback:1"; "b/values:1"]%string
  /\ candidate_images unrendered_chart $"app"
     <> claimed_candidate_images unrendered_chart $"app".
Proof.
  repeat split; try reflexivity.
  intros H. apply (f_equal refs_of) in H. vm_compute in H. discriminate.
Qed.

(** C2, as amended.  Whenever the scanners of a chart node return, its
    candidates are their outputs concatenated in the order declared
    metadata, templates, raw configuration, where the templates' part
    is the rendered-manifest scanner's output when rendering succeeds
    and the textual fallback's output when rendering fails with a
    process error: the fallback runs only then, and its output comes
    before the raw-configuration scanner's. *)
Theorem candidates_in_scanner_order
  (chart_path : ChartDir) (chart_name : str) (images : list ImageInfo) :
  candidate_images chart_path chart_name = Ok images ->
  exists declared from_templates from_values,
    _parse_chart_annotations chart_path chart_name = Ok declared
    /\ _extract_images_from_templates chart_path chart_name = Ok from_templates
    /\ _parse_values_for_images chart_path chart_name = Ok from_values
    /\ images = declared ++ from_templates ++ from_values
    /\ match cd_helm_template chart_path with
       | Ok documents => scan_rendered documents chart_name = Ok from_templates
       | Raise e =>
           e = CalledProcessError
           /\ from_templates = _parse_templates_manually chart_path chart_name
       end.
Proof.
  unfold candidate_images. intros H.
  destruct (_parse_chart_annotations chart_path chart_name)
    as [declared|e]; [|discriminate].
  destruct (_extract_images_from_templates chart_path chart_name)
    as [from_templates|e] eqn:Ht; [|discriminate].
  destruct (_parse_values_for_images chart_path chart_name)
    as [from_values|e]; [|discriminate].
  cbn [bind app] in H. injection H as <-.
  exists declared, from_templates, from_values.
  split; [reflexivity|]. split; [reflexivity|]. split; [reflexivity|].
  split; [now rewrite <- app_assoc|].
  unfold _extract_images_from_templates in Ht.
  destruct (cd_helm_template chart_path) as [documents|e]; [exact Ht|].
  destruct e; try discriminate. injection Ht as <-. split; reflexivity.
Qed.

Lemma candidates_in_scanner_order_witness :
  candidate_images unrendered_chart $"app"
  = Ok (parsed_images "app" [$"a/fallback:1"; $"b/values:1"])
  /\ exists declared from_templates from_values,
       _parse_chart_annotations unrendered_chart $"app" = Ok declared
       /\ _extract_images_from_templates unrendered_chart $"app"
          = Ok from_templates
       /\ _parse_values_for_images unrendered_chart $"app" = Ok from_values
       /\ parsed_images "app" [$"a/fallback:1"; $"b/values:1"]
          = declared ++ from_templates ++ from_values
       /\ match cd_helm_template unrendered_chart with
          | Ok documents => scan_rendered documents $"app" = Ok from_templates
          | Raise e =>
              e = CalledProcessError
              /\ from_templates = _parse_templates_manually unrendered_chart $"app"
          end.
Proof.
  split; [reflexivity|].
  exact (candidates_in_scanner_order
           unrendered_chart $"app"
           (parsed_images "app" [$"a/fallback:1"; $"b/values:1"]) eq_refl).
Defined.

(** ** Deduplication *)

(** C1.  The aggregator deduplicates the concatenated candidates by
    fullReference: the result holds no fullReference twice, it holds
    exactly the fullReferences that occur among the candidates, and the
    entry it holds for one is the last candidate with that
    fullReference. *)
Theorem discover_images_keeps_last_occurrence
  (chart_path : ChartDir) (chart_name : str) (images : list ImageInfo) :
  candidate_images chart_path chart_name = Ok images ->
  exists result,
    _discover_images chart_path chart_name = Ok result
    /\ result = unique_images images
    /\ NoDup (map full_reference result)
    /\ (forall ref,
          In ref (map full_reference result)
          <-> In ref (map full_reference images))
    /\ (forall ref,
          filter (fun img => eqb (full_reference img) ref) result
          = option_list (last_with_ref ref images)).
Proof.
  intros H. exists (unique_images images).
  unfold _discover_images. rewrite H. cbn [bind].
  destruct (unique_images_last_wins images) as [Hnd Hlast].
  repeat split; try assumption; now apply unique_images_refs.
Qed.

(** Two candidates with one fullReference and different metadata: the
    later one stays, at the place of the first. *)
Lemma unique_images_later_metadata_wins :
  let early := mkImageInfo $"x" $"1" $"docker.io" $"a/x" $"a/x:1" $"declared"
                           None None in
  let other := mkImageInfo $"y" $"2" $"docker.io" $"b/y" $"b/y:2" $"rendered"
                           None None in
  let late := mkImageInfo $"x" $"1" $"docker.io" $"a/x" $"a/x:1" $"values"
                          (Some $"sha256:0") None in
  unique_images [early; other; late] = [late; other].
Proof. reflexivity. Qed.

Lemma discover_images_keeps_last_occurrence_witness :
  candidate_images root_chart $"root" = Ok root_candidates
  /\ exists result,
       _discover_images root_chart $"root" = Ok result
       /\ result = unique_images root_candidates
       /\ NoDup (map full_reference result)
       /\ (forall ref,
             In ref (map full_reference result)
             <-> In ref (map full_reference root_candidates))
       /\ (forall ref,
             filter (fun img => eqb (full_reference img) ref) result
             = option_list (last_with_ref ref root_candidates)).
Proof.
  split; [reflexivity|].
  apply (discover_images_keeps_last_occurrence root_chart $"root").
  reflexivity.
Defined.

(** ** The chart tree *)

Lemma analyze_chart_eq chart_path :
  analyze_chart chart_path =
  match cd_chart_yaml chart_path with
  | None => Raise (ValueError ($"Chart.yaml not found in " ++ cd_path chart_path))
  | Some loaded =>
      loaded <- loaded ;;
      match loaded with
      | None => Raise AttributeError
      | Some chart_yaml =>
          let chart_name := get_default (cy_name chart_yaml) $"unknown" in
          let chart_version := get_default (cy_version chart_yaml) $"0.0.0" in
          dependencies <-
            _discover_dependencies analyze_chart chart_path chart_yaml ;;
          images <- _discover_images chart_path chart_name ;;
          Ok (mkChartInfo chart_name chart_version (cd_path chart_path)
                          dependencies
                          (images ++ flat_map ci_images dependencies))
      end
  end.
Proof. destruct chart_path; reflexivity. Qed.

(** Every dependency kept is the analysis of one of the archives. *)
Lemma analyze_each_In analyze dep_files dep_chart :
  In dep_chart (analyze_each analyze dep_files) ->
  exists dep_path, In dep_path dep_files /\ analyze dep_path = Ok dep_chart.
Proof.
  induction dep_files as [|d rest IH]; simpl; [tauto|].
  destruct (analyze d) as [c|e] eqn:E.
  - intros [<-|H].
    + exists d. split; [now left | exact E].
    + destruct (IH H) as [p [Hp Ha]]. exists p. split; [now right | exact Ha].
  - intros H. destruct (IH H) as [p [Hp Ha]]. exists p. split; [now right | exact Ha].
Qed.

Lemma length_flat_map {A B : Type} (f : A -> list B) (l : list A) :
  List.length (flat_map f l) = list_sum (map (fun a => List.length (f a)) l).
Proof.
  induction l as [|a l IH]; [reflexivity|].
  simpl. now rewrite length_app, IH.
Qed.

(** The dependencies of a node are analyses of the archives. *)
Lemma discover_dependencies_In analyze chart_path chart_yaml dependencies :
  _discover_dependencies analyze chart_path chart_yaml = Ok dependencies ->
  forall dep_chart,
    In dep_chart dependencies ->
    exists dep_path, In dep_path (cd_charts chart_path)
                     /\ analyze dep_path = Ok dep_chart.
Proof.
  unfold _discover_dependencies.
  destruct (cy_dependencies chart_yaml) as [deps|];
    [|intros [= <-] d []].
  destruct (truthy deps); cbn [negb]; [|intros [= <-] d []].
  destruct (py_len deps) as [u|e]; [|discriminate]. cbn [bind].
  destruct (cd_dependency_update chart_path) as [u'|e].
  - cbn [bind]. intros [= <-] d. apply analyze_each_In.
  - destruct e; try discriminate. cbn [bind]. intros [= <-] d.
    apply analyze_each_In.
Qed.

(** What an analysis returns, with the dependencies traced back to the
    archives. *)
Lemma analyze_chart_result chart_path info :
  analyze_chart chart_path = Ok info ->
  exists chart_yaml own,
    cd_chart_yaml chart_path = Some (Ok (Some chart_yaml))
    /\ ci_name info = get_default (cy_name chart_yaml) $"unknown"
    /\ ci_version info = get_default (cy_version chart_yaml) $"0.0.0"
    /\ ci_path info = cd_path chart_path
    /\ _discover_images chart_path (ci_name info) = Ok own
    /\ _discover_dependencies analyze_chart chart_path chart_yaml
       = Ok (ci_dependencies info)
    /\ ci_images info = own ++ flat_map ci_images (ci_dependencies info)
    /\ forall dep, In dep (ci_dependencies info) ->
                   exists dep_path, In dep_path (cd_charts chart_path)
                                    /\ analyze_chart dep_path = Ok dep.
Proof.
  rewrite analyze_chart_eq.
  destruct (cd_chart_yaml chart_path) as [[[chart_yaml|]|e]|];
    try discriminate.
  cbn [bind]. cbv zeta.
  destruct (_discover_dependencies analyze_chart chart_path chart_yaml)
    as [dependencies|e] eqn:Hd; [|discriminate].
  cbn [bind].
  destruct (_discover_images chart_path
              (get_default (cy_name chart_yaml) $"unknown")) as [own|e] eqn:E;
    [|discriminate].
  cbn [bind]. intros [= <-]. exists chart_yaml, own.
  cbn [ci_name ci_version ci_path ci_dependencies ci_images].
  repeat split; try assumption.
  now apply (discover_dependencies_In analyze_chart chart_path chart_yaml).
Qed.

(** C3.  Whenever the analysis of a chart returns a node, the image
    list of the node is its own deduplicated list followed by the image
    lists of its dependencies, in their order, each dependency being
    itself the analysis of a dependency archive; no fullReference
    occurs twice in the own list, and nothing is removed from the
    appended lists: the length of the whole is the sum of the
    lengths. *)
Theorem analyze_chart_appends_dependency_images
  (chart_path : ChartDir) (info : ChartInfo) :
  analyze_chart chart_path = Ok info ->
  exists own,
    _discover_images chart_path (ci_name info) = Ok own
    /\ NoDup (map full_reference own)
    /\ ci_images info = own ++ concat (map ci_images (ci_dependencies info))
    /\ (forall dep_chart,
          In dep_chart (ci_dependencies info) ->
          exists dep_path,
            In dep_path (cd_charts chart_path)
            /\ analyze_chart dep_path = Ok dep_chart)
    /\ List.length (ci_images info)
       = List.length own
         + list_sum (map (fun d => List.length (ci_images d))
                         (ci_dependencies info)).
Proof.
  intros Ha.
  destruct (analyze_chart_result chart_path info Ha)
    as [chart_yaml [own [_ [_ [_ [_ [Hown [_ [Himages Htrace]]]]]]]]].
  exists own. split; [exact Hown|]. split.
  { unfold _discover_images in Hown.
    destruct (candidate_images chart_path (ci_name info)) as [images|e];
      [|discriminate].
    cbn [bind] in Hown. injection Hown as <-.
    apply unique_images_last_wins. }
  split; [now rewrite <- flat_map_concat_map|]. split; [exact Htrace|].
  now rewrite Himages, length_app, length_flat_map.
Qed.

(** The root of the sample tree: its own list without a repetition,
    then the lists of the two dependencies that resolve, the images they
    share with the root and with each other kept. *)
Lemma root_chart_images :
  analyze_chart root_chart = Ok root_info
  /\ map (fun img => String.string_of_list_ascii (full_reference img))
         (ci_images root_info)
     = ["a/x:1"; "r.io/w:4"; "a/x:1"; "b/y:2"; "b/y:2"; "c/z:3"]%string
  /\ map (fun d => String.string_of_list_ascii (ci_name d))
         (ci_dependencies root_info)
     = ["one"; "two"]%string.
Proof. repeat split; reflexivity. Qed.

Lemma analyze_chart_appends_dependency_images_witness :
  analyze_chart root_chart = Ok root_info
  /\ exists own,
       _discover_images root_chart (ci_name root_info) = Ok own
       /\ NoDup (map full_reference own)
       /\ ci_images root_info
          = own ++ concat (map ci_images (ci_dependencies root_info))
       /\ (forall dep_chart,
             In dep_chart (ci_dependencies root_info) ->
             exists dep_path,
               In dep_path (cd_charts root_chart)
               /\ analyze_chart dep_path = Ok dep_chart)
       /\ List.length (ci_images root_info)
          = List.length own
            + list_sum (map (fun d => List.length (ci_images d))
                            (ci_dependencies root_info)).
Proof.
  split; [reflexivity|].
  exact (analyze_chart_appends_dependency_images root_chart root_info eq_refl).
Defined.

(** ** Packaging *)

Section Pulling.

Variable client : DockerClient.
Variable log0 : list LogRecord.

Let run := pull_run client log0.

Lemma run_snoc images image :
  run (images ++ [image]) = pull_and_save_one client (run images) image.
Proof. unfold run, pull_run. now rewrite fold_left_app. Qed.

(** A turn whose pull raises leaves the files as they were and writes
    the error line. *)
Lemma failed_pull_turn st image e :
  images_pull client (full_reference image) = Raise e ->
  ps_files (pull_and_save_one client st image) = ps_files st
  /\ ps_images (pull_and_save_one client st image) = ps_images st ++ [image]
  /\ In (pull_error e (full_reference image))
        (ps_log (pull_and_save_one client st image)).
Proof.
  intros H. unfold pull_and_save_one. rewrite H. cbn.
  repeat split. apply in_or_app. right. now left.
Qed.

Lemma log_kept st image :
  forall r, In r (ps_log st) -> In r (ps_log (pull_and_save_one client st image)).
Proof.
  intros r Hr. unfold pull_and_save_one.
  destruct (images_pull client (full_reference image)) as [p|e].
  - destruct (save_error p); cbn; rewrite ?in_app_iff; tauto.
  - cbn. rewrite !in_app_iff. tauto.
Qed.

Lemma files_after_turn st image f :
  dict_get (ps_files (pull_and_save_one client st image)) f
  = match images_pull client (full_reference image) with
    | Ok pulled =>
        if eqb (image_filename (full_reference image)) f
        then Some (concat (save_chunks pulled))
        else dict_get (ps_files st) f
    | Raise _ => dict_get (ps_files st) f
    end.
Proof.
  unfold pull_and_save_one.
  destruct (images_pull client (full_reference image)) as [p|e]; [|reflexivity].
  destruct (save_error p); cbn; apply dict_get_set.
Qed.

(** The archive files are those of the images whose pull returned,
    each holding what its image saved. *)
Lemma files_of_run images f content :
  dict_get (ps_files (run images)) f = Some content ->
  exists image pulled,
    In image images
    /\ images_pull client (full_reference image) = Ok pulled
    /\ f = image_filename (full_reference image)
    /\ content = concat (save_chunks pulled).
Proof.
  induction images as [|image images IH] using rev_ind; [discriminate|].
  rewrite run_snoc, files_after_turn.
  destruct (images_pull client (full_reference image)) as [p|e] eqn:E.
  - destruct (eqb_spec (image_filename (full_reference image)) f) as [<-|_].
    + intros [= <-]. exists image, p. rewrite in_app_iff. simpl. tauto.
    + intros H. destruct (IH H) as [i [q [Hi Hq]]].
      exists i, q. rewrite in_app_iff. tauto.
  - intros H. destruct (IH H) as [i [q [Hi Hq]]].
    exists i, q. rewrite in_app_iff. tauto.
Qed.

Lemma pulled_has_file images image pulled :
  In image images ->
  images_pull client (full_reference image) = Ok pulled ->
  dict_get (ps_files (run images)) (image_filename (full_reference image))
  <> None.
Proof.
  induction images as [|i images IH] using rev_ind; [intros []|].
  rewrite in_app_iff, run_snoc, files_after_turn. intros Hin Hp.
  destruct (images_pull client (full_reference i)) as [p|e] eqn:E.
  - destruct (eqb (image_filename (full_reference i))
                  (image_filename (full_reference image))) eqn:Hf;
      [discriminate|].
    destruct Hin as [Hin|[<-|[]]]; [now apply IH|].
    rewrite eqb_refl in Hf. discriminate.
  - destruct Hin as [Hin|[<-|[]]]; [now apply IH | congruence].
Qed.

Lemma failed_pull_logged images image e :
  In image images ->
  images_pull client (full_reference image) = Raise e ->
  In (pull_error e (full_reference image)) (ps_log (run images)).
Proof.
  induction images as [|i images IH] using rev_ind; [intros []|].
  rewrite in_app_iff, run_snoc. intros [Hin|[<-|[]]] He.
  - apply log_kept. now apply IH.
  - now apply failed_pull_turn.
Qed.

End Pulling.

Lemma pull_and_save_images_eq client images :
  let st := pull_run client [InfoPullingImages (List.length images)] images in
  _pull_and_save_images (Some client) images
  = (Some (ps_files st), ps_images st, ps_log st).
Proof. reflexivity. Qed.

(** The manifest is written before any pull and does not depend on
    the runtime. *)
Lemma create_bundle_manifest docker date chart_files chart_info output_path
  pull_images :
  bundle_yaml (bundle (create_bundle docker date chart_files chart_info
                                     output_path pull_images))
  = bundle_yaml (bundle (create_bundle None date chart_files chart_info
                                       output_path false)).
Proof.
  unfold create_bundle.
  destruct (pull_images && negb (is_empty (ci_images chart_info))).
  - destruct (_pull_and_save_images docker (ci_images chart_info))
      as [[d i] l]. reflexivity.
  - reflexivity.
Qed.

Lemma create_bundle_manifest_images date chart_files chart_info output_path :
  exists manifest,
    bundle_yaml (bundle (create_bundle None date chart_files chart_info
                                       output_path false))
    = Some manifest
    /\ manifest_images manifest = ci_images chart_info
    /\ manifest_chart manifest = chart_info.
Proof. eexists. split; [reflexivity|]. split; reflexivity. Qed.

Lemma create_bundle_with_pulls client date chart_files chart_info output_path :
  is_empty (ci_images chart_info) = false ->
  let b := create_bundle (Some client) date chart_files chart_info
                         output_path true in
  let st := pull_run client
                      [InfoPullingImages (List.length (ci_images chart_info))]
                      (ci_images chart_info) in
  chart_dir (bundle b) = Some chart_files
  /\ images_dir (bundle b) = Some (ps_files st)
  /\ bundle_log b
     = InfoCreatingBundle (ci_name chart_info) (ci_version chart_info)
       :: ps_log st ++ [InfoBundleCreated (bundle_path b)].
Proof.
  intros Hne. unfold create_bundle. cbn [andb]. rewrite Hne. cbn [negb].
  rewrite pull_and_save_images_eq. repeat split.
Qed.

(** C6, as amended.  When the pull of an image of the list raises
    during packaging with embedding, the error is logged and packaging
    goes on: the bundle is produced with the chart and with a manifest
    that lists every image of the chart, the failed one included,
    whatever the runtime answers.  The turn of the failed image writes
    nothing to the images directory; every archive file of the bundle
    holds what an image whose pull returned has saved, under that
    image's archive name, and every such image has its file.  So a
    file bears the archive name of the failed image exactly when a
    pulled image of the list shares that name, and no file does when
    none shares it. *)
Theorem failed_pull_is_logged_and_skipped
  (client : DockerClient) (date : str) (chart_files : ChartTree)
  (chart_info : ChartInfo) (output_path : str)
  (image : ImageInfo) (e : exn) :
  In image (ci_images chart_info) ->
  images_pull client (full_reference image) = Raise e ->
  let b := create_bundle (Some client) date chart_files chart_info
                         output_path true in
  exists manifest files,
    bundle_yaml (bundle b) = Some manifest
    /\ manifest_images manifest = ci_images chart_info
    /\ In image (manifest_images manifest)
    /\ (forall docker pull_images,
          bundle_yaml (bundle (create_bundle docker date chart_files
                                             chart_info output_path
                                             pull_images))
          = Some manifest)
    /\ chart_dir (bundle b) = Some chart_files
    /\ images_dir (bundle b) = Some files
    /\ In (pull_error e (full_reference image)) (bundle_log b)
    /\ (forall st, ps_files (pull_and_save_one client st image) = ps_files st)
    /\ (forall f content,
          dict_get files f = Some content ->
          exists other pulled,
            In other (ci_images chart_info)
            /\ images_pull client (full_reference other) = Ok pulled
            /\ f = image_filename (full_reference other)
            /\ content = concat (save_chunks pulled))
    /\ (forall other pulled,
          In other (ci_images chart_info) ->
          images_pull client (full_reference other) = Ok pulled ->
          dict_get files (image_filename (full_reference other)) <> None)
    /\ ((forall other,
           In other (ci_images chart_info) ->
           image_filename (full_reference other)
           = image_filename (full_reference image) ->
           exists e', images_pull client (full_reference other) = Raise e')
        <-> dict_get files (image_filename (full_reference image)) = None).
Proof.
  intros Hin Hpull b.
  assert (Hne : is_empty (ci_images chart_info) = false).
  { destruct (ci_images chart_info); [destruct Hin | reflexivity]. }
  set (st := pull_run client
                       [InfoPullingImages (List.length (ci_images chart_info))]
                       (ci_images chart_info)).
  destruct (create_bundle_manifest_images date chart_files chart_info
                                          output_path) as [manifest [Hm [Hi _]]].
  destruct (create_bundle_with_pulls client date chart_files chart_info
                                     output_path Hne) as [Hchart [Hdir Hlog]].
  fold b in Hchart, Hdir, Hlog. fold st in Hdir, Hlog.
  exists manifest, (ps_files st).
  split; [unfold b; now rewrite create_bundle_manifest|].
  split; [exact Hi|]. split; [now rewrite Hi|].
  split; [intros docker pull_images; now rewrite create_bundle_manifest|].
  split; [exact Hchart|]. split; [exact Hdir|]. rewrite Hlog. split.
  { right. apply in_or_app. left. now apply failed_pull_logged. }
  split; [intros st0; now apply (failed_pull_turn client st0 image e)|].
  split; [intros f content; apply files_of_run|].
  split; [intros other pulled; apply pulled_has_file|].
  split.
  - intros Hsame.
    destruct (dict_get (ps_files st) (image_filename (full_reference image)))
      as [content|] eqn:E; [|reflexivity].
    exfalso.
    destruct (files_of_run client _ _ _ _ E)
      as [other [pulled [Ho [Hp [Hf _]]]]].
    destruct (Hsame other Ho (eq_sym Hf)) as [e' He']. congruence.
  - intros Hnone other Ho Hf.
    destruct (images_pull client (full_reference other)) as [pulled|e']
      eqn:Hp; [|now exists e'].
    exfalso.
    apply (pulled_has_file
             client [InfoPullingImages (List.length (ci_images chart_info))]
             (ci_images chart_info) other pulled Ho Hp).
    rewrite Hf. exact Hnone.
Qed.

(** Two images whose archive names coincide, the first of which the
    runtime does not find. *)
Lemma failed_pull_has_archive_of_another :
  In collision_failed (ci_images collision_chart)
  /\ In collision_pulled (ci_images collision_chart)
  /\ images_pull collision_client (full_reference collision_failed)
     = Raise ImageNotFound
  /\ image_filename (full_reference collision_failed) = $"a_b_c_1.tar"
  /\ exists manifest files,
       bundle_yaml (bundle (create_bundle (Some collision_client) $"today"
                                          sample_tree collision_chart $"out"
                                          true))
       = Some manifest
       /\ In collision_failed (manifest_images manifest)
       /\ images_dir (bundle (create_bundle (Some collision_client) $"today"
                                            sample_tree collision_chart $"out"
                                            true))
          = Some files
       /\ dict_get files (image_filename (full_reference collision_failed))
          = Some $"layers of a/b_c:1".
Proof.
  split; [now left|]. split; [right; now left|].
  split; [reflexivity|]. split; [reflexivity|].
  eexists. eexists. split; [reflexivity|]. split; [now left|].
  split; reflexivity.
Qed.

Lemma failed_pull_is_logged_and_skipped_witness :
  (In unpullable_image (ci_images root_info)
   /\ images_pull (sample_client true) (full_reference unpullable_image)
      = Raise ImageNotFound)
  /\ exists manifest files,
       bundle_yaml (bundle sample_bundled) = Some manifest
       /\ manifest_images manifest = ci_images root_info
       /\ In unpullable_image (manifest_images manifest)
       /\ (forall docker pull_images,
             bundle_yaml (bundle (create_bundle docker
                                    $"2024-01-01T00:00:00+00:00" sample_tree
                                    root_info $"out" pull_images))
             = Some manifest)
       /\ chart_dir (bundle sample_bundled) = Some sample_tree
       /\ images_dir (bundle sample_bundled) = Some files
       /\ In (pull_error ImageNotFound (full_reference unpullable_image))
             (bundle_log sample_bundled)
       /\ (forall st,
             ps_files (pull_and_save_one (sample_client true) st
                                         unpullable_image) = ps_files st)
       /\ (forall f content,
             dict_get files f = Some content ->
             exists other pulled,
               In other (ci_images root_info)
               /\ images_pull (sample_client true) (full_reference other)
                  = Ok pulled
               /\ f = image_filename (full_reference other)
               /\ content = concat (save_chunks pulled))
       /\ (forall other pulled,
             In other (ci_images root_info) ->
             images_pull (sample_client true) (full_reference other)
             = Ok pulled ->
             dict_get files (image_filename (full_reference other)) <> None)
       /\ ((forall other,
              In other (ci_images root_info) ->
              image_filename (full_reference other)
              = image_filename (full_reference unpullable_image) ->
              exists e',
                images_pull (sample_client true) (full_reference other)
                = Raise e')
           <-> dict_get files (image_filename (full_reference unpullable_image))
               = None).
Proof.
  assert (Hin : In unpullable_image (ci_images root_info))
    by (right; left; reflexivity).
  split; [split; [exact Hin | reflexivity]|].
  exact (failed_pull_is_logged_and_skipped
           (sample_client true) $"2024-01-01T00:00:00+00:00" sample_tree
           root_info $"out" unpullable_image ImageNotFound Hin eq_refl).
Defined.

(** The archive files of the sample bundle: none for the image that
    could not be pulled, which the manifest still lists. *)
Lemma sample_bundle_files :
  option_map (map (fun kv => String.string_of_list_ascii (fst kv)))
             (images_dir (bundle sample_bundled))
  = Some ["a_x_1.tar"; "b_y_2.tar"; "c_z_3.tar"]%string
  /\ option_map (fun m => map (fun img => String.string_of_list_ascii
                                            (full_reference img))
                              (manifest_images m))
                (bundle_yaml (bundle sample_bundled))
     = Some ["a/x:1"; "r.io/w:4"; "a/x:1"; "b/y:2"; "b/y:2"; "c/z:3"]%string
  /\ String.string_of_list_ascii (bundle_path sample_bundled)
     = "out/root-1.0.0.helmpack.tgz"%string.
Proof. repeat split; reflexivity. Qed.

(** ** Import *)

(** The mapping is always built: one entry per fullReference, in the
    order of the manifest, to the relocation target. *)
Lemma build_image_mapping_eq self images_info target_project :
  build_image_mapping self images_info target_project
  = Ok (fold_left (add_mapping self target_project) images_info []).
Proof.
  unfold build_image_mapping. generalize (@nil (str * str)) as m.
  induction images_info as [|i images IH]; intros m; [reflexivity|].
  cbn [fold_left bind]. rewrite generate_harbor_reference_eq. cbn [bind].
  apply IH.
Qed.

(** Pushing the chart asks for the packaging and, when that gave an
    archive, for its push; nothing else. *)
Lemma push_chart_actions self chart_dir target_project w :
  exists more,
    actions (_push_chart_to_harbor self chart_dir target_project w)
    = actions w ++ HelmPackage chart_dir :: more
    /\ (forall a, In a more -> exists package url, a = HelmPush package url)
    /\ chart (_push_chart_to_harbor self chart_dir target_project w) = chart w
    /\ (forall r, In r (log w) ->
                  In r (log (_push_chart_to_harbor self chart_dir
                                                   target_project w))).
Proof.
  unfold _push_chart_to_harbor.
  destruct (helm_package (helm self) chart_dir) as [[|f chart_files]|e].
  - exists []. cbn. repeat split; try tauto.
    intros r Hr. apply in_or_app. now left.
  - eexists [_]. cbn [act logging actions chart log].
    destruct (helm_push _ _ _) as [u|e]; [|destruct e]; cbn;
      (split; [now rewrite <- app_assoc|]);
      (split; [intros a [<-|[]]; eauto|]);
      (split; [reflexivity|]); intros r Hr; apply in_or_app; now left.
  - exists []. destruct e; cbn; repeat split; try tauto;
      intros r Hr; apply in_or_app; now left.
Qed.

(** C7.  When the login to the target registry raises during an
    import, the image step returns without raising, having attempted
    the login only, and the import goes on: the mapping is built, the
    chart is relocated with it, the relocated chart is handed to the
    packaging and push step, and the import returns; no image is
    loaded, tagged or pushed. *)
Theorem login_failure_skips_images_only
  (self : HelmPackImporter) (client : DockerClient)
  (bundle_dir : BundleDir) (others : list BundleDir)
  (manifest : Manifest) (files : dict str) (tree : ChartTree)
  (target_project : str) (e : exn) :
  docker_client self = Some client ->
  bundle_yaml bundle_dir = Some manifest ->
  images_dir bundle_dir = Some files ->
  chart_dir bundle_dir = Some tree ->
  login client (harbor_username self) (harbor_password self) (harbor_host self)
  = Raise e ->
  exists w1 image_mapping w more,
    _import_images self bundle_dir (manifest_images manifest) target_project
                   (mkWorld [] [InfoImportingBundle] (Some tree)) = Ok w1
    /\ actions w1 = [DockerLogin (harbor_host self)]
    /\ In ErrorFailedToLogin (log w1)
    /\ build_image_mapping self (manifest_images manifest) target_project
       = Ok image_mapping
    /\ import_bundle self (bundle_dir :: others) target_project = Ok w
    /\ chart w = Some (fst (_relocate_chart_images tree image_mapping))
    /\ actions w
       = DockerLogin (harbor_host self)
         :: HelmPackage (fst (_relocate_chart_images tree image_mapping))
         :: more
    /\ (forall a, In a more -> exists package url, a = HelmPush package url)
    /\ In ErrorFailedToLogin (log w)
    /\ In InfoBundleImported (log w).
Proof.
  intros Hclient Hyaml Hdir Hchart Hlogin.
  set (w0 := mkWorld [] [InfoImportingBundle] (Some tree)).
  set (w1 := logging ErrorFailedToLogin
               (act (DockerLogin (harbor_host self))
                    (logging (InfoImporting
                                (List.length (manifest_images manifest))) w0))).
  assert (H1 : _import_images self bundle_dir (manifest_images manifest)
                              target_project w0 = Ok w1).
  { unfold _import_images. rewrite Hclient, Hdir. cbn [act logging actions log].
    now rewrite Hlogin. }
  set (image_mapping := fold_left (add_mapping self target_project)
                                  (manifest_images manifest) []).
  set (relocated := _relocate_chart_images tree image_mapping).
  set (w2 := mkWorld (actions w1)
                     (log (logging (InfoImportingChart
                                      (ci_name (manifest_chart manifest))
                                      (ci_version (manifest_chart manifest)))
                                   w1) ++ snd relocated)
                     (Some (fst relocated))).
  destruct (push_chart_actions self (fst relocated) target_project w2)
    as [more [Hact [Hmore [Hc Hl]]]].
  exists w1, image_mapping,
    (logging InfoBundleImported
       (_push_chart_to_harbor self (fst relocated) target_project w2)), more.
  split; [exact H1|]. split; [reflexivity|].
  split; [cbn; tauto|]. split; [apply build_image_mapping_eq|]. split.
  { unfold import_bundle. rewrite Hyaml, Hchart. fold w0. rewrite H1.
    cbn [bind]. unfold _import_chart. rewrite Hchart, build_image_mapping_eq.
    cbn [bind]. fold image_mapping. fold relocated.
    destruct relocated as [t l] eqn:E. reflexivity. }
  split; [cbn [logging chart]; now rewrite Hc|].
  split; [cbn [logging actions]; now rewrite Hact|].
  split; [exact Hmore|]. split.
  - cbn [logging log]. apply in_or_app. left. apply Hl.
    cbn. tauto.
  - cbn [logging log]. apply in_or_app. right. now left.
Qed.

Lemma login_failure_skips_images_only_witness :
  (docker_client (sample_importer false) = Some (sample_client false)
   /\ bundle_yaml (bundle sample_bundled) = Some sample_manifest
   /\ images_dir (bundle sample_bundled) = Some sample_files
   /\ chart_dir (bundle sample_bundled) = Some sample_tree
   /\ login (sample_client false) (harbor_username (sample_importer false))
            (harbor_password (sample_importer false))
            (harbor_host (sample_importer false))
      = Raise APIError)
  /\ exists w1 image_mapping w more,
       _import_images (sample_importer false) (bundle sample_bundled)
                      (manifest_images sample_manifest) $"library"
                      (mkWorld [] [InfoImportingBundle] (Some sample_tree)) = Ok w1
       /\ actions w1 = [DockerLogin (harbor_host (sample_importer false))]
       /\ In ErrorFailedToLogin (log w1)
       /\ build_image_mapping (sample_importer false)
                              (manifest_images sample_manifest) $"library"
          = Ok image_mapping
       /\ import_bundle (sample_importer false) [bundle sample_bundled]
                        $"library" = Ok w
       /\ chart w = Some (fst (_relocate_chart_images sample_tree image_mapping))
       /\ actions w
          = DockerLogin (harbor_host (sample_importer false))
            :: HelmPackage (fst (_relocate_chart_images sample_tree
                                                        image_mapping))
            :: more
       /\ (forall a, In a more -> exists package url, a = HelmPush package url)
       /\ In ErrorFailedToLogin (log w)
       /\ In InfoBundleImported (log w).
Proof.
  split.
  - repeat split; reflexivity.
  - exact (login_failure_skips_images_only
             (sample_importer false) (sample_client false)
             (bundle sample_bundled) [] sample_manifest sample_files
             sample_tree $"library" APIError
             eq_refl eq_refl eq_refl eq_refl eq_refl).
Defined.

(** The same import with a login that succeeds and with one that
    fails: the chart is relocated and pushed alike, the images are
    pushed in the first only. *)
Lemma sample_import_actions :
  option_map
    (fun w => (List.length (filter (fun a => match a with
                                             | DockerPush _ => true
                                             | _ => false
                                             end) (actions w)),
               List.length (filter (fun a => match a with
                                             | HelmPush _ _ => true
                                             | _ => false
                                             end) (actions w)),
               option_map (fun t => option_map String.string_of_list_ascii
                                               (values_yaml t)) (chart w)))
    (match import_bundle (sample_importer true) [bundle sample_bundled]
                         $"library" with
     | Ok w => Some w
     | Raise _ => None
     end)
  = Some (5, 1, Some (Some "image: harbor.example.com/library/x:1"%string))
  /\ option_map
       (fun w => (List.length (filter (fun a => match a with
                                                | DockerPush _ => true
                                                | _ => false
                                                end) (actions w)),
                  List.length (filter (fun a => match a with
                                                | HelmPush _ _ => true
                                                | _ => false
                                                end) (actions w)),
                  option_map (fun t => option_map String.string_of_list_ascii
                                                  (values_yaml t)) (chart w)))
       (match import_bundle (sample_importer false) [bundle sample_bundled]
                            $"library" with
        | Ok w => Some w
        | Raise _ => None
        end)
     = Some (0, 1, Some (Some "image: harbor.example.com/library/x:1"%string)).
Proof. split; reflexivity. Qed.

(** ** Relocation of text *)

(** A file that holds no key of the mapping is not modified. *)
Lemma relocate_content_without_key image_mapping content :
  (forall original_ref harbor_ref,
     In (original_ref, harbor_ref) image_mapping ->
     contains original_ref content = false) ->
  relocate_content image_mapping content = (content, false).
Proof.
  unfold relocate_content. induction image_mapping as [|[k v] m IH]; intros H.
  - reflexivity.
  - cbn [fold_left]. rewrite (H k v) by now left.
    apply IH. intros k' v' Hin. apply (H k' v'). now right.
Qed.

Lemma relocate_file_without_key file_path content image_mapping :
  (forall original_ref harbor_ref,
     In (original_ref, harbor_ref) image_mapping ->
     contains original_ref content = false) ->
  _relocate_images_in_file file_path content image_mapping = (content, []).
Proof.
  intros H. unfold _relocate_images_in_file.
  now rewrite (relocate_content_without_key image_mapping content H).
Qed.

(** Once a key has been found the flag stays set. *)
Lemma relocate_fold_modified image_mapping content :
  snd (fold_left
         (fun '(content, modified) '(original_ref, harbor_ref) =>
            if contains original_ref content
            then (replace original_ref harbor_ref content, true)
            else (content, modified))
         image_mapping (content, true)) = true.
Proof.
  revert content; induction image_mapping as [|[k v] m IH]; intros content.
  - reflexivity.
  - cbn [fold_left]. destruct (contains k content); apply IH.
Qed.

(** The file is written exactly when a key of the mapping was found in
    the content as it stood at that key's turn; with a single key, when
    the key occurs in the file. *)
Lemma relocate_content_single_key original_ref harbor_ref content :
  relocate_content [(original_ref, harbor_ref)] content
  = if contains original_ref content
    then (replace original_ref harbor_ref content, true)
    else (content, false).
Proof. reflexivity. Qed.

(** The mapping of the specification's example: both occurrences in a
    file are replaced and the file is written; a file without the key
    is left alone. *)
Lemma relocate_both_occurrences :
  let image_mapping :=
    [($"docker.io/library/nginx:1.25", $"harbor.local/proj/nginx:1.25")] in
  _relocate_images_in_file
    $"templates/a.yaml"
    $"image: docker.io/library/nginx:1.25, docker.io/library/nginx:1.25"
    image_mapping
  = ($"image: harbor.local/proj/nginx:1.25, harbor.local/proj/nginx:1.25",
     [InfoUpdated $"templates/a.yaml"])
  /\ _relocate_images_in_file $"templates/b.yaml" $"image: busybox"
                              image_mapping
     = ($"image: busybox", []).
Proof. split; reflexivity. Qed.

(** C5.  The chart of the end-to-end scenario with a second image,
    library/app:2.1, imported into project library: the file holds one
    occurrence of the key myorg/app:2.1 and none of the other key, yet
    after the first key is replaced by its target the second key is
    found inside that target and replaced in turn, so that the file
    does not hold the mapped value of the key it contained. *)
Theorem relocation_rewrites_its_own_output :
  let images_info := parsed_images "app" [$"myorg/app:2.1"; $"library/app:2.1"] in
  let content := $"image: myorg/app:2.1" in
  exists image_mapping,
    map full_reference images_info = [$"myorg/app:2.1"; $"library/app:2.1"]
    /\ build_image_mapping (sample_importer true) images_info $"library"
       = Ok image_mapping
    /\ image_mapping
       = [($"myorg/app:2.1", $"harbor.example.com/library/app:2.1");
          ($"library/app:2.1", $"harbor.example.com/library/app:2.1")]
    /\ contains $"myorg/app:2.1" content = true
    /\ contains $"library/app:2.1" content = false
    /\ replace $"myorg/app:2.1" $"harbor.example.com/library/app:2.1" content
       = $"image: harbor.example.com/library/app:2.1"
    /\ relocate_content image_mapping content
       = ($"image: harbor.example.com/harbor.example.com/library/app:2.1", true).
Proof.
  eexists. split; [reflexivity|]. split; [reflexivity|].
  repeat split; reflexivity.
Qed.

(* ===================================================================== *)
(** * Further properties *)
(* ===================================================================== *)

(** ** The reference parser *)

Lemma registry_and_parts_split image_ref registry repo_parts :
  registry_and_parts image_ref = Ok (registry, repo_parts) ->
  exists p0 rest,
    split $"/" image_ref = p0 :: rest
    /\ ((contains $"." p0 || contains $":" p0 = true
         /\ registry = p0 /\ repo_parts = rest)
        \/ (contains $"." p0 || contains $":" p0 = false
            /\ registry = $"docker.io" /\ repo_parts = p0 :: rest)).
Proof.
  unfold registry_and_parts.
  destruct (split_nonempty $"/" image_ref) as [p0 [rest E]]. rewrite E.
  cbn [first bind tl]. intros H. exists p0, rest. split; [reflexivity|].
  destruct (contains $"." p0 || contains $":" p0);
    injection H as <- <-; tauto.
Qed.

Lemma split_slash_segments image_ref segment :
  In segment (split $"/" image_ref) -> ~ In "/"%char segment.
Proof. apply (split_char_no_sep "/" image_ref). Qed.

Lemma join_split_slash image_ref : join $"/" (split $"/" image_ref) = image_ref.
Proof. apply (join_split_char "/" image_ref). Qed.

(** X1.  An input without slash, dot, colon or placeholder marker
    that is not empty after trimming is read as an image of the default
    registry: registry docker.io, repository and name the trimmed
    input, tag latest. *)
Theorem parse_bare_name_defaults (image_ref chart_name : str) :
  clean_reference image_ref <> [] ->
  contains $"/" image_ref = false ->
  contains $"." image_ref || contains $":" image_ref = false ->
  has_placeholder image_ref = false ->
  _parse_image_reference image_ref chart_name
  = Ok (Some (mkImageInfo (clean_reference image_ref) $"latest" $"docker.io"
                          (clean_reference image_ref)
                          (clean_reference image_ref) chart_name None None)).
Proof.
  intros Hne Hslash Hreg Hp.
  set (ref := clean_reference image_ref) in *.
  assert (Hs : ~ In "/"%char ref).
  { intros H. apply clean_reference_In in H.
    now apply (contains_char_false "/" image_ref). }
  assert (Hreg' : contains $"." ref || contains $":" ref = false).
  { unfold ref. change $"." with [("."%char)]. change $":" with [(":"%char)].
    now rewrite !clean_reference_char by reflexivity. }
  assert (Hc : is_empty ref || contains $"{{" ref || contains $"}}" ref = false).
  { rewrite <- clean_reference_placeholder in Hp. fold ref in Hp.
    unfold has_placeholder in Hp. rewrite <- orb_assoc, Hp, orb_false_r.
    destruct ref; [congruence | reflexivity]. }
  assert (Hr : registry_and_parts ref = Ok ($"docker.io", [] ++ [ref])).
  { unfold registry_and_parts. change $"/" with [("/"%char)].
    rewrite (split_char_single _ _ Hs). cbn [first bind]. now rewrite Hreg'. }
  rewrite (parse_accepted image_ref chart_name _ _ _ Hc Hr). fold ref.
  unfold parsed.
  apply orb_false_iff in Hreg' as [_ Hcolon].
  assert (Hn : rpartition ":" ref = None).
  { apply rpartition_None. now apply (contains_char_false ":" ref). }
  now rewrite Hn.
Qed.

Lemma parse_bare_name_defaults_witness :
  (clean_reference $" nginx " <> []
   /\ contains $"/" $" nginx " = false
   /\ contains $"." $" nginx " || contains $":" $" nginx " = false
   /\ has_placeholder $" nginx " = false)
  /\ _parse_image_reference $" nginx " $"web"
     = Ok (Some (mkImageInfo (clean_reference $" nginx ") $"latest" $"docker.io"
                             (clean_reference $" nginx ")
                             (clean_reference $" nginx ") $"web" None None)).
Proof.
  split.
  - split; [discriminate | repeat split; reflexivity].
  - apply (parse_bare_name_defaults $" nginx " $"web");
      [discriminate | reflexivity | reflexivity | reflexivity].
Defined.

(** The facts about an accepted reference that the statements below
    share. *)
Lemma parse_accepted_shape image_ref chart_name img :
  _parse_image_reference image_ref chart_name = Ok (Some img) ->
  let ref := clean_reference image_ref in
  exists registry init last_part p0 rest,
    img = parsed ref chart_name registry init last_part
    /\ is_empty ref || contains $"{{" ref || contains $"}}" ref = false
    /\ split $"/" ref = p0 :: rest
    /\ last (split $"/" ref) = Ok last_part
    /\ ((contains $"." p0 || contains $":" p0 = true
         /\ registry = p0 /\ init ++ [last_part] = rest)
        \/ (contains $"." p0 || contains $":" p0 = false
            /\ registry = $"docker.io" /\ init ++ [last_part] = p0 :: rest)).
Proof.
  intros Hparse ref.
  destruct (parse_outcome image_ref chart_name)
    as [[_ Hp]|[[_ [reg [_ Hp]]]|[Hc [reg [init [lp [Hparts Hp]]]]]]];
    rewrite Hp in Hparse; try discriminate.
  injection Hparse as <-. fold ref in Hc, Hparts.
  destruct (registry_and_parts_split ref reg _ Hparts)
    as [p0 [rest [Hs Hcases]]].
  exists reg, init, lp, p0, rest.
  split; [reflexivity|]. split; [exact Hc|]. split; [exact Hs|]. split.
  - rewrite Hs. destruct Hcases as [[_ [_ <-]]|[_ [_ E]]].
    + change (p0 :: init ++ [lp]) with ((p0 :: init) ++ [lp]). apply last_snoc.
    + rewrite <- E. apply last_snoc.
  - destruct Hcases as [[H1 [H2 H3]]|[H1 [H2 H3]]]; [left | right]; auto.
Qed.

(** X2.  The fields of every reference the parser returns: the
    fullReference is the trimmed input, not empty and free of
    placeholder markers; name, tag and registry hold no slash, the tag
    no colon; the repository ends with the name as its last segment;
    digest and size are unset and the chart is the one given. *)
Theorem parsed_reference_fields (image_ref chart_name : str) (img : ImageInfo) :
  _parse_image_reference image_ref chart_name = Ok (Some img) ->
  full_reference img = clean_reference image_ref
  /\ full_reference img <> []
  /\ has_placeholder (full_reference img) = false
  /\ ~ In "/"%char (name img)
  /\ ~ In "/"%char (tag img)
  /\ ~ In ":"%char (tag img)
  /\ ~ In "/"%char (registry img)
  /\ (exists init, repository img = join $"/" (init ++ [name img]))
  /\ digest img = None /\ size img = None
  /\ chart_source img = chart_name.
Proof.
  intros Hparse.
  destruct (parse_accepted_shape image_ref chart_name img Hparse)
    as [reg [init [lp [p0 [rest [-> [Hc [Hs [_ Hcases]]]]]]]]].
  set (ref := clean_reference image_ref) in *.
  apply orb_false_iff in Hc as [Hc Hc3]. apply orb_false_iff in Hc as [Hc1 Hc2].
  assert (Hseg : forall seg, In seg (p0 :: rest) -> ~ In "/"%char seg).
  { intros seg Hin. apply (split_slash_segments ref). now rewrite Hs. }
  assert (Hlp : ~ In "/"%char lp).
  { apply Hseg. destruct Hcases as [[_ [_ <-]]|[_ [_ <-]]].
    - right. apply in_or_app. right. now left.
    - apply in_or_app. right. now left. }
  assert (Hreg : ~ In "/"%char reg).
  { destruct Hcases as [[_ [-> _]]|[_ [-> _]]].
    - apply Hseg. now left.
    - intros H. simpl in H. intuition discriminate. }
  split; [apply parsed_full_reference|].
  rewrite (proj1 (parsed_full_reference ref chart_name reg init lp)).
  split; [destruct ref; [discriminate | discriminate]|].
  split; [unfold has_placeholder; now rewrite Hc2, Hc3|].
  unfold parsed. destruct (rpartition ":" lp) as [[a b]|] eqn:E;
    cbn [name tag registry repository digest size chart_source].
  - apply rpartition_sound in E as [-> Hb].
    repeat split; try assumption; eauto.
    + intros H. apply Hlp. apply in_or_app. now left.
    + intros H. apply Hlp. apply in_or_app. right. now right.
  - repeat split; try assumption; eauto;
      intros H; simpl in H; intuition discriminate.
Qed.

Lemma parsed_reference_fields_witness :
  _parse_image_reference $"'r.io:5000/team/app:1.0'" $"web"
  = Ok (Some (mkImageInfo $"app" $"1.0" $"r.io:5000" $"team/app"
                          $"r.io:5000/team/app:1.0" $"web" None None))
  /\ full_reference (mkImageInfo $"app" $"1.0" $"r.io:5000" $"team/app"
                                 $"r.io:5000/team/app:1.0" $"web" None None)
     = clean_reference $"'r.io:5000/team/app:1.0'"
  /\ ~ In ":"%char $"1.0".
Proof.
  pose proof (parsed_reference_fields
                $"'r.io:5000/team/app:1.0'" $"web"
                (mkImageInfo $"app" $"1.0" $"r.io:5000" $"team/app"
                             $"r.io:5000/team/app:1.0" $"web" None None)
                eq_refl) as [H1 [_ [_ [_ [_ [H6 _]]]]]].
  split; [reflexivity|]. split; [exact H1 | exact H6].
Defined.

(** X3.  The fullReference of every reference the parser returns is
    put together from its fields: the registry and a slash when the
    first segment reads as a registry (otherwise the registry is
    docker.io and is not part of the string), the repository, and a
    colon and the tag when the final segment carries a tag (otherwise
    the tag is latest and is not part of the string). *)
Theorem full_reference_from_fields
  (image_ref chart_name : str) (img : ImageInfo) :
  _parse_image_reference image_ref chart_name = Ok (Some img) ->
  full_reference img
  = (if has_registry (full_reference img) then registry img ++ $"/" else [])
    ++ repository img
    ++ (if has_tag (full_reference img) then $":" ++ tag img else [])
  /\ (has_registry (full_reference img) = false -> registry img = $"docker.io")
  /\ (has_tag (full_reference img) = false -> tag img = $"latest").
Proof.
  intros Hparse.
  destruct (parse_accepted_shape image_ref chart_name img Hparse)
    as [reg [init [lp [p0 [rest [-> [_ [Hs [Hlast Hcases]]]]]]]]].
  set (ref := clean_reference image_ref) in *.
  rewrite (proj1 (parsed_full_reference ref chart_name reg init lp)).
  assert (Hjoin := join_split_slash ref). rewrite Hs in Hjoin.
  unfold has_registry, has_tag. rewrite Hlast, Hs.
  assert (Hrepo :
            repository (parsed ref chart_name reg init lp)
            ++ (if contains $":" lp
                then $":" ++ tag (parsed ref chart_name reg init lp) else [])
            = join $"/" (init ++ [lp])
            /\ (contains $":" lp = false ->
                tag (parsed ref chart_name reg init lp) = $"latest")).
  { unfold parsed. destruct (contains $":" lp) eqn:Hc.
    - destruct (rsplit1_contains ":" lp Hc) as [a [b [_ [E Hb]]]].
      rewrite E at 1 2. rewrite (rpartition_complete ":" a b Hb).
      cbn [repository tag]. split; [|discriminate].
      rewrite E. exact (join_snoc_app $"/" init a (":"%char :: b)).
    - assert (Hn : rpartition ":" lp = None).
      { apply rpartition_None. now apply contains_char_false. }
      rewrite Hn. cbn [repository tag]. now rewrite app_nil_r. }
  destruct Hrepo as [Hrepo Hlatest].
  assert (Hregistry : registry (parsed ref chart_name reg init lp) = reg).
  { unfold parsed. now destruct (rpartition ":" lp) as [[? ?]|]. }
  rewrite Hregistry.
  destruct Hcases as [[Hr [-> <-]]|[Hr [-> E]]]; rewrite Hr.
  - split; [|split; [discriminate | exact Hlatest]].
    rewrite <- app_assoc, Hrepo, <- Hjoin.
    now rewrite join_cons by (destruct init; discriminate).
  - split; [|split; [reflexivity | exact Hlatest]].
    cbn [app]. now rewrite Hrepo, E.
Qed.

Lemma full_reference_from_fields_witness :
  _parse_image_reference $"myorg/app" $"web"
  = Ok (Some (mkImageInfo $"app" $"latest" $"docker.io" $"myorg/app"
                          $"myorg/app" $"web" None None))
  /\ $"myorg/app" = [] ++ $"myorg/app" ++ [].
Proof.
  pose proof (full_reference_from_fields
                $"myorg/app" $"web"
                (mkImageInfo $"app" $"latest" $"docker.io" $"myorg/app"
                             $"myorg/app" $"web" None None)
                eq_refl) as [H _].
  split; [reflexivity | exact H].
Defined.

(** ** The walk over a document *)

Lemma in_option_list {A : Type} (o : option A) (a : A) :
  In a (option_list o) <-> o = Some a.
Proof.
  destruct o as [b|]; simpl; split; try tauto; try discriminate.
  - intros [->|[]]. reflexivity.
  - intros [= ->]. now left.
Qed.

Lemma image_string_scalar s ref : ~ image_string (YStr s) ref.
Proof. intros H. inversion H. Qed.

Lemma image_string_other b ref : ~ image_string (YScalar b) ref.
Proof. intros H. inversion H. Qed.

Lemma image_string_opaque b ref : ~ image_string (YOpaque b) ref.
Proof. intros H. inversion H. Qed.

Lemma found_in_items_cons chart_name item items img :
  found_in_items chart_name (item :: items) img
  <-> (is_container item = true
       /\ exists s, image_string item s
                    /\ _parse_image_reference s chart_name = Ok (Some img))
      \/ found_in_items chart_name items img.
Proof.
  unfold found_in_items. split.
  - intros [s [it [[<-|Hin] [Hc [Hs Hp]]]]]; [left; eauto | right; eauto 6].
  - intros [[Hc [s [Hs Hp]]]|[s [it [Hin H]]]].
    + exists s, item. simpl. tauto.
    + exists s, it. simpl. tauto.
Qed.

Lemma found_in_entries_cons chart_name key value entries img :
  found_in_entries chart_name ((key, value) :: entries) img
  <-> (exists k s, key = KStr k /\ value = YStr s /\ lower k = $"image"
                   /\ _parse_image_reference s chart_name = Ok (Some img))
      \/ (is_container value = true
          /\ exists s, image_string value s
                       /\ _parse_image_reference s chart_name = Ok (Some img))
      \/ found_in_entries chart_name entries img.
Proof.
  unfold found_in_entries. split.
  - intros [[k [s [[E|Hin] [Hk Hp]]]]|[k [v [s [[E|Hin] [Hc [Hs Hp]]]]]]].
    + injection E as -> ->. left. eauto 6.
    + right; right; left. eauto 6.
    + injection E as -> ->. right; left. eauto.
    + right; right; right. eauto 8.
  - intros [[k [s [-> [-> [Hk Hp]]]]]|[[Hc [s [Hs Hp]]]|[[k [s [Hin H]]]|[k [v [s [Hin H]]]]]]].
    + left. exists k, s. simpl. tauto.
    + right. exists key, value, s. simpl. tauto.
    + left. exists k, s. simpl. tauto.
    + right. exists k, v, s. simpl. tauto.
Qed.

Lemma image_string_list items s :
  image_string (YList items) s
  <-> exists item, In item items /\ is_container item = true
                   /\ image_string item s.
Proof.
  split.
  - intros H. inversion H; subst. eauto.
  - intros [item [Hin [Hc Hs]]]. now apply (image_below_item items item).
Qed.

Lemma image_string_dict entries s :
  image_string (YDict entries) s
  <-> (exists key, In (KStr key, YStr s) entries /\ lower key = $"image")
      \/ (exists key value, In (key, value) entries
                            /\ is_container value = true
                            /\ image_string value s).
Proof.
  split.
  - intros H. inversion H; subst; [left | right]; eauto.
  - intros [[key [Hin Hk]]|[key [value [Hin [Hc Hs]]]]].
    + now apply (image_here entries key).
    + now apply (image_below_key entries key value).
Qed.

Lemma keys_have_lower_dict key value entries :
  keys_have_lower (YDict ((key, value) :: entries))
  = match key with KOther => false | _ => true end
    && keys_have_lower value && keys_have_lower (YDict entries).
Proof. reflexivity. Qed.

Lemma keys_have_lower_list item items :
  keys_have_lower (YList (item :: items))
  = keys_have_lower item && keys_have_lower (YList items).
Proof. reflexivity. Qed.

(** One turn of the loop over the entries of a mapping. *)
Lemma walk_dict_cons key value entries chart_name :
  _extract_images_from_yaml (YDict ((key, value) :: entries)) chart_name
  = (found <-
       (lowered <- key_lower key ;;
        match value with
        | YStr s =>
            if is_image_key lowered
            then img_info <- _parse_image_reference s chart_name ;;
                 Ok (option_list img_info)
            else Ok []
        | YDict _ | YList _ => _extract_images_from_yaml value chart_name
        | YScalar _ | YOpaque _ => Ok []
        end) ;;
     rest <- _extract_images_from_yaml (YDict entries) chart_name ;;
     Ok (found ++ rest)).
Proof. reflexivity. Qed.

(** One turn of the loop over the items of a sequence. *)
Lemma walk_list_cons item items chart_name :
  _extract_images_from_yaml (YList (item :: items)) chart_name
  = (found <-
       match item with
       | YDict _ | YList _ => _extract_images_from_yaml item chart_name
       | _ => Ok []
       end ;;
     rest <- _extract_images_from_yaml (YList items) chart_name ;;
     Ok (found ++ rest)).
Proof. reflexivity. Qed.

Lemma outcome_bind b1 b2 r1 r2 (P1 P2 : ImageInfo -> Prop) :
  outcome b1 r1 P1 -> outcome b2 r2 P2 ->
  outcome (b1 && b2)
          (found <- r1 ;; rest <- r2 ;; Ok (found ++ rest))
          (fun img => P1 img \/ P2 img).
Proof.
  unfold outcome. destruct b1; cbn [andb].
  - intros [l1 [-> H1]]. cbn [bind]. destruct b2.
    + intros [l2 [-> H2]]. cbn [bind]. exists (l1 ++ l2).
      split; [reflexivity|]. intros img. rewrite in_app_iff, H1, H2. tauto.
    + intros ->. reflexivity.
  - intros ->. reflexivity.
Qed.

Lemma outcome_ext b r (P Q : ImageInfo -> Prop) :
  (forall img, P img <-> Q img) -> outcome b r P -> outcome b r Q.
Proof.
  unfold outcome. intros H. destruct b; [|tauto].
  intros [l [Hl Hiff]]. exists l. split; [exact Hl|].
  intros img. rewrite Hiff. apply H.
Qed.

Lemma outcome_nil (P : ImageInfo -> Prop) :
  (forall img, ~ P img) -> outcome true (Ok []) P.
Proof.
  intros H. exists []. split; [reflexivity|]. intros img.
  split; [intros [] | apply H].
Qed.

Lemma extract_images_from_yaml_finds chart_name :
  forall yaml_obj,
    outcome (keys_have_lower yaml_obj)
            (_extract_images_from_yaml yaml_obj chart_name)
            (fun img => exists s, image_string yaml_obj s
                                  /\ _parse_image_reference s chart_name
                                     = Ok (Some img)).
Proof.
  fix IH 1. intros [s0|b|b|items|entries].
  - apply outcome_nil. intros img [s [H _]]. now apply image_string_scalar in H.
  - apply outcome_nil. intros img [s [H _]]. now apply image_string_other in H.
  - apply outcome_nil. intros img [s [H _]]. now apply image_string_opaque in H.
  - apply (outcome_ext _ _ (found_in_items chart_name items)).
    { intros img. unfold found_in_items. split.
      - intros [s [item [Hin [Hc [Hs Hp]]]]]. exists s. split; [|exact Hp].
        apply image_string_list. eauto.
      - intros [s [Hs Hp]].
        apply image_string_list in Hs as [item [Hin [Hc Hs]]]. eauto 6. }
    induction items as [|item items IHitems].
    + apply outcome_nil. intros img [s [it [[] _]]].
    + rewrite keys_have_lower_list, walk_list_cons.
      apply (outcome_ext
               _ _
               (fun img =>
                  (is_container item = true
                   /\ exists s, image_string item s
                                /\ _parse_image_reference s chart_name
                                   = Ok (Some img))
                  \/ found_in_items chart_name items img)).
      { intros img. symmetry. apply found_in_items_cons. }
      apply outcome_bind; [|exact IHitems].
      pose proof (IH item) as Hitem.
      destruct item as [s0|b|b|l|es];
        try (apply outcome_nil; intros img [H _]; discriminate).
      * refine (outcome_ext _ _ _ _ _ Hitem).
        intros img. cbn [is_container]. tauto.
      * refine (outcome_ext _ _ _ _ _ Hitem).
        intros img. cbn [is_container]. tauto.
  - apply (outcome_ext _ _ (found_in_entries chart_name entries)).
    { intros img. unfold found_in_entries. split.
      - intros [[key [s [Hin [Hk Hp]]]]|[key [value [s [Hin [Hc [Hs Hp]]]]]]].
        + exists s. split; [|exact Hp]. apply image_string_dict. left. eauto.
        + exists s. split; [|exact Hp]. apply image_string_dict. right. eauto.
      - intros [s [Hs Hp]].
        apply image_string_dict in Hs
          as [[key [Hin Hk]]|[key [value [Hin [Hc Hs]]]]].
        + left. eauto.
        + right. eauto 8. }
    induction entries as [|[key value] entries IHentries].
    + apply outcome_nil.
      intros img [[k [s [[] _]]]|[k [v [s [[] _]]]]].
    + rewrite keys_have_lower_dict, walk_dict_cons.
      apply (outcome_ext
               _ _
               (fun img =>
                  ((exists k s, key = KStr k /\ value = YStr s
                                /\ lower k = $"image"
                                /\ _parse_image_reference s chart_name
                                   = Ok (Some img))
                   \/ (is_container value = true
                       /\ exists s, image_string value s
                                    /\ _parse_image_reference s chart_name
                                       = Ok (Some img)))
                  \/ found_in_entries chart_name entries img)).
      { intros img. rewrite found_in_entries_cons. tauto. }
      apply outcome_bind; [|exact IHentries].
      pose proof (IH value) as Hvalue.
      destruct key as [k| |].
      * (* a string key *)
        cbn [key_lower bind andb is_image_key].
        destruct value as [s0|b|b|l|es].
        -- destruct (eqb (lower k) $"image") eqn:Hk.
           ++ apply eqb_eq in Hk.
              destruct (parse_image_reference_total s0 chart_name) as [r Hr].
              rewrite Hr. cbn [bind]. exists (option_list r).
              split; [reflexivity|]. intros img. rewrite in_option_list.
              split.
              ** intros ->. left. eauto 8.
              ** intros [[k' [s [[= <-] [[= <-] [_ Hp]]]]]|[H _]];
                   [congruence | discriminate].
           ++ apply eqb_neq in Hk. apply outcome_nil.
              intros img [[k' [s [[= <-] [_ [Hk' _]]]]]|[H _]];
                [contradiction | discriminate].
        -- apply outcome_nil.
           intros img [[k' [s [_ [H _]]]]|[H _]]; discriminate.
        -- apply outcome_nil.
           intros img [[k' [s [_ [H _]]]]|[H _]]; discriminate.
        -- refine (outcome_ext _ _ _ _ _ Hvalue).
           intros img. cbn [is_container]. split; [tauto|].
               intros [[k' [s [_ [H _]]]]|[_ H]]; [discriminate | exact H].
        -- refine (outcome_ext _ _ _ _ _ Hvalue).
           intros img. cbn [is_container]. split; [tauto|].
               intros [[k' [s [_ [H _]]]]|[_ H]]; [discriminate | exact H].
      * (* a binary key *)
        cbn [key_lower bind andb is_image_key].
        destruct value as [s0|b|b|l|es].
        -- apply outcome_nil.
           intros img [[k' [s [H _]]]|[H _]]; discriminate.
        -- apply outcome_nil.
           intros img [[k' [s [H _]]]|[H _]]; discriminate.
        -- apply outcome_nil.
           intros img [[k' [s [H _]]]|[H _]]; discriminate.
        -- refine (outcome_ext _ _ _ _ _ Hvalue).
           intros img. cbn [is_container]. split; [tauto|].
               intros [[k' [s [H _]]]|[_ H]]; [discriminate | exact H].
        -- refine (outcome_ext _ _ _ _ _ Hvalue).
           intros img. cbn [is_container]. split; [tauto|].
               intros [[k' [s [H _]]]|[_ H]]; [discriminate | exact H].
      * (* a key without lower() *)
        reflexivity.
Qed.

(** What the walk returns when it returns. *)
Lemma extract_images_from_yaml_found chart_name yaml_obj l img :
  _extract_images_from_yaml yaml_obj chart_name = Ok l ->
  In img l ->
  exists s, image_string yaml_obj s
            /\ _parse_image_reference s chart_name = Ok (Some img).
Proof.
  intros Hl Hin.
  pose proof (extract_images_from_yaml_finds chart_name yaml_obj) as H.
  unfold outcome in H. revert H. destruct (keys_have_lower yaml_obj).
  - intros [l' [Hl' Hiff]]. rewrite Hl in Hl'. injection Hl' as <-.
    now apply Hiff.
  - rewrite Hl. discriminate.
Qed.


(** ** The scanners *)

Lemma parse_placeholder_rejected image_ref chart_name :
  contains $"{{" image_ref || contains $"}}" image_ref = true ->
  _parse_image_reference image_ref chart_name = Ok None.
Proof.
  intros H. apply parse_rejected.
  rewrite clean_reference_open, clean_reference_close, <- orb_assoc, H.
  apply orb_true_r.
Qed.

Lemma accepted_app chart_name a b :
  accepted chart_name (a ++ b) = accepted chart_name a ++ accepted chart_name b.
Proof. unfold accepted. apply flat_map_app. Qed.

Lemma accepted_In chart_name refs img :
  In img (accepted chart_name refs)
  <-> exists ref, In ref refs
                  /\ _parse_image_reference ref chart_name = Ok (Some img).
Proof.
  unfold accepted. rewrite in_flat_map. split.
  - intros [ref [Hin H]]. exists ref. split; [exact Hin|].
    destruct (_parse_image_reference ref chart_name) as [[i|]|e];
      simpl in H; try tauto. destruct H as [->|[]]. reflexivity.
  - intros [ref [Hin H]]. exists ref. split; [exact Hin|]. rewrite H. now left.
Qed.

(** The loop of an annotation stops at the first value that raises. *)
Lemma try_append_each_values chart_name values images :
  try_append_each (fun image_ref => parse_image_value image_ref chart_name)
                  values images
  = images ++ accepted chart_name (strings_before_raise values).
Proof.
  revert images; induction values as [|v values IH]; intros images.
  - simpl. now rewrite app_nil_r.
  - cbn [try_append_each strings_before_raise].
    destruct v as [s|b|b|l|es]; cbn [parse_image_value truthy].
    + cbn [accepted flat_map].
      destruct (parse_image_reference_total s chart_name) as [[img|] ->].
      * rewrite IH. unfold accepted. now rewrite <- app_assoc.
      * now rewrite IH.
    + destruct b; [now rewrite app_nil_r | apply IH].
    + destruct b; [now rewrite app_nil_r | apply IH].
    + destruct (negb (is_empty l)); [now rewrite app_nil_r | apply IH].
    + destruct (negb (is_empty es)); [now rewrite app_nil_r | apply IH].
Qed.

Lemma scan_annotation_accepted loaded chart_name images :
  scan_annotation loaded chart_name images
  = images ++ accepted chart_name (annotation_strings loaded).
Proof.
  unfold scan_annotation, annotation_strings.
  destruct loaded as [image_list|e]; [|now rewrite app_nil_r].
  destruct (image_values image_list) as [values|e]; [|now rewrite app_nil_r].
  apply try_append_each_values.
Qed.

Lemma parse_chart_annotations_accepted chart_path chart_name :
  _parse_chart_annotations chart_path chart_name
  = match cd_chart_yaml chart_path with
    | None => Raise FileNotFoundError
    | Some (Raise e) => Raise e
    | Some (Ok None) => Raise AttributeError
    | Some (Ok (Some chart_yaml)) =>
        match cy_annotations chart_yaml with
        | None => Ok []
        | Some (YDict annotations) =>
            Ok (accepted chart_name (declared_strings chart_path annotations))
        | Some _ => Raise AttributeError
        end
    end.
Proof.
  unfold _parse_chart_annotations.
  destruct (cd_chart_yaml chart_path) as [[[chart_yaml|]|e]|];
    try reflexivity.
  cbn [bind].
  destruct (cy_annotations chart_yaml) as [[s|b|b|l|annotations]|];
    try reflexivity.
  cbn [bind]. unfold declared_strings. rewrite accepted_app. f_equal.
  destruct (ylookup annotations $"images") as [v1|];
    destruct (ylookup annotations $"artifacthub.io/images") as [v2|];
    try destruct (truthy v1); try destruct (truthy v2);
    rewrite ?scan_annotation_accepted; cbn [app accepted flat_map];
    rewrite ?app_nil_r; reflexivity.
Qed.

Lemma try_append_each_accepted chart_name f refs images :
  (forall ref, f ref = _parse_image_reference ref chart_name) ->
  try_append_each f refs images = images ++ accepted chart_name refs.
Proof.
  intros Hf. revert images; induction refs as [|ref refs IH]; intros images.
  - simpl. now rewrite app_nil_r.
  - cbn [try_append_each accepted flat_map]. rewrite Hf.
    destruct (parse_image_reference_total ref chart_name) as [[img|] ->].
    + rewrite IH. unfold accepted. now rewrite <- app_assoc.
    + now rewrite IH.
Qed.

Lemma parse_templates_manually_accepted chart_path chart_name :
  _parse_templates_manually chart_path chart_name
  = accepted chart_name (template_strings chart_path).
Proof.
  unfold _parse_templates_manually, template_strings.
  destruct (cd_templates chart_path) as [files|]; [|reflexivity].
  assert (H : forall images,
             fold_left
               (fun images file =>
                  match file with
                  | Raise _ => images
                  | Ok matches =>
                      try_append_each
                        (fun image_ref =>
                           if negb (contains $"{{" image_ref
                                    || contains $"}}" image_ref)
                           then _parse_image_reference image_ref chart_name
                           else Ok None)
                        matches images
                  end)
               files images
             = images
               ++ accepted chart_name
                    (flat_map (fun file => match file with
                                           | Ok matches => matches
                                           | Raise _ => []
                                           end) files)).
  { induction files as [|[matches|e] files IH]; intros images.
    - simpl. now rewrite app_nil_r.
    - cbn [fold_left flat_map]. rewrite IH.
      rewrite (try_append_each_accepted chart_name).
      + now rewrite accepted_app, app_assoc.
      + intros ref.
        destruct (contains $"{{" ref || contains $"}}" ref) eqn:Hp;
          [|reflexivity].
        cbn [negb]. symmetry. now apply parse_placeholder_rejected.
    - cbn [fold_left flat_map app]. apply IH. }
  apply (H []).
Qed.

(** X5.  The declared-metadata scanner raises only outside its
    handlers: when Chart.yaml does not load, is no mapping, or holds
    annotations that are no mapping.  Otherwise it returns, for the
    images annotation and then for the artifacthub.io/images
    annotation, the parses of the image strings of the entries up to
    the first entry whose image is a true value that is not a string:
    what was read before such an entry stays, the entries after it are
    lost, and an annotation that does not load or cannot be iterated
    gives nothing and leaves the other one alone.  The textual
    fallback returns the parses of the tokens of the template files
    that could be read, in order; its own test for placeholder markers
    removes nothing the parser would have kept. *)
Theorem string_scanners_keep_accepted
  (chart_path : ChartDir) (chart_name : str) :
  _parse_chart_annotations chart_path chart_name
  = match cd_chart_yaml chart_path with
    | None => Raise FileNotFoundError
    | Some (Raise e) => Raise e
    | Some (Ok None) => Raise AttributeError
    | Some (Ok (Some chart_yaml)) =>
        match cy_annotations chart_yaml with
        | None => Ok []
        | Some (YDict annotations) =>
            Ok (accepted chart_name (declared_strings chart_path annotations))
        | Some _ => Raise AttributeError
        end
    end
  /\ (forall before value after,
        (forall s, value <> YStr s) -> truthy value = true ->
        strings_before_raise (map YStr before ++ value :: after) = before)
  /\ _parse_templates_manually chart_path chart_name
     = accepted chart_name (template_strings chart_path)
  /\ (forall refs img,
        In img (accepted chart_name refs)
        <-> exists ref, In ref refs
                        /\ _parse_image_reference ref chart_name = Ok (Some img))
  /\ (forall refs,
        map full_reference (accepted chart_name refs)
        = map clean_reference
              (filter (fun ref => negb (is_empty (accepted chart_name [ref])))
                      refs)).
Proof.
  split; [apply parse_chart_annotations_accepted|].
  split.
  { intros before value after Hns Ht.
    induction before as [|s before IH]; cbn [map app strings_before_raise].
    - destruct value as [s|b|b|l|es]; [now destruct (Hns s)| | | |];
        now rewrite Ht.
    - now rewrite IH. }
  split; [apply parse_templates_manually_accepted|].
  split; [intros refs img; apply accepted_In|].
  intros refs. induction refs as [|ref refs IH]; [reflexivity|].
  change (ref :: refs) with ([ref] ++ refs) at 1.
  rewrite accepted_app, map_app, IH. cbn [filter].
  unfold accepted at 1 3. cbn [flat_map]. rewrite !app_nil_r.
  destruct (parse_outcome ref chart_name)
    as [[_ Hp]|[[_ [reg [_ Hp]]]|[_ [reg [init [lp [_ Hp]]]]]]];
    rewrite Hp; try reflexivity.
  cbn [is_empty negb map app].
  now rewrite (proj1 (parsed_full_reference _ chart_name reg init lp)).
Qed.

(** ** The chart tree, by induction *)

Lemma ChartDir_tree_ind (P : ChartDir -> Prop) :
  (forall path chart_yaml load_images load_artifacthub updated rendered values
          files charts,
     Forall P charts ->
     P (mkChartDir path chart_yaml load_images load_artifacthub updated
                   rendered values files charts)) ->
  forall chart_path, P chart_path.
Proof.
  intros Hstep. fix IH 1.
  intros [path chart_yaml load_images load_artifacthub updated rendered values
          files charts].
  apply Hstep. induction charts as [|d charts IHc]; constructor.
  - apply IH.
  - exact IHc.
Qed.

Lemma descendants_eq info :
  descendants info
  = flat_map (fun d => d :: descendants d) (ci_dependencies info).
Proof.
  destruct info as [n v p deps imgs]. cbn [descendants ci_dependencies].
  induction deps as [|d deps IH]; [reflexivity|].
  cbn [flat_map]. now rewrite IH.
Qed.

Lemma descendants_In info d :
  In d (descendants info)
  <-> exists dep, In dep (ci_dependencies info)
                  /\ (d = dep \/ In d (descendants dep)).
Proof.
  rewrite descendants_eq, in_flat_map. split.
  - intros [dep [Hin [<-|H]]]; exists dep; tauto.
  - intros [dep [Hin [->|H]]]; exists dep; simpl; tauto.
Qed.

Lemma unique_images_incl images img :
  In img (unique_images images) -> In img images.
Proof.
  intros Hin. destruct (unique_images_last_wins images) as [_ H].
  specialize (H (full_reference img)).
  assert (Hf : In img (filter (fun i => eqb (full_reference i) (full_reference img))
                              (unique_images images))).
  { apply filter_In. split; [exact Hin | apply eqb_refl]. }
  rewrite H in Hf. apply in_option_list in Hf.
  unfold last_with_ref in Hf. apply find_some in Hf as [Hf _].
  now apply in_rev.
Qed.

Lemma extend_each_In {A B : Type} (f : A -> res (list B)) xs l b :
  extend_each f xs = Ok l -> In b l ->
  exists x r, In x xs /\ f x = Ok r /\ In b r.
Proof.
  revert l; induction xs as [|x xs IH]; intros l; simpl.
  - intros [= <-] [].
  - destruct (f x) as [r|e] eqn:Hx; [|discriminate]. cbn [bind].
    destruct (extend_each f xs) as [rs|e]; [|discriminate]. cbn [bind].
    intros [= <-] Hin. apply in_app_or in Hin as [Hin|Hin].
    + exists x, r. tauto.
    + destruct (IH rs eq_refl Hin) as [x' [r' [Hx' H]]]. exists x', r'. tauto.
Qed.

(** Every candidate, and so every image a node finds, is a parse made
    for that node. *)
Lemma candidate_images_parsed chart_path chart_name images img :
  candidate_images chart_path chart_name = Ok images ->
  In img images ->
  exists s, _parse_image_reference s chart_name = Ok (Some img).
Proof.
  intros Hc Hin.
  assert (Hwalk : forall y l, _extract_images_from_yaml y chart_name = Ok l ->
                              In img l ->
                              exists s, _parse_image_reference s chart_name
                                        = Ok (Some img)).
  { intros y l Hl Hi.
    destruct (extract_images_from_yaml_found chart_name y l img Hl Hi)
      as [s [_ Hp]]. eauto. }
  unfold candidate_images in Hc.
  destruct (_parse_chart_annotations chart_path chart_name)
    as [declared|e] eqn:Hd; [|discriminate].
  destruct (_extract_images_from_templates chart_path chart_name)
    as [t|e] eqn:Ht; [|discriminate].
  destruct (_parse_values_for_images chart_path chart_name)
    as [v|e] eqn:Hv; [|discriminate].
  cbn [bind app] in Hc. injection Hc as <-. rewrite !in_app_iff in Hin.
  destruct Hin as [[Hi|Hi]|Hi].
  - rewrite parse_chart_annotations_accepted in Hd.
    destruct (cd_chart_yaml chart_path) as [[[chart_yaml|]|e]|];
      try discriminate.
    destruct (cy_annotations chart_yaml) as [[s|b|b|l|annotations]|];
      try discriminate; injection Hd as <-; [|destruct Hi].
    apply accepted_In in Hi as [s [_ H]]. eauto.
  - unfold _extract_images_from_templates in Ht.
    destruct (cd_helm_template chart_path) as [documents|e].
    + unfold scan_rendered in Ht.
      destruct (extend_each_In _ _ _ _ Ht Hi) as [y [r [_ [Hy Hir]]]].
      destruct (truthy y); [eapply Hwalk; eauto|].
      injection Hy as <-. destruct Hir.
    + destruct e; try discriminate. injection Ht as <-.
      rewrite parse_templates_manually_accepted, accepted_In in Hi.
      destruct Hi as [s [_ H]]. eauto.
  - unfold _parse_values_for_images in Hv.
    destruct (extend_each_In _ _ _ _ Hv Hi) as [loaded [r [_ [Hr Hir]]]].
    destruct loaded as [y|e]; [eapply Hwalk; eauto|].
    destruct e; try discriminate. injection Hr as <-. destruct Hir.
Qed.

Lemma discover_images_parsed chart_path chart_name own img :
  _discover_images chart_path chart_name = Ok own ->
  In img own ->
  exists s, _parse_image_reference s chart_name = Ok (Some img).
Proof.
  unfold _discover_images.
  destruct (candidate_images chart_path chart_name)
    as [images|e] eqn:Hc; [|discriminate].
  cbn [bind]. intros [= <-] Hin. apply unique_images_incl in Hin.
  now apply (candidate_images_parsed chart_path chart_name images).
Qed.

Lemma tree_images_parsed :
  forall chart_path info,
    analyze_chart chart_path = Ok info ->
    forall img, In img (ci_images info) ->
    exists node s,
      In node (info :: descendants info)
      /\ _parse_image_reference s (ci_name node) = Ok (Some img).
Proof.
  apply (ChartDir_tree_ind
           (fun chart_path =>
              forall info, analyze_chart chart_path = Ok info ->
              forall img, In img (ci_images info) ->
              exists node s,
                In node (info :: descendants info)
                /\ _parse_image_reference s (ci_name node) = Ok (Some img))).
  intros path chart_yaml load_images load_artifacthub updated rendered values
         files charts IH info Ha img Hin.
  destruct (analyze_chart_result _ _ Ha)
    as [y [own [_ [_ [_ [_ [Hown [_ [Himgs Htrace]]]]]]]]].
  rewrite Himgs in Hin. apply in_app_or in Hin as [Hin|Hin].
  - destruct (discover_images_parsed _ _ _ _ Hown Hin) as [s Hs].
    exists info, s. split; [now left | exact Hs].
  - apply in_flat_map in Hin as [dep [Hdep Hin]].
    destruct (Htrace dep Hdep) as [dep_path [Hpath Hdeppath]].
    cbn [cd_charts] in Hpath.
    rewrite Forall_forall in IH.
    destruct (IH dep_path Hpath dep Hdeppath img Hin) as [node [s [Hnode Hs]]].
    exists node, s. split; [|exact Hs]. right.
    apply descendants_In. exists dep. split; [exact Hdep|].
    destruct Hnode as [<-|Hnode]; tauto.
Qed.

(** X6.  Every image on the list of an analysed node was parsed for
    that node or for a node below it, whose name it carries as its
    chart; its digest and size are unset, and its fullReference is not
    empty and holds no placeholder marker. *)
Theorem tree_images_name_their_chart
  (chart_path : ChartDir) (info : ChartInfo) (img : ImageInfo) :
  analyze_chart chart_path = Ok info ->
  In img (ci_images info) ->
  (exists node, In node (info :: descendants info)
                /\ chart_source img = ci_name node)
  /\ digest img = None /\ size img = None
  /\ full_reference img <> []
  /\ has_placeholder (full_reference img) = false.
Proof.
  intros Ha Hin.
  destruct (tree_images_parsed chart_path info Ha img Hin)
    as [node [s [Hnode Hs]]].
  destruct (parse_accepted_shape s (ci_name node) img Hs)
    as [reg [init [lp [p0 [rest [-> [Hc _]]]]]]].
  destruct (parsed_full_reference (clean_reference s) (ci_name node) reg init lp)
    as [Hfull Hsrc].
  apply orb_false_iff in Hc as [Hc Hc3]. apply orb_false_iff in Hc as [Hc1 Hc2].
  split; [exists node; split; [exact Hnode | exact Hsrc]|].
  rewrite Hfull. unfold has_placeholder. rewrite Hc2, Hc3.
  unfold parsed. destruct (rpartition ":" lp) as [[a b]|];
    cbn [digest size]; repeat split; try reflexivity;
    destruct (clean_reference s); discriminate.
Qed.

Lemma tree_images_name_their_chart_witness :
  (analyze_chart root_chart = Ok root_info
   /\ In unpullable_image (ci_images root_info))
  /\ (exists node, In node (root_info :: descendants root_info)
                   /\ chart_source unpullable_image = ci_name node)
  /\ digest unpullable_image = None /\ size unpullable_image = None
  /\ full_reference unpullable_image <> []
  /\ has_placeholder (full_reference unpullable_image) = false.
Proof.
  assert (Hin : In unpullable_image (ci_images root_info))
    by (right; left; reflexivity).
  split; [split; [reflexivity | exact Hin]|].
  exact (tree_images_name_their_chart root_chart root_info unpullable_image
                                      eq_refl Hin).
Defined.

Lemma infix_of_refl {A : Type} (l : list A) : infix_of l l.
Proof. exists [], []. now rewrite app_nil_r. Qed.

Lemma infix_of_trans {A : Type} (a b c : list A) :
  infix_of a b -> infix_of b c -> infix_of a c.
Proof.
  intros [p1 [q1 ->]] [p2 [q2 ->]]. exists (p2 ++ p1), (q1 ++ q2).
  now rewrite <- !app_assoc.
Qed.

Lemma infix_of_flat_map {A B : Type} (f : A -> list B) (l : list A) (a : A) :
  In a l -> infix_of (f a) (flat_map f l).
Proof.
  intros Hin. apply in_split in Hin as [l1 [l2 ->]].
  exists (flat_map f l1), (flat_map f l2). now rewrite flat_map_app.
Qed.

Lemma infix_of_app_r {A : Type} (a b pre : list A) :
  infix_of a b -> infix_of a (pre ++ b).
Proof.
  intros [p [q ->]]. exists (pre ++ p), q. now rewrite <- app_assoc.
Qed.

Lemma infix_of_incl {A : Type} (a b : list A) : infix_of a b -> incl a b.
Proof.
  intros [p [q ->]] x Hx. apply in_or_app. right. apply in_or_app. now left.
Qed.

Lemma infix_of_length {A : Type} (a b : list A) :
  infix_of a b -> List.length a <= List.length b.
Proof.
  intros [p [q ->]]. rewrite !length_app.
  apply Nat.le_trans with (List.length a + List.length q).
  - apply Nat.le_add_r.
  - apply Nat.le_add_l.
Qed.

Lemma descendant_images_infix :
  forall chart_path info,
    analyze_chart chart_path = Ok info ->
    forall d, In d (descendants info) ->
              infix_of (ci_images d) (ci_images info).
Proof.
  apply (ChartDir_tree_ind
           (fun chart_path =>
              forall info, analyze_chart chart_path = Ok info ->
              forall d, In d (descendants info) ->
                        infix_of (ci_images d) (ci_images info))).
  intros path chart_yaml load_images load_artifacthub updated rendered values
         files charts IH info Ha d Hd.
  destruct (analyze_chart_result _ _ Ha)
    as [y [own [_ [_ [_ [_ [_ [_ [Himgs Htrace]]]]]]]]].
  apply descendants_In in Hd as [dep [Hdep Hd]].
  assert (Hdepinfo : infix_of (ci_images dep) (ci_images info)).
  { rewrite Himgs. apply infix_of_app_r. now apply infix_of_flat_map. }
  destruct Hd as [->|Hd]; [exact Hdepinfo|].
  destruct (Htrace dep Hdep) as [dep_path [Hpath Hdeppath]].
  cbn [cd_charts] in Hpath. rewrite Forall_forall in IH.
  apply infix_of_trans with (ci_images dep); [|exact Hdepinfo].
  exact (IH dep_path Hpath dep Hdeppath d Hd).
Qed.

(** X7.  The image list of an analysed node is transitively complete:
    the image list of every node below it, at any depth, occurs in it
    as one run of consecutive entries, in the same order and with its
    repetitions; so every image of a descendant is an image of the
    node. *)
Theorem descendant_images_are_kept
  (chart_path : ChartDir) (info d : ChartInfo) :
  analyze_chart chart_path = Ok info ->
  In d (descendants info) ->
  infix_of (ci_images d) (ci_images info)
  /\ incl (ci_images d) (ci_images info)
  /\ List.length (ci_images d) <= List.length (ci_images info).
Proof.
  intros Ha Hd.
  pose proof (descendant_images_infix chart_path info Ha d Hd) as H.
  split; [exact H|]. split; [now apply infix_of_incl | now apply infix_of_length].
Qed.

Lemma descendant_images_are_kept_witness :
  (analyze_chart top_chart = Ok (info_of top_chart)
   /\ In (info_of dependency_two) (descendants (info_of top_chart)))
  /\ infix_of (ci_images (info_of dependency_two)) (ci_images (info_of top_chart))
  /\ incl (ci_images (info_of dependency_two)) (ci_images (info_of top_chart))
  /\ List.length (ci_images (info_of dependency_two))
     <= List.length (ci_images (info_of top_chart)).
Proof.
  assert (Hd : In (info_of dependency_two) (descendants (info_of top_chart)))
    by (right; left; reflexivity).
  split; [split; [reflexivity | exact Hd]|].
  exact (descendant_images_are_kept top_chart (info_of top_chart)
                                    (info_of dependency_two) eq_refl Hd).
Defined.

(** ** Failures of an analysis *)

Lemma discover_images_with_charts chart_path charts chart_name :
  _discover_images (with_charts chart_path charts) chart_name
  = _discover_images chart_path chart_name.
Proof. destruct chart_path; reflexivity. Qed.

(** Whether the dependencies are read does not depend on the archives,
    neither does the exception raised when they are not. *)
Lemma discover_dependencies_with_charts chart_path charts chart_yaml :
  match _discover_dependencies analyze_chart chart_path chart_yaml with
  | Ok _ =>
      exists dependencies,
        _discover_dependencies analyze_chart (with_charts chart_path charts)
                               chart_yaml = Ok dependencies
  | Raise e =>
      _discover_dependencies analyze_chart (with_charts chart_path charts)
                             chart_yaml = Raise e
  end.
Proof.
  destruct chart_path as [path y li la updated rendered values files charts0].
  unfold _discover_dependencies, with_charts.
  cbn [cd_path cd_chart_yaml cd_load_images cd_load_artifacthub
       cd_dependency_update cd_helm_template cd_values cd_templates cd_charts].
  destruct (cy_dependencies chart_yaml) as [deps|]; [|eauto].
  destruct (truthy deps); cbn [negb]; [|eauto].
  destruct (py_len deps) as [u|e]; [|reflexivity]. cbn [bind].
  destruct updated as [u'|e]; [cbn [bind]; eauto|].
  destruct e; cbn [bind]; eauto.
Qed.

(** X8.  The archives under charts/ bear on the analysis of their
    parent only through the dependency list and the images appended
    from it: for the same Chart.yaml, files and answers of helm,
    whether the analysis returns, the exception it raises when it does
    not, and the name, the version, the path and the own images of the
    node it returns are the same whatever archives are there and
    however their analyses end.  No dependency, present, absent or
    failing, makes the analysis of its parent fail. *)
Theorem analyze_chart_outcome (chart_path : ChartDir) (charts : list ChartDir) :
  match analyze_chart chart_path with
  | Ok info =>
      exists info' own,
        analyze_chart (with_charts chart_path charts) = Ok info'
        /\ ci_name info' = ci_name info
        /\ ci_version info' = ci_version info
        /\ ci_path info' = ci_path info
        /\ _discover_images chart_path (ci_name info) = Ok own
        /\ ci_images info = own ++ flat_map ci_images (ci_dependencies info)
        /\ ci_images info' = own ++ flat_map ci_images (ci_dependencies info')
  | Raise e => analyze_chart (with_charts chart_path charts) = Raise e
  end.
Proof.
  rewrite (analyze_chart_eq (with_charts chart_path charts)).
  rewrite (analyze_chart_eq chart_path).
  replace (cd_chart_yaml (with_charts chart_path charts))
    with (cd_chart_yaml chart_path) by (destruct chart_path; reflexivity).
  replace (cd_path (with_charts chart_path charts))
    with (cd_path chart_path) by (destruct chart_path; reflexivity).
  destruct (cd_chart_yaml chart_path) as [[[chart_yaml|]|e]|];
    try reflexivity.
  cbn [bind]. cbv zeta.
  rewrite discover_images_with_charts.
  pose proof (discover_dependencies_with_charts chart_path charts chart_yaml)
    as Hdeps.
  destruct (_discover_dependencies analyze_chart chart_path chart_yaml)
    as [dependencies|e].
  - destruct Hdeps as [dependencies' ->]. cbn [bind].
    destruct (_discover_images chart_path
                (get_default (cy_name chart_yaml) $"unknown"))
      as [own|e] eqn:Hown; [|reflexivity].
    cbn [bind]. eexists. exists own. split; [reflexivity|].
    cbn [ci_name ci_version ci_path ci_images ci_dependencies].
    repeat split. exact Hown.
  - rewrite Hdeps. reflexivity.
Qed.

Lemma analyze_each_without analyze l1 bad l2 e :
  analyze bad = Raise e ->
  analyze_each analyze (l1 ++ bad :: l2) = analyze_each analyze (l1 ++ l2).
Proof.
  intros Hbad. induction l1 as [|d l1 IH]; simpl.
  - now rewrite Hbad.
  - now rewrite IH.
Qed.

(** X9.  A dependency archive whose own analysis fails is left out and
    changes nothing else: the analysis of the parent is the one it
    would be without that archive.  When Chart.yaml declares no
    dependency, the archives under charts/ are not looked at. *)
Theorem failing_dependency_is_left_out
  (path : str) (chart_yaml : option (res (option ChartYaml)))
  (load_images load_artifacthub : res yaml) (updated : res unit)
  (rendered : res (list yaml)) (values : list (res yaml))
  (files : option (list (res (list str))))
  (before after : list ChartDir) (bad : ChartDir) (e : exn) :
  analyze_chart bad = Raise e ->
  analyze_chart (mkChartDir path chart_yaml load_images load_artifacthub
                            updated rendered values files
                            (before ++ bad :: after))
  = analyze_chart (mkChartDir path chart_yaml load_images load_artifacthub
                              updated rendered values files
                              (before ++ after))
  /\ (forall y charts,
        chart_yaml = Some (Ok (Some y)) ->
        match cy_dependencies y with
        | None => True
        | Some deps => truthy deps = false
        end ->
        analyze_chart (mkChartDir path chart_yaml load_images load_artifacthub
                                  updated rendered values files charts)
        = analyze_chart (mkChartDir path chart_yaml load_images
                                    load_artifacthub updated rendered values
                                    files [])).
Proof.
  intros Hbad. split.
  - rewrite !analyze_chart_eq. cbn [cd_chart_yaml cd_path].
    destruct chart_yaml as [[[y|]|e']|]; try reflexivity.
    cbn [bind]. cbv zeta. unfold _discover_dependencies. cbn [cd_charts].
    rewrite (analyze_each_without analyze_chart before bad after e Hbad).
    reflexivity.
  - intros y charts -> Hdeps. rewrite !analyze_chart_eq.
    cbn [cd_chart_yaml cd_path bind]. cbv zeta.
    unfold _discover_dependencies.
    destruct (cy_dependencies y) as [deps|]; [|reflexivity].
    rewrite Hdeps. reflexivity.
Qed.

Lemma failing_dependency_is_left_out_witness :
  analyze_chart broken_dependency
  = Raise (ValueError $"Chart.yaml not found in /tmp/broken")
  /\ analyze_chart root_chart
     = analyze_chart
         (sample_dir $"/charts/root" "root" [$"one"; $"two"; $"broken"]
                     [$"a/x:1"; $"r.io/w:4"; $"a/x:1"]
                     (Ok []) [image_entry "a/x:1"] None
                     ([dependency_one] ++ [dependency_two])).
Proof.
  split; [reflexivity|].
  exact (proj1 (failing_dependency_is_left_out
                  $"/charts/root" (Some (Ok (Some root_yaml)))
                  (Ok (YList (map (fun ref => YDict [(KStr $"image", YStr ref)])
                                  [$"a/x:1"; $"r.io/w:4"; $"a/x:1"])))
                  (Raise YAMLError) (Ok tt) (Ok [])
                  [Ok (image_entry "a/x:1")] None
                  [dependency_one] [dependency_two] broken_dependency
                  (ValueError $"Chart.yaml not found in /tmp/broken")
                  eq_refl)).
Defined.

(** ** Order and idempotence of the deduplication *)

Lemma eqb_sym (a b : str) : eqb a b = eqb b a.
Proof.
  destruct (eqb_spec a b) as [->|H]; [now rewrite eqb_refl|].
  symmetry. apply eqb_neq. congruence.
Qed.

Lemma existsb_eqb_In (k : str) (l : list str) :
  existsb (eqb k) l = true <-> In k l.
Proof.
  rewrite existsb_exists. split.
  - intros [x [Hin Hx]]. apply eqb_eq in Hx. now subst.
  - intros Hin. exists k. split; [exact Hin | apply eqb_refl].
Qed.

Lemma dict_set_new {V : Type} (d : dict V) (k : str) (v : V) :
  ~ In k (map fst d) -> dict_set d k v = d ++ [(k, v)].
Proof.
  induction d as [|[k0 v0] d IH]; simpl; intros H; [reflexivity|].
  destruct (eqb_spec k0 k) as [->|_]; [exfalso; apply H; now left|].
  rewrite IH; [reflexivity|]. intros Hin. apply H. now right.
Qed.

Lemma dict_set_old_keys {V : Type} (d : dict V) (k : str) (v : V) :
  In k (map fst d) -> map fst (dict_set d k v) = map fst d.
Proof.
  induction d as [|[k0 v0] d IH]; simpl; intros H; [destruct H|].
  destruct (eqb_spec k0 k) as [->|Hne]; [reflexivity|].
  simpl. rewrite IH; [reflexivity|]. destruct H as [H|H]; [congruence | exact H].
Qed.

Lemma new_keys_ext (s1 s2 l : list str) :
  (forall y, In y s1 <-> In y s2) -> new_keys s1 l = new_keys s2 l.
Proof.
  revert s1 s2; induction l as [|x l IH]; intros s1 s2 H; [reflexivity|].
  simpl.
  assert (E : existsb (eqb x) s1 = existsb (eqb x) s2).
  { apply eq_iff_eq_true. rewrite !existsb_eqb_In. apply H. }
  rewrite E. destruct (existsb (eqb x) s2).
  - now apply IH.
  - f_equal. apply IH. intros y. simpl. rewrite H. tauto.
Qed.

Lemma new_keys_length (seen l : list str) :
  List.length (new_keys seen l) <= List.length l.
Proof.
  revert seen; induction l as [|x l IH]; intros seen; simpl; [apply Nat.le_refl|].
  destruct (existsb (eqb x) seen).
  - apply Nat.le_trans with (List.length l); [apply IH | apply Nat.le_succ_diag_r].
  - simpl. apply le_n_S, IH.
Qed.

Lemma fold_add_image_keys images d :
  map fst (fold_left add_image images d)
  = map fst d ++ new_keys (map fst d) (map full_reference images).
Proof.
  revert d; induction images as [|img images IH]; intros d.
  - simpl. now rewrite app_nil_r.
  - cbn [fold_left map new_keys]. rewrite IH. unfold add_image.
    destruct (existsb (eqb (full_reference img)) (map fst d)) eqn:E.
    + apply existsb_eqb_In in E. now rewrite (dict_set_old_keys d _ img E).
    + assert (Hn : ~ In (full_reference img) (map fst d)).
      { intros H. apply existsb_eqb_In in H. congruence. }
      rewrite (dict_set_new d _ img Hn), map_app. cbn [map fst].
      rewrite <- app_assoc. cbn [app]. do 2 f_equal.
      apply new_keys_ext. intros y. rewrite in_app_iff. simpl. tauto.
Qed.

Lemma fold_add_image_fresh images d :
  NoDup (map full_reference images) ->
  (forall img, In img images -> ~ In (full_reference img) (map fst d)) ->
  fold_left add_image images d
  = d ++ map (fun img => (full_reference img, img)) images.
Proof.
  revert d; induction images as [|img images IH]; intros d Hnd Hfresh.
  - simpl. now rewrite app_nil_r.
  - inversion Hnd as [|? ? Hhead Htail]; subst.
    cbn [fold_left map]. unfold add_image at 2.
    rewrite (dict_set_new d _ img (Hfresh img (or_introl eq_refl))).
    rewrite IH; [now rewrite <- app_assoc| exact Htail |].
    intros i Hi. rewrite map_app, in_app_iff. simpl.
    intros [H|[H|[]]].
    + apply (Hfresh i); [now right | exact H].
    + apply Hhead. rewrite H. now apply in_map.
Qed.

Lemma unique_images_fixed images :
  NoDup (map full_reference images) -> unique_images images = images.
Proof.
  intros Hnd. unfold unique_images. fold add_image.
  rewrite (fold_add_image_fresh images [] Hnd) by (intros img _ []).
  unfold dict_values. cbn [app]. rewrite map_map. cbn [snd]. apply map_id.
Qed.

(** X10.  Deduplication keeps the fullReferences in the order of their
    first occurrence (the entry kept for each being its last one), is
    idempotent, returns a list without repeated fullReference as it
    is, and never returns more entries than it was given. *)
Theorem unique_images_order_and_idempotence (images : list ImageInfo) :
  map full_reference (unique_images images)
  = first_occurrences (map full_reference images)
  /\ unique_images (unique_images images) = unique_images images
  /\ (NoDup (map full_reference images) -> unique_images images = images)
  /\ List.length (unique_images images) <= List.length images.
Proof.
  assert (Hrefs : map full_reference (unique_images images)
                  = first_occurrences (map full_reference images)).
  { unfold unique_images. fold add_image.
    rewrite (keyed_values_refs _ (unique_images_keyed images)).
    now rewrite fold_add_image_keys. }
  split; [exact Hrefs|]. split; [|split].
  - apply unique_images_fixed. apply unique_images_last_wins.
  - apply unique_images_fixed.
  - rewrite <- (length_map full_reference (unique_images images)), Hrefs.
    rewrite <- (length_map full_reference images). apply new_keys_length.
Qed.

Lemma unique_images_order_and_idempotence_witness :
  NoDup (map full_reference (unique_images root_candidates))
  /\ unique_images (unique_images root_candidates) = unique_images root_candidates
  /\ map full_reference (unique_images root_candidates)
     = first_occurrences (map full_reference root_candidates).
Proof.
  destruct (unique_images_order_and_idempotence root_candidates)
    as [Horder [Hidem [_ _]]].
  destruct (unique_images_order_and_idempotence (unique_images root_candidates))
    as [_ [_ [Hfixed _]]].
  split; [|split; [exact Hidem | exact Horder]].
  rewrite Horder. repeat constructor; simpl; intuition discriminate.
Defined.

(** ** Archive names *)

Lemma replace_char (c d : ascii) (s : str) :
  replace [c] [d] s = map (fun x => if Ascii.eqb x c then d else x) s.
Proof.
  unfold replace. induction s as [|x s IH]; [reflexivity|].
  cbn [replace_go startswith List.length Nat.sub map].
  rewrite andb_true_r, (Ascii.eqb_sym c x).
  destruct (Ascii.eqb x c); cbn [app]; now rewrite IH.
Qed.

Lemma image_filename_eq (full_ref : str) :
  image_filename full_ref = map sanitize full_ref ++ $".tar".
Proof.
  unfold image_filename. change $"/" with [("/"%char)].
  change $":" with [(":"%char)]. change $"_" with [("_"%char)].
  rewrite !replace_char, map_map. f_equal. apply map_ext. intros x.
  unfold sanitize. destruct (Ascii.eqb_spec x "/") as [->|H1]; [reflexivity|].
  cbn [orb]. reflexivity.
Qed.

Lemma sanitize_not_separator (x : ascii) :
  sanitize x <> "/"%char /\ sanitize x <> ":"%char.
Proof.
  unfold sanitize.
  destruct (Ascii.eqb_spec x "/") as [->|H1]; [split; discriminate|].
  destruct (Ascii.eqb_spec x ":") as [->|H2]; [split; discriminate|].
  cbn [orb]. now split.
Qed.

(** X11.  The archive name of an image is its fullReference with every
    slash and every colon turned into an underscore, followed by .tar:
    it holds neither slash nor colon and is four characters longer than
    the reference.  A slash, a colon and an underscore at the same place
    of two references give the same archive name. *)
Theorem image_filename_sanitizes (full_ref : str) :
  image_filename full_ref = map sanitize full_ref ++ $".tar"
  /\ ~ In "/"%char (image_filename full_ref)
  /\ ~ In ":"%char (image_filename full_ref)
  /\ List.length (image_filename full_ref) = List.length full_ref + 4
  /\ (forall a b,
        image_filename (a ++ $"/" ++ b) = image_filename (a ++ $"_" ++ b)
        /\ image_filename (a ++ $":" ++ b) = image_filename (a ++ $"_" ++ b)).
Proof.
  rewrite image_filename_eq.
  assert (Hsep : forall c, c = "/"%char \/ c = ":"%char ->
                           ~ In c (map sanitize full_ref ++ $".tar")).
  { intros c Hc Hin. apply in_app_or in Hin as [Hin|Hin].
    - apply in_map_iff in Hin as [x [Hx _]].
      destruct (sanitize_not_separator x) as [H1 H2].
      destruct Hc; subst c; contradiction.
    - simpl in Hin. destruct Hc; subst c; intuition discriminate. }
  split; [reflexivity|]. split; [apply Hsep; now left|].
  split; [apply Hsep; now right|].
  split; [now rewrite length_app, length_map|].
  intros a b. rewrite !image_filename_eq, !map_app. split; reflexivity.
Qed.

(** ** Digests *)

Lemma fold_pull_images client images st :
  ps_images (fold_left (pull_and_save_one client) images st)
  = ps_images st ++ map (after_pull client) images.
Proof.
  revert st; induction images as [|image images IH]; intros st.
  - simpl. now rewrite app_nil_r.
  - cbn [fold_left map]. rewrite IH. unfold pull_and_save_one, after_pull.
    destruct (images_pull client (full_reference image)) as [p|e].
    + destruct (save_error p); cbn [ps_images]; now rewrite <- app_assoc.
    + cbn [ps_images]. now rewrite <- app_assoc.
Qed.

Lemma after_pull_full_reference client image :
  full_reference (after_pull client image) = full_reference image.
Proof.
  unfold after_pull. destruct (images_pull client (full_reference image)) as [p|e];
    [destruct (save_error p)|]; reflexivity.
Qed.

Lemma create_bundle_images_in_memory client date chart_files chart_info
  output_path :
  is_empty (ci_images chart_info) = false ->
  images_in_memory (create_bundle (Some client) date chart_files chart_info
                                  output_path true)
  = map (after_pull client) (ci_images chart_info).
Proof.
  intros Hne. unfold create_bundle. cbn [andb]. rewrite Hne. cbn [negb].
  rewrite pull_and_save_images_eq. cbn [images_in_memory]. unfold pull_run.
  now rewrite fold_pull_images.
Qed.

Lemma parsed_digest_unset image_ref chart_name img :
  _parse_image_reference image_ref chart_name = Ok (Some img) ->
  digest img = None /\ size img = None.
Proof.
  intros Hparse.
  destruct (parse_accepted_shape image_ref chart_name img Hparse)
    as [reg [init [lp [p0 [rest [-> _]]]]]].
  unfold parsed. destruct (rpartition ":" lp) as [[a b]|]; now split.
Qed.

(** X12.  Packaging an analysed chart with embedding records the
    digest of every image whose pull and save succeed on the image in
    memory only: the list in memory has the same fullReferences in the
    same order and holds that image with its digest set to the id of the
    pulled image, while the manifest, written before the pulls, lists
    every image with no digest. *)
Theorem digests_are_not_persisted
  (chart_path : ChartDir) (chart_info : ChartInfo)
  (client : DockerClient) (date : str) (chart_files : ChartTree)
  (output_path : str) (image : ImageInfo) (pulled : DockerImage) :
  analyze_chart chart_path = Ok chart_info ->
  In image (ci_images chart_info) ->
  images_pull client (full_reference image) = Ok pulled ->
  save_error pulled = None ->
  let b := create_bundle (Some client) date chart_files chart_info
                         output_path true in
  map full_reference (images_in_memory b)
  = map full_reference (ci_images chart_info)
  /\ In (set_digest image (image_id pulled)) (images_in_memory b)
  /\ digest (set_digest image (image_id pulled)) = Some (image_id pulled)
  /\ exists manifest,
       bundle_yaml (bundle b) = Some manifest
       /\ manifest_images manifest = ci_images chart_info
       /\ forall img, In img (manifest_images manifest) -> digest img = None.
Proof.
  intros Ha Hin Hpull Hsave b.
  assert (Hne : is_empty (ci_images chart_info) = false).
  { destruct (ci_images chart_info); [destruct Hin | reflexivity]. }
  unfold b. rewrite (create_bundle_images_in_memory _ _ _ _ _ Hne).
  split.
  { rewrite map_map. apply map_ext. intros i. apply after_pull_full_reference. }
  split.
  { apply in_map_iff. exists image. split; [|exact Hin].
    unfold after_pull. now rewrite Hpull, Hsave. }
  split; [reflexivity|].
  destruct (create_bundle_manifest_images date chart_files chart_info
                                          output_path) as [manifest [Hm [Hi _]]].
  exists manifest. split; [now rewrite create_bundle_manifest|].
  split; [exact Hi|]. intros img Himg. rewrite Hi in Himg.
  destruct (tree_images_parsed chart_path chart_info Ha img Himg)
    as [node [s [_ Hs]]].
  now apply (parsed_digest_unset s (ci_name node)).
Qed.

Lemma digests_are_not_persisted_witness :
  (analyze_chart root_chart = Ok root_info
   /\ In pullable_image (ci_images root_info)
   /\ images_pull (sample_client true) (full_reference pullable_image)
      = Ok (mkDockerImage $"sha256:a/x:1" [$"layers of "; $"a/x:1"] None)
   /\ save_error (mkDockerImage $"sha256:a/x:1" [$"layers of "; $"a/x:1"] None)
      = None)
  /\ map full_reference (images_in_memory sample_bundled)
     = map full_reference (ci_images root_info)
  /\ In (set_digest pullable_image $"sha256:a/x:1")
        (images_in_memory sample_bundled)
  /\ digest (set_digest pullable_image $"sha256:a/x:1") = Some $"sha256:a/x:1"
  /\ exists manifest,
       bundle_yaml (bundle sample_bundled) = Some manifest
       /\ manifest_images manifest = ci_images root_info
       /\ forall img, In img (manifest_images manifest) -> digest img = None.
Proof.
  assert (Hin : In pullable_image (ci_images root_info))
    by (left; reflexivity).
  split; [repeat split; [exact Hin]|].
  exact (digests_are_not_persisted
           root_chart root_info (sample_client true)
           $"2024-01-01T00:00:00+00:00" sample_tree $"out" pullable_image
           (mkDockerImage $"sha256:a/x:1" [$"layers of "; $"a/x:1"] None)
           eq_refl Hin eq_refl eq_refl).
Defined.

(** ** Import: what is asked of the runtime *)

Lemma import_one_try_actions self client files target_project original_ref w :
  exists extra,
    actions (fst (import_one_try self client files target_project
                                 original_ref w))
    = actions w ++ extra
    /\ Forall (image_action self target_project files original_ref) extra
    /\ chart (fst (import_one_try self client files target_project
                                  original_ref w)) = chart w.
Proof.
  unfold import_one_try. rewrite generate_harbor_reference_eq.
  destruct (dict_get files (image_filename original_ref)) as [content|] eqn:Hf.
  2:{ exists []. cbn. rewrite app_nil_r. repeat split. constructor. }
  assert (Hfile : dict_get files (image_filename original_ref) <> None)
    by (rewrite Hf; discriminate).
  assert (Hok : forall a,
             match a with
             | DockerLoad f => f = image_filename original_ref
             | DockerTag _ r | DockerPush r =>
                 r = relocation_target (harbor_host self) target_project
                                       original_ref
             | DockerRemove _ => True
             | _ => False
             end ->
             image_action self target_project files original_ref a)
    by (intros a Ha; split; assumption).
  assert (Hnil : Forall (image_action self target_project files original_ref)
                        []) by constructor.
  destruct (images_load client content) as [[|loaded rest]|e].
  - eexists [_]. cbn. split; [reflexivity|]. split; [|reflexivity].
    constructor; [now apply Hok | exact Hnil].
  - destruct (image_tag client loaded _) as [u|e].
    + destruct (images_push client _) as [u'|e].
      * destruct (images_remove client _) as [u''|e];
          eexists [_; _; _; _]; cbn; rewrite <- !app_assoc;
          (split; [reflexivity|]); (split; [|reflexivity]);
          repeat (apply Forall_cons; [now apply Hok|]); exact Hnil.
      * eexists [_; _; _]. cbn. rewrite <- !app_assoc.
        split; [reflexivity|]. split; [|reflexivity].
        repeat (apply Forall_cons; [now apply Hok|]); exact Hnil.
    + eexists [_; _]. cbn. rewrite <- !app_assoc.
      split; [reflexivity|]. split; [|reflexivity].
      repeat (apply Forall_cons; [now apply Hok|]); exact Hnil.
  - eexists [_]. cbn. split; [reflexivity|]. split; [|reflexivity].
    constructor; [now apply Hok | exact Hnil].
Qed.

Lemma import_one_actions self client files target_project w image_info :
  exists extra,
    actions (import_one self client files target_project w image_info)
    = actions w ++ extra
    /\ Forall (image_action self target_project files
                            (full_reference image_info)) extra
    /\ chart (import_one self client files target_project w image_info)
       = chart w.
Proof.
  unfold import_one.
  destruct (import_one_try_actions self client files target_project
                                   (full_reference image_info) w)
    as [extra [Ha [Hall Hc]]].
  destruct (import_one_try self client files target_project
                           (full_reference image_info) w) as [w' [e|]];
    exists extra; cbn in *; auto.
Qed.

Lemma import_loop_actions self client files target_project images_info w :
  exists extra,
    actions (fold_left (import_one self client files target_project)
                       images_info w)
    = actions w ++ extra
    /\ Forall (fun a => exists image_info,
                 In image_info images_info
                 /\ image_action self target_project files
                                 (full_reference image_info) a) extra
    /\ chart (fold_left (import_one self client files target_project)
                        images_info w) = chart w.
Proof.
  revert w; induction images_info as [|i images IH]; intros w.
  - exists []. simpl. rewrite app_nil_r. repeat split. constructor.
  - cbn [fold_left].
    destruct (import_one_actions self client files target_project w i)
      as [e1 [Ha1 [Hall1 Hc1]]].
    destruct (IH (import_one self client files target_project w i))
      as [e2 [Ha2 [Hall2 Hc2]]].
    exists (e1 ++ e2). rewrite Ha2, Ha1, <- app_assoc.
    split; [reflexivity|]. split; [|now rewrite Hc2].
    apply Forall_app. split.
    + apply (Forall_impl _ (P := image_action self target_project files
                                              (full_reference i))); [|exact Hall1].
      intros a Ha. exists i. split; [now left | exact Ha].
    + apply (Forall_impl _ (P := fun a => exists image_info,
                                  In image_info images
                                  /\ image_action self target_project files
                                       (full_reference image_info) a));
        [|exact Hall2].
      intros a [i' [Hi Ha]]. exists i'. split; [now right | exact Ha].
Qed.

(** The image step: it returns, and what it asked of the runtime. *)
Lemma import_images_actions self bundle_dir images_info target_project w :
  exists w1 extra,
    _import_images self bundle_dir images_info target_project w = Ok w1
    /\ actions w1 = actions w ++ extra
    /\ chart w1 = chart w
    /\ ((docker_client self = None \/ images_dir bundle_dir = None) ->
        extra = [])
    /\ Forall (fun a =>
                 a = DockerLogin (harbor_host self)
                 \/ exists files image_info,
                      images_dir bundle_dir = Some files
                      /\ In image_info images_info
                      /\ image_action self target_project files
                                      (full_reference image_info) a) extra.
Proof.
  unfold _import_images.
  destruct (docker_client self) as [client|].
  2:{ eexists. exists []. cbn. rewrite app_nil_r. repeat split. constructor. }
  destruct (images_dir bundle_dir) as [files|].
  2:{ eexists. exists []. cbn. rewrite app_nil_r. repeat split. constructor. }
  destruct (login client _ _ _) as [u|e].
  - set (w0 := act (DockerLogin (harbor_host self))
                   (logging (InfoImporting (List.length images_info)) w)).
    destruct (import_loop_actions self client files target_project
                                  images_info w0) as [extra [Ha [Hall Hc]]].
    eexists. exists (DockerLogin (harbor_host self) :: extra).
    split; [reflexivity|]. rewrite Ha. cbn. rewrite <- app_assoc.
    split; [reflexivity|]. split; [exact Hc|].
    split; [intros [H|H]; discriminate|].
    constructor; [now left|].
    apply (Forall_impl _ (P := fun a => exists image_info,
                                 In image_info images_info
                                 /\ image_action self target_project files
                                      (full_reference image_info) a));
      [|exact Hall].
    intros a [i [Hi Ha']]. right. exists files, i. auto.
  - eexists. exists [DockerLogin (harbor_host self)]. cbn.
    repeat split; try (intros [H|H]; discriminate).
    constructor; [now left | constructor].
Qed.

(** The chart step: it returns, and asks helm only. *)
Lemma import_chart_actions self bundle_dir chart_info target_project
  images_info w :
  exists w2 extra,
    _import_chart self bundle_dir chart_info target_project images_info w
    = Ok w2
    /\ actions w2 = actions w ++ extra
    /\ match chart_dir bundle_dir with
       | None => extra = [] /\ chart w2 = chart w
                 /\ In ErrorNoChartDirectory (log w2)
       | Some tree =>
           let relocated :=
             fst (_relocate_chart_images
                    tree (fold_left (add_mapping self target_project)
                                    images_info [])) in
           chart w2 = Some relocated
           /\ exists more,
                extra = HelmPackage relocated :: more
                /\ forall a, In a more -> exists package url,
                                            a = HelmPush package url
       end.
Proof.
  unfold _import_chart. destruct (chart_dir bundle_dir) as [tree|].
  - rewrite build_image_mapping_eq. cbn [bind].
    destruct (_relocate_chart_images tree _) as [relocated l] eqn:E.
    set (w' := mkWorld _ _ _).
    destruct (push_chart_actions self relocated target_project w')
      as [more [Hact [Hmore [Hc _]]]].
    eexists. exists (HelmPackage relocated :: more).
    split; [reflexivity|]. split; [exact Hact|]. cbn [fst].
    split; [now rewrite Hc|]. now exists more.
  - eexists. exists []. cbn. rewrite app_nil_r. repeat split.
    apply in_or_app. right. now left.
Qed.

Lemma import_bundle_steps self bundle_dir others target_project manifest :
  bundle_yaml bundle_dir = Some manifest ->
  exists w1 w2 e1 e2,
    _import_images self bundle_dir (manifest_images manifest) target_project
                   (mkWorld [] [InfoImportingBundle] (chart_dir bundle_dir))
    = Ok w1
    /\ _import_chart self bundle_dir (manifest_chart manifest) target_project
                     (manifest_images manifest) w1 = Ok w2
    /\ import_bundle self (bundle_dir :: others) target_project
       = Ok (logging InfoBundleImported w2)
    /\ actions w1 = e1 /\ actions w2 = e1 ++ e2
    /\ forall a, In a e2 -> is_docker_action a = false.
Proof.
  intros Hm. unfold import_bundle. rewrite Hm.
  set (w0 := mkWorld [] [InfoImportingBundle] (chart_dir bundle_dir)).
  destruct (import_images_actions self bundle_dir (manifest_images manifest)
                                  target_project w0)
    as [w1 [e1 [H1 [Ha1 _]]]].
  destruct (import_chart_actions self bundle_dir (manifest_chart manifest)
                                 target_project (manifest_images manifest) w1)
    as [w2 [e2 [H2 [Ha2 Hcase]]]].
  exists w1, w2, e1, e2. rewrite H1. cbn [bind]. rewrite H2. cbn [bind].
  repeat split; auto.
  - rewrite Ha2, Ha1. reflexivity.
  - intros a Ha. destruct (chart_dir bundle_dir).
    + destruct Hcase as [_ [more [-> Hmore]]]. destruct Ha as [<-|Ha];
        [reflexivity|]. destruct (Hmore a Ha) as [p [u ->]]. reflexivity.
    + destruct Hcase as [-> _]. destruct Ha.
Qed.

Lemma create_bundle_chart_dir docker date chart_files chart_info output_path
  pull_images :
  chart_dir (bundle (create_bundle docker date chart_files chart_info
                                   output_path pull_images))
  = Some chart_files.
Proof.
  unfold create_bundle.
  destruct (pull_images && negb (is_empty (ci_images chart_info))).
  - destruct (_pull_and_save_images docker (ci_images chart_info))
      as [[d i] l]. reflexivity.
  - reflexivity.
Qed.

(** X13.  Importing the directory of a bundle that create_bundle wrote
    does not raise: whatever the container runtime, the registry and
    helm answer, and whether or not images were embedded, the import
    returns and reports success, having relocated the chart with the
    mapping of the manifest's images and asked helm to package it.
    An archive that unpacks to no directory raises a ValueError, and a
    first directory without bundle.yaml raises the error of the
    missing file. *)
Theorem import_bundle_outcome
  (self : HelmPackImporter) (docker : option DockerClient) (date : str)
  (chart_files : ChartTree) (chart_info : ChartInfo) (output_path : str)
  (pull_images : bool) (others : list BundleDir) (target_project : str) :
  let bundle_dir := bundle (create_bundle docker date chart_files chart_info
                                          output_path pull_images) in
  let relocated :=
    fst (_relocate_chart_images
           chart_files
           (fold_left (add_mapping self target_project)
                      (ci_images chart_info) [])) in
  (exists w,
     import_bundle self (bundle_dir :: others) target_project = Ok w
     /\ In InfoBundleImported (log w)
     /\ chart w = Some relocated
     /\ In (HelmPackage relocated) (actions w))
  /\ import_bundle self [] target_project
     = Raise (ValueError $"No bundle directory found in archive")
  /\ (forall other,
        bundle_yaml other = None ->
        import_bundle self (other :: others) target_project
        = Raise FileNotFoundError).
Proof.
  intros bundle_dir relocated. split; [|split; [reflexivity|]].
  2:{ intros other Hnone. unfold import_bundle. now rewrite Hnone. }
  destruct (create_bundle_manifest_images date chart_files chart_info
                                          output_path)
    as [manifest [Hm [Himages Hinfo]]].
  rewrite <- (create_bundle_manifest docker date chart_files chart_info
                                     output_path pull_images) in Hm.
  fold bundle_dir in Hm.
  pose proof (create_bundle_chart_dir docker date chart_files chart_info
                                      output_path pull_images) as Hc.
  fold bundle_dir in Hc.
  destruct (import_bundle_steps self bundle_dir others target_project
                                manifest Hm)
    as [w1 [w2 [e1 [e2 [H1 [H2 [Hw [Ha1 [Ha2 _]]]]]]]]].
  destruct (import_chart_actions self bundle_dir (manifest_chart manifest)
                                 target_project (manifest_images manifest) w1)
    as [w2' [extra [H2' [Hact Hcase]]]].
  rewrite H2 in H2'. injection H2' as <-.
  rewrite Hc, Himages in Hcase. cbv zeta in Hcase.
  destruct Hcase as [Hchart [more [-> _]]].
  exists (logging InfoBundleImported w2). split; [exact Hw|].
  cbn [logging log actions chart]. split.
  { apply in_or_app. right. now left. }
  split; [exact Hchart|].
  rewrite Hact. apply in_or_app. right. now left.
Qed.

Lemma fold_add_mapping_get self target_project images_info d k :
  dict_get (fold_left (add_mapping self target_project) images_info d) k
  = if existsb (eqb k) (map full_reference images_info)
    then Some (relocation_target (harbor_host self) target_project k)
    else dict_get d k.
Proof.
  revert d; induction images_info as [|i images IH]; intros d;
    [reflexivity|].
  cbn [fold_left map existsb]. rewrite IH. unfold add_mapping.
  rewrite dict_get_set, (eqb_sym k).
  destruct (existsb (eqb k) (map full_reference images)).
  - now rewrite orb_true_r.
  - rewrite orb_false_r.
    destruct (eqb_spec (full_reference i) k) as [->|_]; reflexivity.
Qed.

(** X14.  Whatever an import tags or pushes is the value the relocation
    mapping holds for an image of the manifest whose archive file is
    in the bundle: nothing is pushed under another name, and nothing
    is pushed for an image without an archive file.  (What the files
    of the relocated chart then hold is another matter: a replacement
    can be rewritten again by a later key of the mapping.) *)
Theorem pushed_references_follow_the_mapping
  (self : HelmPackImporter) (bundle_dir : BundleDir) (others : list BundleDir)
  (target_project : str) (manifest : Manifest) (w : World) (r : str) :
  bundle_yaml bundle_dir = Some manifest ->
  import_bundle self (bundle_dir :: others) target_project = Ok w ->
  (In (DockerPush r) (actions w) \/ exists id, In (DockerTag id r) (actions w)) ->
  exists image_info files image_mapping,
    In image_info (manifest_images manifest)
    /\ images_dir bundle_dir = Some files
    /\ dict_get files (image_filename (full_reference image_info)) <> None
    /\ build_image_mapping self (manifest_images manifest) target_project
       = Ok image_mapping
    /\ dict_get image_mapping (full_reference image_info) = Some r.
Proof.
  intros Hm Hrun Hin.
  assert (Hsome : exists a, (a = DockerPush r \/ exists id, a = DockerTag id r)
                            /\ In a (actions w)).
  { destruct Hin as [H|[id H]]; eexists; split; try exact H; eauto. }
  destruct Hsome as [a [Hshape Ha]]. clear Hin.
  destruct (import_bundle_steps self bundle_dir others target_project manifest
                                Hm)
    as [w1 [w2 [e1 [e2 [H1 [H2 [Hw [Ha1 [Ha2 Hhelm]]]]]]]]].
  rewrite Hw in Hrun. injection Hrun as <-. cbn [logging actions] in Ha.
  rewrite Ha2 in Ha. apply in_app_or in Ha. destruct Ha as [Ha|Ha].
  2:{ apply Hhelm in Ha. destruct Hshape as [->|[id ->]]; discriminate. }
  destruct (import_images_actions
              self bundle_dir (manifest_images manifest) target_project
              (mkWorld [] [InfoImportingBundle] (chart_dir bundle_dir)))
    as [w1' [extra [H1' [Hact [_ [_ Hall]]]]]].
  rewrite H1 in H1'. injection H1' as <-. rewrite Ha1 in Hact.
  cbn [actions app] in Hact. subst e1. rewrite Hact in Ha.
  rewrite Forall_forall in Hall. destruct (Hall a Ha) as [->|Himg].
  { destruct Hshape as [H|[id H]]; discriminate. }
  destruct Himg as [files [i [Hfiles [Hi [Hfile Hkind]]]]].
  exists i, files. eexists. split; [exact Hi|]. split; [exact Hfiles|].
  split; [exact Hfile|]. split; [apply build_image_mapping_eq|].
  rewrite fold_add_mapping_get.
  assert (Hex : existsb (eqb (full_reference i))
                        (map full_reference (manifest_images manifest)) = true).
  { apply existsb_exists. exists (full_reference i). split.
    - now apply in_map.
    - apply eqb_refl. }
  rewrite Hex. destruct Hshape as [->|[id ->]]; now rewrite Hkind.
Qed.

Lemma pushed_references_follow_the_mapping_witness :
  bundle_yaml (bundle sample_bundled) = Some sample_manifest
  /\ import_bundle (sample_importer true) [bundle sample_bundled] $"library"
     = Ok sample_import
  /\ In (DockerPush $"harbor.example.com/library/y:2") (actions sample_import)
  /\ exists image_info files image_mapping,
       In image_info (manifest_images sample_manifest)
       /\ images_dir (bundle sample_bundled) = Some files
       /\ dict_get files (image_filename (full_reference image_info)) <> None
       /\ build_image_mapping (sample_importer true)
                              (manifest_images sample_manifest) $"library"
          = Ok image_mapping
       /\ dict_get image_mapping (full_reference image_info)
          = Some $"harbor.example.com/library/y:2".
Proof.
  assert (Hm : bundle_yaml (bundle sample_bundled) = Some sample_manifest)
    by reflexivity.
  assert (Hrun : import_bundle (sample_importer true) [bundle sample_bundled]
                               $"library" = Ok sample_import)
    by (vm_compute; reflexivity).
  assert (Hin : In (DockerPush $"harbor.example.com/library/y:2")
                   (actions sample_import))
    by (vm_compute; auto 20).
  split; [exact Hm|]. split; [exact Hrun|]. split; [exact Hin|].
  exact (pushed_references_follow_the_mapping
           (sample_importer true) (bundle sample_bundled) [] $"library"
           sample_manifest sample_import $"harbor.example.com/library/y:2"
           Hm Hrun (or_introl Hin)).
Defined.

(** ** Import: a bundle without image archives *)

Lemma create_bundle_without_images docker date chart_files chart_info
  output_path pull_images :
  pull_images = false \/ ci_images chart_info = [] \/ docker = None ->
  images_dir (bundle (create_bundle docker date chart_files chart_info
                                    output_path pull_images)) = None.
Proof.
  intros H. unfold create_bundle.
  destruct (pull_images && negb (is_empty (ci_images chart_info))) eqn:E;
    [|reflexivity].
  apply andb_true_iff in E. destruct E as [Ep Ei].
  destruct H as [->|[H| ->]]; [discriminate| |reflexivity].
  rewrite H in Ei. discriminate.
Qed.

(** X15.  A bundle made without pulling (pulling switched off, no image
    found, or no runtime at hand) has no image directory, and importing
    it asks nothing of the container runtime, not even a login: the
    chart is relocated with the mapping of the manifest's images, then
    packaged and, at most, pushed. *)
Theorem bundle_without_images_imports_chart_only
  (self : HelmPackImporter) (docker : option DockerClient) (date : str)
  (chart_files : ChartTree) (chart_info : ChartInfo) (output_path : str)
  (pull_images : bool) (target_project : str) :
  pull_images = false \/ ci_images chart_info = [] \/ docker = None ->
  let bundle_dir := bundle (create_bundle docker date chart_files chart_info
                                          output_path pull_images) in
  let relocated :=
    fst (_relocate_chart_images
           chart_files
           (fold_left (add_mapping self target_project)
                      (ci_images chart_info) [])) in
  images_dir bundle_dir = None
  /\ exists w more,
       import_bundle self [bundle_dir] target_project = Ok w
       /\ actions w = HelmPackage relocated :: more
       /\ (forall a, In a more -> exists package url, a = HelmPush package url)
       /\ chart w = Some relocated.
Proof.
  intros H bundle_dir relocated.
  assert (Hnone : images_dir bundle_dir = None)
    by now apply create_bundle_without_images.
  split; [exact Hnone|].
  assert (Hm : bundle_yaml bundle_dir
               = bundle_yaml (bundle (create_bundle None date chart_files
                                                    chart_info output_path
                                                    false)))
    by apply create_bundle_manifest.
  assert (Hc : chart_dir bundle_dir = Some chart_files).
  { unfold bundle_dir, create_bundle.
    destruct (pull_images && negb (is_empty (ci_images chart_info))).
    - destruct (_pull_and_save_images docker (ci_images chart_info))
        as [[d i] l]. reflexivity.
    - reflexivity. }
  destruct (create_bundle_manifest_images date chart_files chart_info
                                          output_path)
    as [manifest [Hm' [Himages Hinfo]]].
  rewrite <- Hm in Hm'.
  destruct (import_bundle_steps self bundle_dir [] target_project manifest Hm')
    as [w1 [w2 [e1 [e2 [H1 [H2 [Hw [Ha1 [Ha2 _]]]]]]]]].
  destruct (import_images_actions
              self bundle_dir (manifest_images manifest) target_project
              (mkWorld [] [InfoImportingBundle] (chart_dir bundle_dir)))
    as [w1' [extra [H1' [Hact [_ [Hnil _]]]]]].
  rewrite H1 in H1'. injection H1' as <-.
  rewrite (Hnil (or_intror Hnone)), Ha1 in Hact. cbn [actions app] in Hact.
  destruct (import_chart_actions self bundle_dir (manifest_chart manifest)
                                 target_project (manifest_images manifest) w1)
    as [w2' [extra2 [H2' [Hact2 Hcase]]]].
  rewrite H2 in H2'. injection H2' as <-.
  rewrite Hc, Himages in Hcase. destruct Hcase as [Hchart [more [-> Hmore]]].
  exists (logging InfoBundleImported w2), more.
  split; [exact Hw|]. cbn [logging actions chart].
  rewrite Hact2, Ha1, Hact. split; [reflexivity|].
  split; [exact Hmore | exact Hchart].
Qed.

Lemma bundle_without_images_imports_chart_only_witness :
  (false = false \/ ci_images root_info = []
   \/ Some (sample_client true) = None)
  /\ let bundle_dir :=
       bundle (create_bundle (Some (sample_client true)) $"today" sample_tree
                             root_info $"out" false) in
     let relocated :=
       fst (_relocate_chart_images
              sample_tree
              (fold_left (add_mapping (sample_importer true) $"library")
                         (ci_images root_info) [])) in
     images_dir bundle_dir = None
     /\ exists w more,
          import_bundle (sample_importer true) [bundle_dir] $"library" = Ok w
          /\ actions w = HelmPackage relocated :: more
          /\ (forall a, In a more ->
                        exists package url, a = HelmPush package url)
          /\ chart w = Some relocated.
Proof.
  split; [now left|].
  exact (bundle_without_images_imports_chart_only
           (sample_importer true) (Some (sample_client true)) $"today"
           sample_tree root_info $"out" false $"library"
           (or_introl eq_refl)).
Defined.

(** ** Import: one image does not stop the others *)

Lemma import_one_log_kept self client files target_project w image_info r :
  In r (log w) ->
  In r (log (import_one self client files target_project w image_info)).
Proof.
  intros Hr. unfold import_one, import_one_try.
  rewrite generate_harbor_reference_eq.
  destruct (dict_get files _) as [content|]; [|exact Hr].
  destruct (images_load client content) as [[|loaded rest]|e];
    [exact Hr| |cbn; apply in_or_app; now left].
  destruct (image_tag client loaded _) as [u|e];
    [|cbn; apply in_or_app; now left].
  destruct (images_push client _) as [u'|e];
    [|cbn; rewrite !in_app_iff; tauto].
  destruct (images_remove client _) as [u''|e];
    cbn; rewrite !in_app_iff; tauto.
Qed.

Lemma import_loop_log_kept self client files target_project images_info w r :
  In r (log w) ->
  In r (log (fold_left (import_one self client files target_project)
                       images_info w)).
Proof.
  revert w; induction images_info as [|i images IH]; intros w Hr;
    [exact Hr|].
  cbn [fold_left]. apply IH. now apply import_one_log_kept.
Qed.

Lemma import_chart_log_kept self bundle_dir chart_info target_project
  images_info w w2 r :
  _import_chart self bundle_dir chart_info target_project images_info w
  = Ok w2 ->
  In r (log w) -> In r (log w2).
Proof.
  unfold _import_chart. intros H Hr.
  destruct (chart_dir bundle_dir) as [tree|].
  - rewrite build_image_mapping_eq in H. cbn [bind] in H.
    destruct (_relocate_chart_images tree _) as [relocated l].
    injection H as <-.
    set (w' := mkWorld _ _ _).
    destruct (push_chart_actions self relocated target_project w')
      as [more [_ [_ [_ Hlog]]]].
    apply Hlog. unfold w'. cbn. rewrite !in_app_iff. tauto.
  - injection H as <-. cbn. apply in_or_app. now left.
Qed.

Lemma import_one_pushes self client files target_project w image_info
  content loaded rest :
  let harbor_ref :=
    relocation_target (harbor_host self) target_project
                      (full_reference image_info) in
  dict_get files (image_filename (full_reference image_info)) = Some content ->
  images_load client content = Ok (loaded :: rest) ->
  image_tag client loaded harbor_ref = Ok tt ->
  let w' := import_one self client files target_project w image_info in
  In (DockerTag (image_id loaded) harbor_ref) (actions w')
  /\ In (DockerPush harbor_ref) (actions w')
  /\ (forall e, images_push client harbor_ref = Raise e ->
                In (ErrorFailedToImport (full_reference image_info)) (log w'))
  /\ (images_push client harbor_ref = Ok tt ->
      In (DockerRemove (image_id loaded)) (actions w')).
Proof.
  intros harbor_ref Hfile Hload Htag w'. unfold w', import_one, import_one_try.
  rewrite generate_harbor_reference_eq, Hfile, Hload. fold harbor_ref.
  rewrite Htag.
  destruct (images_push client harbor_ref) as [[]|e] eqn:Hpush.
  - destruct (images_remove client _) as [u|e]; cbn [fst snd logging act
                                                       actions log];
      (split; [rewrite !in_app_iff; cbn; auto 10|]);
      (split; [rewrite !in_app_iff; cbn; auto 10|]);
      (split; [intros e' He'; discriminate
              |intros _; rewrite !in_app_iff; cbn; auto 10]).
  - cbn [fst snd logging act actions log].
    split; [rewrite !in_app_iff; cbn; auto 10|].
    split; [rewrite !in_app_iff; cbn; auto 10|].
    split; [intros e' _; rewrite !in_app_iff; cbn; auto 10
           |intros H; discriminate].
Qed.

Lemma import_loop_pushes self client files target_project images_info w
  image_info content loaded rest :
  let harbor_ref :=
    relocation_target (harbor_host self) target_project
                      (full_reference image_info) in
  In image_info images_info ->
  dict_get files (image_filename (full_reference image_info)) = Some content ->
  images_load client content = Ok (loaded :: rest) ->
  image_tag client loaded harbor_ref = Ok tt ->
  let w' := fold_left (import_one self client files target_project)
                      images_info w in
  In (DockerTag (image_id loaded) harbor_ref) (actions w')
  /\ In (DockerPush harbor_ref) (actions w')
  /\ (forall e, images_push client harbor_ref = Raise e ->
                In (ErrorFailedToImport (full_reference image_info)) (log w'))
  /\ (images_push client harbor_ref = Ok tt ->
      In (DockerRemove (image_id loaded)) (actions w')).
Proof.
  intros harbor_ref Hin Hfile Hload Htag w'. unfold w'.
  destruct (in_split _ _ Hin) as [l1 [l2 ->]].
  rewrite fold_left_app. cbn [fold_left].
  set (wa := fold_left (import_one self client files target_project) l1 w).
  destruct (import_one_pushes self client files target_project wa image_info
                              content loaded rest Hfile Hload Htag)
    as [Ht [Hp [Hfail Hrm]]].
  fold harbor_ref in Ht, Hp, Hfail, Hrm.
  set (wb := import_one self client files target_project wa image_info) in *.
  destruct (import_loop_actions self client files target_project l2 wb)
    as [extra [Hact _]].
  rewrite Hact, !in_app_iff. split; [now left|]. split; [now left|]. split.
  - intros e He. apply import_loop_log_kept. now apply (Hfail e).
  - intros Hpush. left. now apply Hrm.
Qed.

(** X16.  After a successful login, every image of the manifest whose
    archive file is in the bundle and which the runtime loads and tags
    is tagged and pushed under its relocation target, whatever happens
    to the other images.  When its push fails the failure is logged
    under the original reference, and the import still returns. *)
Theorem loadable_image_is_pushed
  (self : HelmPackImporter) (client : DockerClient) (bundle_dir : BundleDir)
  (others : list BundleDir) (target_project : str) (manifest : Manifest)
  (files : dict str) (image_info : ImageInfo) (content : str)
  (loaded : DockerImage) (rest : list DockerImage) :
  let harbor_ref :=
    relocation_target (harbor_host self) target_project
                      (full_reference image_info) in
  bundle_yaml bundle_dir = Some manifest ->
  docker_client self = Some client ->
  images_dir bundle_dir = Some files ->
  login client (harbor_username self) (harbor_password self)
        (harbor_host self) = Ok tt ->
  In image_info (manifest_images manifest) ->
  dict_get files (image_filename (full_reference image_info)) = Some content ->
  images_load client content = Ok (loaded :: rest) ->
  image_tag client loaded harbor_ref = Ok tt ->
  exists w,
    import_bundle self (bundle_dir :: others) target_project = Ok w
    /\ In (DockerTag (image_id loaded) harbor_ref) (actions w)
    /\ In (DockerPush harbor_ref) (actions w)
    /\ (forall e, images_push client harbor_ref = Raise e ->
                  In (ErrorFailedToImport (full_reference image_info)) (log w))
    /\ (images_push client harbor_ref = Ok tt ->
        In (DockerRemove (image_id loaded)) (actions w)).
Proof.
  intros harbor_ref Hm Hclient Hfiles Hlogin Hin Hfile Hload Htag.
  destruct (import_bundle_steps self bundle_dir others target_project manifest
                                Hm)
    as [w1 [w2 [e1 [e2 [H1 [H2 [Hw [Ha1 [Ha2 _]]]]]]]]].
  exists (logging InfoBundleImported w2). split; [exact Hw|].
  unfold _import_images in H1. rewrite Hclient, Hfiles, Hlogin in H1.
  injection H1 as H1.
  destruct (import_loop_pushes
              self client files target_project (manifest_images manifest)
              (act (DockerLogin (harbor_host self))
                   (logging (InfoImporting
                               (List.length (manifest_images manifest)))
                            (mkWorld [] [InfoImportingBundle]
                                     (chart_dir bundle_dir))))
              image_info content loaded rest Hin Hfile Hload Htag)
    as [Ht [Hp [Hfail Hrm]]].
  fold harbor_ref in Ht, Hp, Hfail, Hrm. rewrite H1 in Ht, Hp, Hfail, Hrm.
  assert (Hkeep : forall a, In a (actions w1) ->
                            In a (actions (logging InfoBundleImported w2))).
  { intros a Ha. cbn [logging actions]. rewrite Ha2, <- Ha1.
    apply in_or_app. now left. }
  split; [now apply Hkeep|]. split; [now apply Hkeep|]. split.
  - intros e He. cbn [logging log]. apply in_or_app. left.
    apply (import_chart_log_kept _ _ _ _ _ _ _ _ H2). now apply (Hfail e).
  - intros Hpush. apply Hkeep. now apply Hrm.
Qed.

Lemma loadable_image_is_pushed_witness :
  (bundle_yaml (bundle sample_bundled) = Some sample_manifest
   /\ docker_client (sample_importer true) = Some (sample_client true)
   /\ images_dir (bundle sample_bundled) = Some sample_files
   /\ login (sample_client true) (harbor_username (sample_importer true))
            (harbor_password (sample_importer true))
            (harbor_host (sample_importer true)) = Ok tt
   /\ In pushed_image (manifest_images sample_manifest)
   /\ dict_get sample_files (image_filename (full_reference pushed_image))
      = Some $"layers of c/z:3"
   /\ images_load (sample_client true) $"layers of c/z:3"
      = Ok [mkDockerImage $"layers of c/z:3" [] None]
   /\ image_tag (sample_client true)
                (mkDockerImage $"layers of c/z:3" [] None)
                (relocation_target (harbor_host (sample_importer true))
                                   $"library" (full_reference pushed_image))
      = Ok tt)
  /\ exists w,
       import_bundle (sample_importer true) [bundle sample_bundled] $"library"
       = Ok w
       /\ In (DockerTag $"layers of c/z:3"
                        (relocation_target
                           (harbor_host (sample_importer true)) $"library"
                           (full_reference pushed_image)))
             (actions w)
       /\ In (DockerPush (relocation_target
                            (harbor_host (sample_importer true)) $"library"
                            (full_reference pushed_image)))
             (actions w)
       /\ (forall e,
             images_push (sample_client true)
                         (relocation_target
                            (harbor_host (sample_importer true)) $"library"
                            (full_reference pushed_image)) = Raise e ->
             In (ErrorFailedToImport (full_reference pushed_image)) (log w))
       /\ (images_push (sample_client true)
                       (relocation_target
                          (harbor_host (sample_importer true)) $"library"
                          (full_reference pushed_image)) = Ok tt ->
           In (DockerRemove $"layers of c/z:3") (actions w)).
Proof.
  assert (Hin : In pushed_image (manifest_images sample_manifest))
    by (vm_compute; auto 20).
  assert (Hfile : dict_get sample_files
                           (image_filename (full_reference pushed_image))
                  = Some $"layers of c/z:3") by (vm_compute; reflexivity).
  split; [repeat split; try reflexivity; assumption|].
  exact (loadable_image_is_pushed
           (sample_importer true) (sample_client true) (bundle sample_bundled)
           [] $"library" sample_manifest sample_files pushed_image
           $"layers of c/z:3" (mkDockerImage $"layers of c/z:3" [] None) []
           eq_refl eq_refl eq_refl eq_refl Hin Hfile eq_refl eq_refl).
Defined.

(** ** Relocation: what is left alone *)

Lemma relocate_file_log file_path content image_mapping :
  snd (_relocate_images_in_file file_path content image_mapping) = []
  \/ snd (_relocate_images_in_file file_path content image_mapping)
     = [InfoUpdated file_path].
Proof.
  unfold _relocate_images_in_file.
  destruct (relocate_content image_mapping content) as [c [|]]; cbn; auto.
Qed.

Lemma relocate_templates_frame image_mapping files :
  let r := map (fun '(file_path, content) =>
                  if endswith $".yaml" file_path || endswith $".yml" file_path
                  then let '(c, l) :=
                         _relocate_images_in_file file_path content
                                                  image_mapping in
                       ((file_path, c), l)
                  else ((file_path, content), []))
               files in
  map fst (map fst r) = map fst files
  /\ (forall file_path content,
        In (file_path, content) files -> is_yaml_path file_path = false ->
        In (file_path, content) (map fst r))
  /\ Forall (fun record =>
               exists file_path content,
                 record = InfoUpdated file_path
                 /\ In (file_path, content) files
                 /\ is_yaml_path file_path = true)
            (concat (map snd r)).
Proof.
  induction files as [|[p c] files [IHn [IHk IHl]]]; cbn zeta.
  - repeat split; [intros p c []|constructor].
  - cbn [map]. fold (is_yaml_path p).
    destruct (is_yaml_path p) eqn:Hp.
    + pose proof (relocate_file_log p c image_mapping) as Hlog.
      destruct (_relocate_images_in_file p c image_mapping) as [c' l].
      cbn [fst snd map concat] in *. split; [now rewrite IHn|]. split.
      * intros p' c'' [H|H] Hno; [|right; now apply IHk].
        injection H as -> ->. rewrite Hp in Hno. discriminate.
      * apply Forall_app. split.
        -- destruct Hlog as [->| ->]; constructor; [|constructor].
           exists p, c. repeat split; auto. now left.
        -- apply (Forall_impl _ (P := fun record =>
               exists file_path content,
                 record = InfoUpdated file_path
                 /\ In (file_path, content) files
                 /\ is_yaml_path file_path = true)); [|exact IHl].
           intros r [p' [c'' [Hr [Hin Hy]]]]. exists p', c''.
           repeat split; auto. now right.
    + cbn [fst snd map concat app]. split; [now rewrite IHn|]. split.
      * intros p' c'' [H|H] Hno; [now left | right; now apply IHk].
      * apply (Forall_impl _ (P := fun record =>
               exists file_path content,
                 record = InfoUpdated file_path
                 /\ In (file_path, content) files
                 /\ is_yaml_path file_path = true)); [|exact IHl].
        intros r [p' [c'' [Hr [Hin Hy]]]]. exists p', c''.
        repeat split; auto. now right.
Qed.

(** X17.  Relocation rewrites contents only: the files that are not
    values.yaml, values.yml or a template named .yaml or .yml are the
    same afterwards, no file appears, disappears or changes its name,
    and after its first line the log names only files relocation
    reads. *)
Theorem relocation_keeps_names_and_other_files
  (chart_dir : ChartTree) (image_mapping : dict str) :
  let relocated := fst (_relocate_chart_images chart_dir image_mapping) in
  let records := snd (_relocate_chart_images chart_dir image_mapping) in
  other_files relocated = other_files chart_dir
  /\ (values_yaml relocated = None <-> values_yaml chart_dir = None)
  /\ (values_yml relocated = None <-> values_yml chart_dir = None)
  /\ option_map (map fst) (templates relocated)
     = option_map (map fst) (templates chart_dir)
  /\ (forall files file_path content,
        templates chart_dir = Some files ->
        In (file_path, content) files -> is_yaml_path file_path = false ->
        exists files', templates relocated = Some files'
                       /\ In (file_path, content) files')
  /\ exists updated,
       records = InfoRelocating :: updated
       /\ Forall (fun record =>
                    exists file_path content,
                      record = InfoUpdated file_path
                      /\ In (file_path, content) (relocated_files chart_dir))
                 updated.
Proof.
  destruct chart_dir as [v1 v2 t o].
  unfold _relocate_chart_images, relocated_files.
  cbn [values_yaml values_yml templates other_files].
  assert (Hv : forall p (v : option str),
             let r := match v with
                      | None => (None, [])
                      | Some content =>
                          let '(c, l) :=
                            _relocate_images_in_file p content image_mapping in
                          (Some c, l)
                      end in
             (fst r = None <-> v = None)
             /\ Forall (fun record =>
                          exists file_path content,
                            record = InfoUpdated file_path
                            /\ In (file_path, content)
                                  match v with
                                  | Some content => [(p, content)]
                                  | None => []
                                  end) (snd r)).
  { intros p [c|]; cbn zeta.
    - pose proof (relocate_file_log p c image_mapping) as Hlog.
      destruct (_relocate_images_in_file p c image_mapping) as [c' l].
      cbn [fst snd] in *. split; [split; discriminate|].
      destruct Hlog as [->| ->]; constructor; [|constructor].
      exists p, c. split; [reflexivity | now left].
    - cbn. split; [tauto | constructor]. }
  pose proof (Hv $"values.yaml" v1) as [H1 L1].
  pose proof (Hv $"values.yml" v2) as [H2 L2]. clear Hv. cbn zeta in *.
  destruct (match v1 with None => _ | Some _ => _ end) as [v1' l1].
  destruct (match v2 with None => _ | Some _ => _ end) as [v2' l2].
  cbn [fst snd] in *.
  assert (Ht : let r := match t with
                        | None => (None, [])
                        | Some files =>
                            let r :=
                              map (fun '(file_path, content) =>
                                     if endswith $".yaml" file_path
                                        || endswith $".yml" file_path
                                     then let '(c, l) :=
                                            _relocate_images_in_file
                                              file_path content image_mapping in
                                          ((file_path, c), l)
                                     else ((file_path, content), []))
                                  files in
                            (Some (map fst r), concat (map snd r))
                        end in
               option_map (map fst) (fst r) = option_map (map fst) t
               /\ (forall files file_path content,
                     t = Some files -> In (file_path, content) files ->
                     is_yaml_path file_path = false ->
                     exists files', fst r = Some files'
                                    /\ In (file_path, content) files')
               /\ Forall (fun record =>
                            exists file_path content,
                              record = InfoUpdated file_path
                              /\ In (file_path, content)
                                    match t with
                                    | Some files =>
                                        filter (fun '(file_path, _) =>
                                                  is_yaml_path file_path) files
                                    | None => []
                                    end) (snd r)).
  { destruct t as [files|]; cbn zeta.
    - destruct (relocate_templates_frame image_mapping files)
        as [Hn [Hk Hl]]. cbn zeta in Hn, Hk, Hl. cbn [fst snd option_map].
      split; [now rewrite Hn|]. split.
      + intros files' p c Hf Hin Hno. injection Hf as <-.
        eexists. split; [reflexivity|]. now apply Hk.
      + apply (Forall_impl _ (P := fun record =>
               exists file_path content,
                 record = InfoUpdated file_path
                 /\ In (file_path, content) files
                 /\ is_yaml_path file_path = true)); [|exact Hl].
        intros r [p [c [Hr [Hin Hy]]]]. exists p, c. split; [exact Hr|].
        apply filter_In. split; [exact Hin | exact Hy].
    - cbn. split; [reflexivity|]. split; [discriminate | constructor]. }
  cbn zeta in Ht. destruct Ht as [Hn [Hk L3]].
  destruct (match t with None => _ | Some _ => _ end) as [t' l3].
  cbn [fst snd values_yaml values_yml templates other_files] in *.
  split; [reflexivity|]. split; [exact H1|]. split; [exact H2|].
  split; [exact Hn|]. split; [exact Hk|].
  exists (l1 ++ l2 ++ l3). split; [reflexivity|].
  rewrite !Forall_app. repeat split.
  - refine (Forall_impl _ _ L1).
    intros r [p [c [Hr Hin]]]. exists p, c. split; [exact Hr|].
    apply in_or_app. now left.
  - refine (Forall_impl _ _ L2).
    intros r [p [c [Hr Hin]]]. exists p, c. split; [exact Hr|].
    apply in_or_app. right. apply in_or_app. now left.
  - refine (Forall_impl _ _ L3).
    intros r [p [c [Hr Hin]]]. exists p, c. split; [exact Hr|].
    apply in_or_app. right. apply in_or_app. now right.
Qed.

Lemma relocate_content_modified image_mapping content :
  snd (relocate_content image_mapping content) = true
  <-> exists original_ref harbor_ref,
        In (original_ref, harbor_ref) image_mapping
        /\ contains original_ref content = true.
Proof.
  unfold relocate_content.
  induction image_mapping as [|[k v] m IH] in content |- *.
  - cbn. split; [discriminate | intros [k [v [[] _]]]].
  - cbn [fold_left]. destruct (contains k content) eqn:Hk.
    + rewrite relocate_fold_modified. split; [|reflexivity].
      intros _. exists k, v. split; [now left | exact Hk].
    + rewrite IH. split.
      * intros [k' [v' [Hin Hc]]]. exists k', v'. split; [now right | exact Hc].
      * intros [k' [v' [[H|Hin] Hc]]]; [|now exists k', v'].
        injection H as <- <-. rewrite Hk in Hc. discriminate.
Qed.

(** X18.  A file is written, and reported as updated, exactly when some
    key of the mapping occurs in the content as it was read; otherwise
    its content stays as it was and nothing is logged. *)
Theorem file_is_rewritten_iff_a_key_occurs
  (file_path content : str) (image_mapping : dict str) :
  ((exists original_ref harbor_ref,
      In (original_ref, harbor_ref) image_mapping
      /\ contains original_ref content = true)
   <-> snd (_relocate_images_in_file file_path content image_mapping)
       = [InfoUpdated file_path])
  /\ ((forall original_ref harbor_ref,
         In (original_ref, harbor_ref) image_mapping ->
         contains original_ref content = false)
      <-> _relocate_images_in_file file_path content image_mapping
          = (content, [])).
Proof.
  pose proof (relocate_content_modified image_mapping content) as Hmod.
  unfold _relocate_images_in_file.
  destruct (relocate_content image_mapping content) as [c modified].
  cbn [snd] in Hmod. destruct modified; cbn [snd].
  - destruct (proj1 Hmod eq_refl) as [k [v [Hin Hk]]]. split.
    + split; [reflexivity|]. intros _. now exists k, v.
    + split; [|discriminate]. intros H. rewrite (H k v Hin) in Hk.
      discriminate.
  - split.
    + split; [|discriminate]. intros H. apply Hmod in H. discriminate.
    + split; [reflexivity|]. intros _ k v Hin.
      destruct (contains k content) eqn:Hk; [|reflexivity].
      assert (false = true) by (apply Hmod; now exists k, v). discriminate.
Qed.

Lemma relocate_templates_without_key image_mapping files :
  (forall file_path content original_ref harbor_ref,
     In (file_path, content) files -> is_yaml_path file_path = true ->
     In (original_ref, harbor_ref) image_mapping ->
     contains original_ref content = false) ->
  let r := map (fun '(file_path, content) =>
                  if endswith $".yaml" file_path || endswith $".yml" file_path
                  then let '(c, l) :=
                         _relocate_images_in_file file_path content
                                                  image_mapping in
                       ((file_path, c), l)
                  else ((file_path, content), []))
               files in
  map fst r = files /\ concat (map snd r) = [].
Proof.
  induction files as [|[p c] files IH]; intros H; cbn zeta;
    [split; reflexivity|].
  destruct IH as [IH1 IH2].
  { intros p' c' k v Hin. apply H. now right. }
  cbn zeta in IH1, IH2. cbn [map]. fold (is_yaml_path p).
  destruct (is_yaml_path p) eqn:Hp.
  - rewrite relocate_file_without_key.
    + cbn [fst snd concat app]. now rewrite IH1, IH2.
    + intros k v Hin. apply (H p c k v); auto. now left.
  - cbn [fst snd concat app]. now rewrite IH1, IH2.
Qed.

(** X19.  When no key of the mapping occurs in a file relocation
    reads (in particular for a chart without images, whose mapping is
    empty) the chart is left exactly as it was and only the opening
    line is logged. *)
Theorem relocation_without_occurrence_changes_nothing
  (chart_dir : ChartTree) (image_mapping : dict str) :
  (forall file_path content original_ref harbor_ref,
     In (file_path, content) (relocated_files chart_dir) ->
     In (original_ref, harbor_ref) image_mapping ->
     contains original_ref content = false) ->
  _relocate_chart_images chart_dir image_mapping
  = (chart_dir, [InfoRelocating]).
Proof.
  destruct chart_dir as [v1 v2 t o]. unfold relocated_files.
  cbn [values_yaml values_yml templates other_files]. intros H.
  unfold _relocate_chart_images.
  cbn [values_yaml values_yml templates other_files].
  assert (E1 : match v1 with
               | None => (None, [])
               | Some content =>
                   let '(c, l) :=
                     _relocate_images_in_file $"values.yaml" content
                                              image_mapping in
                   (Some c, l)
               end = (v1, @nil LogRecord)).
  { destruct v1 as [c|]; [|reflexivity].
    rewrite relocate_file_without_key; [reflexivity|].
    intros k v Hin. apply (H $"values.yaml" c k v); [|exact Hin].
    apply in_or_app. left. now left. }
  assert (E2 : match v2 with
               | None => (None, [])
               | Some content =>
                   let '(c, l) :=
                     _relocate_images_in_file $"values.yml" content
                                              image_mapping in
                   (Some c, l)
               end = (v2, @nil LogRecord)).
  { destruct v2 as [c|]; [|reflexivity].
    rewrite relocate_file_without_key; [reflexivity|].
    intros k v Hin. apply (H $"values.yml" c k v); [|exact Hin].
    apply in_or_app. right. apply in_or_app. left. now left. }
  rewrite E1, E2. destruct t as [files|]; [|reflexivity].
  destruct (relocate_templates_without_key image_mapping files) as [R1 R2].
  { intros p c k v Hin Hy Hk. apply (H p c k v); [|exact Hk].
    apply in_or_app. right. apply in_or_app. right.
    apply filter_In. split; [exact Hin | exact Hy]. }
  cbn zeta in R1, R2. now rewrite R1, R2.
Qed.

Lemma relocation_without_occurrence_changes_nothing_witness :
  (forall file_path content original_ref harbor_ref,
     In (file_path, content) (relocated_files sample_tree) ->
     In (original_ref, harbor_ref) [($"b/y:2", $"harbor.local/lib/y:2")] ->
     contains original_ref content = false)
  /\ _relocate_chart_images sample_tree [($"b/y:2", $"harbor.local/lib/y:2")]
     = (sample_tree, [InfoRelocating]).
Proof.
  assert (H : forall file_path content original_ref harbor_ref,
             In (file_path, content) (relocated_files sample_tree) ->
             In (original_ref, harbor_ref)
                [($"b/y:2", $"harbor.local/lib/y:2")] ->
             contains original_ref content = false).
  { intros p c k v Hin [Hk|[]]. injection Hk as <- <-.
    vm_compute in Hin. destruct Hin as [Hin|[Hin|[]]];
      injection Hin as <- <-; reflexivity. }
  split; [exact H|].
  exact (relocation_without_occurrence_changes_nothing
           sample_tree [($"b/y:2", $"harbor.local/lib/y:2")] H).
Defined.

(** ** The registry host *)

Lemma startswith_app (p s : str) : startswith p (p ++ s) = true.
Proof.
  induction p as [|x p IH]; [reflexivity|].
  cbn. now rewrite Ascii.eqb_refl, IH.
Qed.

Lemma split_go_skip sep skip (s : str) :
  skip <= List.length s ->
  split_go sep skip s = split_go sep 0 (skipn skip s).
Proof.
  revert skip; induction s as [|c s IH]; intros [|k] Hk;
    try reflexivity.
  cbn [split_go skipn]. apply IH. cbn in Hk. now apply le_S_n.
Qed.

Lemma split_without_separator sep (s : str) :
  contains sep s = false -> split_go sep 0 s = [s].
Proof.
  induction s as [|c s IH]; intros H; [reflexivity|].
  cbn [contains] in H. apply orb_false_iff in H. destruct H as [Hs Hc].
  cbn [split_go]. rewrite Hs, (IH Hc). reflexivity.
Qed.

Lemma split_after_prefix x sep' (scheme rest : str) :
  ~ In x scheme ->
  split (x :: sep') (scheme ++ (x :: sep') ++ rest)
  = scheme :: split (x :: sep') rest.
Proof.
  unfold split. intros Hx. induction scheme as [|c scheme IH].
  - cbn [app]. change (x :: sep' ++ rest) with ((x :: sep') ++ rest).
    cbn [split_go app]. change (x :: sep' ++ rest) with ((x :: sep') ++ rest).
    rewrite startswith_app. cbn [List.length Nat.sub].
    rewrite Nat.sub_0_r.
    rewrite split_go_skip by (rewrite length_app; apply Nat.le_add_r).
    rewrite skipn_app, skipn_all, Nat.sub_diag. reflexivity.
  - change ((c :: scheme) ++ (x :: sep') ++ rest)
      with (c :: scheme ++ (x :: sep') ++ rest).
    cbn [split_go startswith].
    assert (Hc : Ascii.eqb x c = false).
    { apply Ascii.eqb_neq. intros ->. apply Hx. now left. }
    rewrite Hc. cbn [andb]. rewrite IH; [reflexivity|].
    intros Hin. apply Hx. now right.
Qed.

Lemma rstrip_by_app_stripped p (s tail : str) :
  forallb p tail = true ->
  rstrip_by p (s ++ tail) = rstrip_by p s.
Proof.
  unfold rstrip_by. intros H. rewrite rev_app_distr. f_equal.
  assert (Hr : forallb p (rev tail) = true).
  { rewrite forallb_forall in *. intros c Hc. apply H. now apply in_rev. }
  induction (rev tail) as [|c l IH]; [reflexivity|].
  cbn in Hr. apply andb_true_iff in Hr. destruct Hr as [Hc Hl].
  cbn. rewrite Hc. now apply IH.
Qed.

Lemma rstrip_by_kept p (s : str) c :
  p c = false -> rstrip_by p (s ++ [c]) = s ++ [c].
Proof.
  unfold rstrip_by. intros H. rewrite rev_app_distr. cbn. rewrite H.
  cbn. now rewrite rev_involutive.
Qed.

(** X20.  The host an importer logs in to, tags for and pushes to is
    the configured address without its scheme and without trailing
    slashes; an address without a scheme is used as it is, bar the
    trailing slashes. *)
Theorem harbor_host_drops_scheme_and_trailing_slashes
  (scheme host slashes harbor_username harbor_password : str) (c : ascii)
  (insecure : bool) (docker : option DockerClient) (helm : Helm) :
  ~ In ":"%char scheme ->
  contains $"://" (host ++ [c]) = false ->
  c <> "/"%char ->
  forallb (Ascii.eqb "/") slashes = true ->
  harbor_host (new_importer (scheme ++ $"://" ++ (host ++ [c]) ++ slashes)
                            harbor_username harbor_password insecure docker
                            helm)
  = host ++ [c]
  /\ harbor_host (new_importer ((host ++ [c]) ++ slashes)
                               harbor_username harbor_password insecure docker
                               helm)
     = host ++ [c].
Proof.
  intros Hscheme Hhost Hc Hslashes.
  assert (Hp : forallb (fun x => mem x $"/") slashes = true).
  { rewrite forallb_forall in *. intros x Hx. unfold mem. cbn.
    rewrite (Ascii.eqb_sym x), (Hslashes x Hx). reflexivity. }
  assert (Hk : mem c $"/" = false).
  { unfold mem. cbn. rewrite orb_false_r. now apply Ascii.eqb_neq. }
  unfold harbor_host, new_importer. cbn [harbor_url]. unfold rstrip_chars.
  split.
  - replace (scheme ++ $"://" ++ (host ++ [c]) ++ slashes)
      with (((scheme ++ $"://" ++ host) ++ [c]) ++ slashes)
      by (now rewrite <- !app_assoc).
    rewrite rstrip_by_app_stripped by exact Hp.
    rewrite rstrip_by_kept by exact Hk.
    replace ((scheme ++ $"://" ++ host) ++ [c])
      with (scheme ++ $"://" ++ (host ++ [c]))
      by (now rewrite <- !app_assoc).
    change ($"://") with (":"%char :: $"//").
    rewrite split_after_prefix by exact Hscheme.
    unfold split. rewrite split_without_separator by exact Hhost.
    reflexivity.
  - rewrite rstrip_by_app_stripped by exact Hp.
    rewrite rstrip_by_kept by exact Hk.
    unfold split. rewrite split_without_separator by exact Hhost.
    reflexivity.
Qed.

Lemma harbor_host_drops_scheme_and_trailing_slashes_witness :
  (~ In ":"%char $"https"
   /\ contains $"://" ($"harbor.example.co" ++ ["m"%char]) = false
   /\ "m"%char <> "/"%char
   /\ forallb (Ascii.eqb "/") $"//" = true)
  /\ harbor_host (new_importer
                    ($"https" ++ $"://" ++ ($"harbor.example.co" ++ ["m"%char])
                     ++ $"//")
                    $"admin" $"secret" false None sample_helm)
     = $"harbor.example.co" ++ ["m"%char]
  /\ harbor_host (new_importer (($"harbor.example.co" ++ ["m"%char]) ++ $"//")
                               $"admin" $"secret" false None sample_helm)
     = $"harbor.example.co" ++ ["m"%char].
Proof.
  assert (H1 : ~ In ":"%char $"https")
    by (cbn; intros [H|[H|[H|[H|[H|[]]]]]]; discriminate).
  assert (H3 : "m"%char <> "/"%char) by discriminate.
  split; [repeat split; try reflexivity; assumption|].
  exact (harbor_host_drops_scheme_and_trailing_slashes
           $"https" $"harbor.example.co" $"//" $"admin" $"secret" "m"%char
           false None sample_helm H1 eq_refl H3 eq_refl).
Defined.

(** ** Chart sources and temporary directories *)

(** X21.  Preparing a chart source makes at most one temporary
    directory, and tracks it before anything can fail: a URL is always
    fetched, even when a directory of that name exists; a directory is
    used in place; an archive named .tgz is unpacked; anything else is
    a ValueError raised before any directory is made.  A path returned
    from a fetch or an archive lies in the directory tracked by that
    call, and a failed fetch or extraction leaves its directory tracked
    for the cleanup. *)
Theorem prepare_chart_tracks_its_directory
  (env : Materializer) (st : AnalyzerState) (chart_path_or_url : str) :
  let st' := fst (_prepare_chart env st chart_path_or_url) in
  let result := snd (_prepare_chart env st chart_path_or_url) in
  let temp_dir := mkdtemp env (made st) in
  if is_url chart_path_or_url
     || (negb (isdir env chart_path_or_url)
         && endswith $".tgz" chart_path_or_url)
  then temp_dirs st' = temp_dirs st ++ [temp_dir]
       /\ made st' = S (made st)
       /\ match result with
          | Ok chart_path =>
              exists chart_dirs d more,
                (if is_url chart_path_or_url
                 then helm_pull env chart_path_or_url temp_dir
                 else extractall env chart_path_or_url temp_dir)
                = Ok chart_dirs
                /\ chart_dirs = d :: more
                /\ chart_path = path_join temp_dir d
          | Raise e =>
              (if is_url chart_path_or_url
               then helm_pull env chart_path_or_url temp_dir
               else extractall env chart_path_or_url temp_dir) = Raise e
              \/ ((if is_url chart_path_or_url
                   then helm_pull env chart_path_or_url temp_dir
                   else extractall env chart_path_or_url temp_dir) = Ok []
                  /\ exists msg, e = ValueError msg)
          end
  else st' = st
       /\ result = if isdir env chart_path_or_url then Ok chart_path_or_url
                   else Raise (ValueError ($"Unsupported chart source: "
                                           ++ chart_path_or_url)).
Proof.
  unfold _prepare_chart. fold (is_url chart_path_or_url).
  destruct (is_url chart_path_or_url); cbn [orb].
  - unfold _download_chart, track_temp_dir. cbn [fst snd temp_dirs made].
    split; [reflexivity|]. split; [reflexivity|].
    destruct (helm_pull env chart_path_or_url _) as [[|d more]|e];
      cbn [bind first_chart_dir].
    + right. split; [reflexivity|]. eexists. reflexivity.
    + exists (d :: more), d, more. repeat split.
    + now left.
  - destruct (isdir env chart_path_or_url); cbn [negb andb].
    + split; reflexivity.
    + destruct (endswith $".tgz" chart_path_or_url).
      * unfold _extract_chart_archive, track_temp_dir.
        cbn [fst snd temp_dirs made].
        split; [reflexivity|]. split; [reflexivity|].
        destruct (extractall env chart_path_or_url _) as [[|d more]|e];
          cbn [bind first_chart_dir].
        -- right. split; [reflexivity|]. eexists. reflexivity.
        -- exists (d :: more), d, more. repeat split.
        -- now left.
      * split; reflexivity.
Qed.

Lemma filter_filter {A : Type} (f g : A -> bool) (l : list A) :
  filter f (filter g l) = filter (fun x => g x && f x) l.
Proof.
  induction l as [|x l IH]; [reflexivity|].
  cbn. destruct (g x); cbn; [destruct (f x)|]; now rewrite IH.
Qed.

Lemma filter_all {A : Type} (f : A -> bool) (l : list A) :
  (forall x, In x l -> f x = true) -> filter f l = l.
Proof.
  induction l as [|x l IH]; intros H; [reflexivity|].
  cbn. rewrite (H x) by now left. f_equal. apply IH.
  intros y Hy. apply H. now right.
Qed.

Lemma exit_loop_outcome (removal : str -> res unit) (dirs entries : list str) :
  match exit_loop removal dirs entries with
  | Ok remaining =>
      remaining
      = filter (fun path => negb (existsb (fun d => under d path) dirs)) entries
  | Raise e => exists d, In d dirs /\ removal d = Raise e
  end.
Proof.
  revert entries; induction dirs as [|d dirs IH]; intros entries.
  - cbn. symmetry. now apply filter_all.
  - cbn [exit_loop]. destruct (path_exists d entries) eqn:Hd.
    + destruct (removal d) as [u|e] eqn:Hr; cbn [bind].
      * specialize (IH (rmtree d entries)).
        destruct (exit_loop removal dirs (rmtree d entries)) as [remaining|e].
        -- rewrite IH. unfold rmtree. rewrite filter_filter.
           apply filter_ext. intros path. cbn [existsb].
           now rewrite negb_orb.
        -- destruct IH as [d' [Hin He]]. exists d'. split; [now right | exact He].
      * exists d. split; [now left | exact Hr].
    + specialize (IH entries).
      destruct (exit_loop removal dirs entries) as [remaining|e].
      * rewrite IH. apply filter_ext_in. intros path Hpath. cbn [existsb].
        assert (Hu : under d path = false).
        { unfold path_exists in Hd.
          destruct (under d path) eqn:E; [|reflexivity].
          assert (H : existsb (under d) entries = true)
            by (apply existsb_exists; exists path; split; assumption).
          congruence. }
        now rewrite Hu.
      * destruct IH as [d' [Hin He]]. exists d'. split; [now right | exact He].
Qed.

(** X22.  Leaving the analyzer removes every tracked directory that
    exists, with everything below it, and nothing else: when it
    returns, the entries that exist afterwards are those that existed
    and are neither a tracked directory nor below one, in the same
    order; it raises only the exception of a removal that raises.  In
    particular the directory made by a preparation, failed or not, and
    what was unpacked into it are gone once it has returned. *)
Theorem exit_removes_tracked_directories
  (env : Materializer) (removal : str -> res unit) (st : AnalyzerState)
  (entries : list str) :
  match __exit__ removal st entries with
  | Ok remaining =>
      remaining
      = filter (fun path =>
                  negb (existsb (fun d => under d path) (temp_dirs st)))
               entries
  | Raise e => exists d, In d (temp_dirs st) /\ removal d = Raise e
  end
  /\ forall chart_path_or_url d path remaining,
       In d (temp_dirs (fst (_prepare_chart env st chart_path_or_url))) ->
       under d path = true ->
       __exit__ removal (fst (_prepare_chart env st chart_path_or_url)) entries
       = Ok remaining ->
       ~ In path remaining.
Proof.
  unfold __exit__. split; [apply exit_loop_outcome|].
  intros src d path remaining Hd Hu Hexit Hin.
  pose proof (exit_loop_outcome
                removal (temp_dirs (fst (_prepare_chart env st src))) entries)
    as H.
  rewrite Hexit in H. rewrite H in Hin.
  apply filter_In in Hin. destruct Hin as [_ Hin].
  assert (Hex : existsb (fun d => under d path)
                        (temp_dirs (fst (_prepare_chart env st src))) = true)
    by (apply existsb_exists; exists d; split; assumption).
  rewrite Hex in Hin. discriminate.
Qed.

(** ** The analyze command: images by chart *)

Lemma group_one_get by_chart img chart_name :
  dict_get (group_one by_chart img) chart_name
  = if eqb (chart_source img) chart_name
    then Some (match dict_get by_chart chart_name with
               | Some images => images ++ [img]
               | None => [img]
               end)
    else dict_get by_chart chart_name.
Proof.
  unfold group_one.
  destruct (eqb_spec (chart_source img) chart_name) as [<-|Hne].
  - destruct (dict_get by_chart (chart_source img));
      now rewrite dict_get_set, eqb_refl.
  - destruct (dict_get by_chart (chart_source img)); rewrite dict_get_set;
      now rewrite (proj2 (eqb_neq _ _) Hne).
Qed.

Lemma group_fold_get images by_chart chart_name :
  dict_get (fold_left group_one images by_chart) chart_name
  = match dict_get by_chart chart_name, from_chart chart_name images with
    | None, [] => None
    | None, found => Some found
    | Some before, found => Some (before ++ found)
    end.
Proof.
  revert by_chart; induction images as [|img images IH]; intros by_chart.
  - cbn. destruct (dict_get by_chart chart_name); [|reflexivity].
    now rewrite app_nil_r.
  - cbn [fold_left]. rewrite IH, group_one_get. unfold from_chart.
    cbn [filter]. destruct (eqb (chart_source img) chart_name).
    + destruct (dict_get by_chart chart_name).
      * now rewrite <- app_assoc.
      * reflexivity.
    + reflexivity.
Qed.

Lemma group_one_keys by_chart img :
  map fst (group_one by_chart img)
  = if existsb (eqb (chart_source img)) (map fst by_chart)
    then map fst by_chart
    else map fst by_chart ++ [chart_source img].
Proof.
  unfold group_one.
  destruct (existsb (eqb (chart_source img)) (map fst by_chart)) eqn:E.
  - apply existsb_eqb_In in E.
    destruct (dict_get by_chart (chart_source img));
      now apply dict_set_old_keys.
  - assert (Hn : ~ In (chart_source img) (map fst by_chart)).
    { intros H. apply existsb_eqb_In in H. congruence. }
    destruct (dict_get by_chart (chart_source img));
      rewrite (dict_set_new _ _ _ Hn), map_app; reflexivity.
Qed.

Lemma group_fold_keys images by_chart :
  map fst (fold_left group_one images by_chart)
  = map fst by_chart
    ++ new_keys (map fst by_chart) (map chart_source images).
Proof.
  revert by_chart; induction images as [|img images IH]; intros by_chart.
  - cbn. now rewrite app_nil_r.
  - cbn [fold_left map new_keys]. rewrite IH, group_one_keys.
    destruct (existsb (eqb (chart_source img)) (map fst by_chart));
      [reflexivity|].
    rewrite <- app_assoc. cbn [app]. do 2 f_equal.
    apply new_keys_ext. intros y. rewrite in_app_iff. cbn. tauto.
Qed.

Lemma group_fold_NoDup images by_chart :
  NoDup (map fst by_chart) ->
  NoDup (map fst (fold_left group_one images by_chart)).
Proof.
  revert by_chart; induction images as [|img images IH]; intros d Hd;
    [exact Hd|].
  cbn [fold_left]. apply IH. rewrite group_one_keys.
  destruct (existsb (eqb (chart_source img)) (map fst d)) eqn:E;
    [exact Hd|].
  apply NoDup_app; [exact Hd| |].
  - constructor; [intros []|constructor].
  - intros x Hx [<-|[]]. apply existsb_eqb_In in Hx. congruence.
Qed.

(** X23.  The listing of the analyze command: the charts appear in the
    order in which their first image appears in the list, each once;
    under a chart stand exactly the images of the list that name it as
    their source, in the order of the list; a chart that no image
    names has no entry, and no entry is empty. *)
Theorem group_by_chart_partitions_the_images (images : list ImageInfo) :
  map fst (group_by_chart images)
  = first_occurrences (map chart_source images)
  /\ (forall chart_name,
        dict_get (group_by_chart images) chart_name
        = match from_chart chart_name images with
          | [] => None
          | found => Some found
          end)
  /\ (forall chart_name found,
        In (chart_name, found) (group_by_chart images) ->
        found = from_chart chart_name images /\ found <> [])
  /\ forall img, In img images ->
                 exists found,
                   In (chart_source img, found) (group_by_chart images)
                   /\ In img found.
Proof.
  unfold group_by_chart, first_occurrences.
  assert (Hget : forall chart_name,
             dict_get (fold_left group_one images []) chart_name
             = match from_chart chart_name images with
               | [] => None
               | found => Some found
               end).
  { intros c. rewrite group_fold_get. cbn [dict_get].
    destruct (from_chart c images); reflexivity. }
  assert (Hkeys : map fst (fold_left group_one images [])
                  = new_keys [] (map chart_source images))
    by (rewrite group_fold_keys; reflexivity).
  assert (Hnodup : NoDup (map fst (fold_left group_one images [])))
    by (apply group_fold_NoDup; constructor).
  assert (Hin : forall (d : dict (list ImageInfo)) c found,
             NoDup (map fst d) -> In (c, found) d ->
             dict_get d c = Some found).
  { induction d as [|[k v] d IH]; intros c found Hd Hcf; [destruct Hcf|].
    cbn [map fst] in Hd. inversion Hd as [|? ? Hk Hd']; subst.
    cbn [dict_get]. destruct Hcf as [H|H].
    - injection H as -> ->. now rewrite eqb_refl.
    - destruct (eqb_spec k c) as [->|_]; [|now apply IH].
      exfalso. apply Hk. apply (in_map fst) in H. exact H. }
  assert (Hget_in : forall (d : dict (list ImageInfo)) c found,
             dict_get d c = Some found -> In (c, found) d).
  { induction d as [|[k v] d IH]; intros c found H; [discriminate|].
    cbn [dict_get] in H. destruct (eqb_spec k c) as [->|_].
    - injection H as ->. now left.
    - right. now apply IH. }
  split; [exact Hkeys|]. split; [exact Hget|]. split.
  - intros c found Hcf. apply (Hin _ _ _ Hnodup) in Hcf.
    rewrite Hget in Hcf. destruct (from_chart c images) eqn:E;
      [discriminate|]. injection Hcf as <-. split; [reflexivity|discriminate].
  - intros img Himg.
    assert (Hf : In img (from_chart (chart_source img) images)).
    { apply filter_In. split; [exact Himg | apply eqb_refl]. }
    exists (from_chart (chart_source img) images). split; [|exact Hf].
    apply Hget_in. rewrite Hget.
    destruct (from_chart (chart_source img) images); [destruct Hf|].
    reflexivity.
Qed.

(** ** From the bundler to the registry *)

(** X24.  Packaging with embedding followed by an import: for an image
    of the chart that the bundler's runtime could pull, the importer
    issues a push of the image's relocation target, which is the value
    the relocation mapping holds for its reference, and the chart it
    leaves is the bundled chart relocated with that mapping, provided
    the importer's runtime logs in, loads and tags; failed pulls of
    other images and failed pushes do not matter.  (What is loaded and
    tagged is the file found under the image's archive name, which two
    references can share; what the relocated files hold is the work of
    the replacements and is not stated here.) *)
Theorem pulled_image_reaches_the_registry
  (self : HelmPackImporter) (bundler_client importer_client : DockerClient)
  (date : str) (chart_files : ChartTree) (chart_info : ChartInfo)
  (output_path target_project : str) (image_info : ImageInfo)
  (pulled : DockerImage) :
  let harbor_ref :=
    relocation_target (harbor_host self) target_project
                      (full_reference image_info) in
  let bundle_dir :=
    bundle (create_bundle (Some bundler_client) date chart_files chart_info
                          output_path true) in
  docker_client self = Some importer_client ->
  login importer_client (harbor_username self) (harbor_password self)
        (harbor_host self) = Ok tt ->
  (forall content, exists loaded rest,
      images_load importer_client content = Ok (loaded :: rest)) ->
  (forall loaded ref, image_tag importer_client loaded ref = Ok tt) ->
  In image_info (ci_images chart_info) ->
  images_pull bundler_client (full_reference image_info) = Ok pulled ->
  exists w image_mapping,
    import_bundle self [bundle_dir] target_project = Ok w
    /\ In (DockerPush harbor_ref) (actions w)
    /\ build_image_mapping self (ci_images chart_info) target_project
       = Ok image_mapping
    /\ dict_get image_mapping (full_reference image_info) = Some harbor_ref
    /\ chart w = Some (fst (_relocate_chart_images chart_files image_mapping)).
Proof.
  intros harbor_ref bundle_dir Hclient Hlogin Hload Htag Hin Hpull.
  assert (Hne : is_empty (ci_images chart_info) = false)
    by (destruct (ci_images chart_info); [destruct Hin | reflexivity]).
  destruct (create_bundle_with_pulls bundler_client date chart_files
                                     chart_info output_path Hne)
    as [Hchart [Hfiles _]].
  fold bundle_dir in Hchart, Hfiles.
  destruct (create_bundle_manifest_images date chart_files chart_info
                                          output_path)
    as [manifest [Hm [Himages Hinfo]]].
  rewrite <- (create_bundle_manifest (Some bundler_client) date chart_files
                                     chart_info output_path true) in Hm.
  fold bundle_dir in Hm.
  set (files := ps_files
                  (pull_run bundler_client
                            [InfoPullingImages
                               (List.length (ci_images chart_info))]
                            (ci_images chart_info))) in *.
  destruct (dict_get files (image_filename (full_reference image_info)))
    as [content|] eqn:Hfile.
  2:{ exfalso.
      apply (pulled_has_file bundler_client
               [InfoPullingImages (List.length (ci_images chart_info))]
               (ci_images chart_info) image_info pulled Hin Hpull).
      exact Hfile. }
  destruct (Hload content) as [loaded [rest Hloaded]].
  destruct (import_bundle_steps self bundle_dir [] target_project manifest Hm)
    as [w1 [w2 [e1 [e2 [H1 [H2 [Hw [Ha1 [Ha2 _]]]]]]]]].
  unfold _import_images in H1. rewrite Hclient, Hfiles, Hlogin in H1.
  injection H1 as H1. rewrite Himages in H1.
  destruct (import_loop_pushes
              self importer_client files target_project (ci_images chart_info)
              (act (DockerLogin (harbor_host self))
                   (logging (InfoImporting
                               (List.length (ci_images chart_info)))
                            (mkWorld [] [InfoImportingBundle]
                                     (chart_dir bundle_dir))))
              image_info content loaded rest Hin Hfile Hloaded
              (Htag loaded _))
    as [_ [Hp _]].
  fold harbor_ref in Hp. rewrite H1 in Hp.
  destruct (import_chart_actions self bundle_dir (manifest_chart manifest)
                                 target_project (manifest_images manifest) w1)
    as [w2' [extra [H2' [_ Hcase]]]].
  rewrite H2 in H2'. injection H2' as <-.
  rewrite Hchart, Himages in Hcase. destruct Hcase as [Hc _].
  exists (logging InfoBundleImported w2). eexists.
  split; [exact Hw|]. split.
  { cbn [logging actions]. rewrite Ha2, <- Ha1. apply in_or_app. now left. }
  split; [apply build_image_mapping_eq|]. split; [|exact Hc].
  rewrite fold_add_mapping_get.
  assert (Hex : existsb (eqb (full_reference image_info))
                        (map full_reference (ci_images chart_info)) = true).
  { apply existsb_eqb_In. now apply in_map. }
  now rewrite Hex.
Qed.

Lemma pulled_image_reaches_the_registry_witness :
  (docker_client (sample_importer true) = Some (sample_client true)
   /\ login (sample_client true) (harbor_username (sample_importer true))
            (harbor_password (sample_importer true))
            (harbor_host (sample_importer true)) = Ok tt
   /\ (forall content, exists loaded rest,
         images_load (sample_client true) content = Ok (loaded :: rest))
   /\ (forall loaded ref, image_tag (sample_client true) loaded ref = Ok tt)
   /\ In pushed_image (ci_images root_info)
   /\ images_pull (sample_client true) (full_reference pushed_image)
      = Ok (mkDockerImage $"sha256:c/z:3" [$"layers of "; $"c/z:3"] None))
  /\ exists w image_mapping,
       import_bundle (sample_importer true) [bundle sample_bundled] $"library"
       = Ok w
       /\ In (DockerPush
                (relocation_target (harbor_host (sample_importer true))
                                   $"library" (full_reference pushed_image)))
             (actions w)
       /\ build_image_mapping (sample_importer true) (ci_images root_info)
                              $"library" = Ok image_mapping
       /\ dict_get image_mapping (full_reference pushed_image)
          = Some (relocation_target (harbor_host (sample_importer true))
                                    $"library" (full_reference pushed_image))
       /\ chart w
          = Some (fst (_relocate_chart_images sample_tree image_mapping)).
Proof.
  assert (Hload : forall content, exists loaded rest,
             images_load (sample_client true) content = Ok (loaded :: rest))
    by (intros content; eexists; exists []; reflexivity).
  assert (Htag : forall loaded ref,
             image_tag (sample_client true) loaded ref = Ok tt)
    by reflexivity.
  assert (Hin : In pushed_image (ci_images root_info))
    by (vm_compute; auto 20).
  split; [repeat split; try reflexivity; assumption|].
  exact (pulled_image_reaches_the_registry
           (sample_importer true) (sample_client true) (sample_client true)
           $"2024-01-01T00:00:00+00:00" sample_tree root_info $"out"
           $"library" pushed_image
           (mkDockerImage $"sha256:c/z:3" [$"layers of "; $"c/z:3"] None)
           eq_refl eq_refl Hload Htag Hin eq_refl).
Defined.
